(** * bankws: the XML digital-signature engine

    A shallow embedding of [bankws/signature.py], [bankws/certificate.py]
    and [bankws/plugin.py], and of the parts of [bankws/util.py],
    [bankws/appresponse.py] and [bankws/webservice.py] that use them or
    stand beside them.

    The Python code is a thin layer of control flow over four external
    libraries (lxml, hashlib/base64, PyCrypto, pyOpenSSL).  The control flow
    is embedded function by function; the libraries are the fields of the
    record [Lib], so that every statement below holds for whatever the
    libraries compute.  Facts about the libraries that a statement needs
    (for instance that parsing undoes serialising) are explicit hypotheses,
    and [Ref] gives a small executable instance of [Lib] on which they are
    all checked and on which the concrete runs below are evaluated. *)

From Stdlib Require Import String Ascii List Bool Arith ZArith Lia.
From Stdlib Require DecimalString.
Import ListNotations.
Local Open Scope string_scope.
Local Open Scope list_scope.

Set Warnings "-register-all".

(* ================================================================= *)
(** ** Python values and control flow *)

Module Py.

(** The exception classes the three modules raise or let through. *)
Inductive exn : Type :=
| XMLSyntaxError      (* lxml.etree.XMLSyntaxError *)
| XPathEvalError      (* lxml.etree.XPathEvalError *)
| RuntimeError
| IOError             (* IOError / EnvironmentError / OSError *)
| ValueError
| TypeError
| UnboundLocalError
| IndexError
| KeyError
| AttributeError
| BinasciiError       (* binascii.Error, from base64.b64decode *)
| CryptoError.        (* OpenSSL.crypto.Error *)

(** A call either returns a value or raises. *)
Inductive outcome (A : Type) : Type :=
| Ret (a : A)
| Raise (e : exn).
Arguments Ret {A} a.
Arguments Raise {A} e.

Definition bind {A B : Type} (m : outcome A) (k : A -> outcome B) : outcome B :=
  match m with
  | Ret a => k a
  | Raise e => Raise e
  end.

Definition returns {A : Type} (m : outcome A) : Prop := exists a, m = Ret a.

(** [needle in hay] *)
Fixpoint contains (needle hay : string) : bool :=
  String.prefix needle hay ||
  match hay with
  | EmptyString => false
  | String _ hay' => contains needle hay'
  end.

(** [s[1:]] *)
Definition drop1 (s : string) : string :=
  match s with
  | EmptyString => EmptyString
  | String _ s' => s'
  end.

(** [s.split(".")[0]] *)
Fixpoint before_dot (s : string) : string :=
  match s with
  | EmptyString => EmptyString
  | String c s' => if Ascii.eqb c "." then EmptyString else String c (before_dot s')
  end.

(** [a == b] on values that are a [str] or [None]. *)
Definition opt_eqb (a b : option string) : bool :=
  match a, b with
  | Some x, Some y => String.eqb x y
  | None, None => true
  | _, _ => false
  end.

(** [b == n] for a [bytes] object [b] and an [int] [n]: objects of these
    two types are never equal. *)
Definition bytes_eq_int (b : string) (n : Z) : bool := false.

(** [int(b, 16)] for a string of hexadecimal digits; [None]: [ValueError]. *)
Definition hex_digit (c : ascii) : option Z :=
  let n := Z.of_nat (nat_of_ascii c) in
  if ((48 <=? n) && (n <=? 57))%Z then Some (n - 48)%Z
  else if ((65 <=? n) && (n <=? 70))%Z then Some (n - 55)%Z
  else if ((97 <=? n) && (n <=? 102))%Z then Some (n - 87)%Z
  else None.

Fixpoint int16_from (acc : Z) (s : string) : option Z :=
  match s with
  | EmptyString => Some acc
  | String c s' =>
      match hex_digit c with
      | Some d => int16_from (16 * acc + d)%Z s'
      | None => None
      end
  end.

Definition int16 (s : string) : option Z :=
  match s with
  | EmptyString => None
  | _ => int16_from 0%Z s
  end.

(** A [dict] keeps its keys in the order of their first insertion; a second
    assignment to a key replaces the value in place. *)
Fixpoint dict_set {V : Type} (d : list (option string * V)) (k : option string) (v : V)
  : list (option string * V) :=
  match d with
  | [] => [(k, v)]
  | (k', v') :: d' => if opt_eqb k' k then (k', v) :: d' else (k', v') :: dict_set d' k v
  end.

Section FlatMapi.
Context {A B : Type} (f : nat -> A -> list B).
Fixpoint flat_mapi (i : nat) (l : list A) : list B :=
  match l with
  | [] => []
  | a :: l' => f i a ++ flat_mapi (S i) l'
  end.
End FlatMapi.

(** [l[:i] + l[i+1:]] *)
Fixpoint remove_nth {A : Type} (i : nat) (l : list A) : list A :=
  match l, i with
  | [], _ => []
  | _ :: l', O => l'
  | a :: l', S i' => a :: remove_nth i' l'
  end.

(** [l[i] = f(l[i])], nothing when [i] is out of range. *)
Fixpoint update_nth {A : Type} (i : nat) (f : A -> A) (l : list A) : list A :=
  match l, i with
  | [], _ => []
  | a :: l', O => f a :: l'
  | a :: l', S i' => a :: update_nth i' f l'
  end.

(** Index of the first element that satisfies [p]. *)
Fixpoint find_index {A : Type} (p : A -> bool) (l : list A) : option nat :=
  match l with
  | [] => None
  | a :: l' => if p a then Some O else option_map S (find_index p l')
  end.

(** Indices of all the elements that satisfy [p], in order. *)
Fixpoint find_indices {A : Type} (p : A -> bool) (i : nat) (l : list A) : list nat :=
  match l with
  | [] => []
  | a :: l' => if p a then i :: find_indices p (S i) l' else find_indices p (S i) l'
  end.

End Py.
Export Py.

Notation "x <- m ;; k" := (bind m (fun x => k))
  (at level 61, m at next level, right associativity).

(* ================================================================= *)
(** ** lxml element trees *)

Module Lxml.

(** Prefix-to-URI namespace declarations; the prefix [None] is the default
    namespace, as in lxml's [nsmap]. *)
Definition nsmap_t := list (option string * string).

(** An element as the code observes it: the tag in Clark notation
    ([{uri}local]), the namespace declarations it carries, its attributes
    (names in Clark notation, in document order), its text ([None] when it
    has none) and its child elements.  Comments, processing instructions
    and tail text are never inspected by the code; they are not
    represented. *)
Inductive element : Type :=
  Element { tag : string;
            nsmap : nsmap_t;
            attrib : list (string * string);
            text : option string;
            children : list element }.

(** [element.get(name)] *)
Fixpoint get (name : string) (a : list (string * string)) : option string :=
  match a with
  | [] => None
  | (n, v) :: a' => if String.eqb n name then Some v else get name a'
  end.

(** [element.set(name, value)]: replaces in place, appends when absent. *)
Fixpoint set (name value : string) (a : list (string * string)) : list (string * string) :=
  match a with
  | [] => [(name, value)]
  | (n, v) :: a' => if String.eqb n name then (n, value) :: a' else (n, v) :: set name value a'
  end.

Definition set_attr (name value : string) (e : element) : element :=
  Element (tag e) (nsmap e) (set name value (attrib e)) (text e) (children e).

Definition set_text (t : option string) (e : element) : element :=
  Element (tag e) (nsmap e) (attrib e) t (children e).

Definition set_children (kids : list element) (e : element) : element :=
  Element (tag e) (nsmap e) (attrib e) (text e) kids.

(** [parent.append(child)] and [etree.SubElement(parent, ...)] *)
Definition append (parent child : element) : element :=
  set_children (children parent ++ [child]) parent.

Definition has_tag (t : string) (e : element) : bool := String.eqb (tag e) t.

Definition has_prefix (p : option string) (m : nsmap_t) : bool :=
  existsb (fun d => opt_eqb (fst d) p) m.

(** The declarations in scope below an element that declares [inner]
    inside the scope [outer]: the inner ones shadow the outer ones. *)
Definition ns_merge (inner outer : nsmap_t) : nsmap_t :=
  inner ++ filter (fun d => negb (has_prefix (fst d) inner)) outer.

(** An element met while walking a tree: where it is ([l_path], the child
    indices from the root), the declarations its ancestors put in scope,
    its parent and the element itself. *)
Record located : Type :=
  Loc { l_path : list nat;
        l_scope : nsmap_t;
        l_parent : option element;
        l_node : element }.

(** Document-order walk ([element.iter()], and the node set of [//*]). *)
Fixpoint walk (path : list nat) (scope : nsmap_t) (parent : option element)
  (e : element) : list located :=
  Loc path scope parent e ::
  flat_mapi (fun i k => walk (path ++ [i]) (ns_merge (nsmap e) scope) (Some e) k)
            0 (children e).

Definition walk_root (tree : element) : list located := walk [] [] None tree.

Definition walk_from (n : located) : list located :=
  walk (l_path n) (l_scope n) (l_parent n) (l_node n).

(** [tree.xpath("//p:local", namespaces={p: uri})], the tag given in Clark
    notation.  An expression that starts with [//] is evaluated from the
    document root whatever element it is called on. *)
Definition xpath_all (tree : element) (clark : string) : list located :=
  filter (fun n => has_tag clark (l_node n)) (walk_root tree).

(** The children of [e] with the given tag ([e.findall(tag)], and a
    relative one-step XPath), each with its index. *)
Definition child_indices (clark : string) (e : element) : list nat :=
  find_indices (has_tag clark) 0 (children e).

(** The root of a tree, and the child [k] at index [i] of a located
    element, as [walk] locates them. *)
Definition root_loc (tree : element) : located := Loc [] [] None tree.

Definition child_loc (p : located) (i : nat) (k : element) : located :=
  Loc (l_path p ++ [i]) (ns_merge (nsmap (l_node p)) (l_scope p)) (Some (l_node p)) k.

(** The children of a located element that have the given tag, in
    document order (a one-step relative XPath, [findall]). *)
Definition children_with (clark : string) (p : located) : list located :=
  flat_mapi (fun i k => if has_tag clark k then [child_loc p i k] else [])
            0 (children (l_node p)).

(** The tree with [f] applied to the element at [path]. *)
Fixpoint update_at (path : list nat) (f : element -> element) (e : element) : element :=
  match path with
  | [] => f e
  | i :: path' => set_children (update_nth i (update_at path' f) (children e)) e
  end.

(** The namespace map handed to an XPath evaluation.  lxml refuses a map
    with an empty prefix or an empty URI (TypeError), and the evaluation
    fails on a prefix the map does not bind (XPathEvalError). *)
Definition resolve_prefix (namespaces : nsmap_t) (prefix : string) : outcome string :=
  if existsb (fun d => match fst d with
                       | None => true
                       | Some p => String.eqb p "" || String.eqb (snd d) ""
                       end) namespaces
  then Raise TypeError
  else match find (fun d => opt_eqb (fst d) (Some prefix)) namespaces with
       | Some d => Ret (snd d)
       | None => Raise XPathEvalError
       end.

(** [parent.remove(child)]: [child] must be a child of [parent]. *)
Definition remove (tree : element) (child : located) : outcome element :=
  match l_path child with
  | [i] => Ret (set_children (remove_nth i (children tree)) tree)
  | _ => Raise ValueError
  end.

(** What [etree.tostring(sub)] serialises for an element inside a tree:
    the element with the namespace declarations of its ancestors copied
    onto it, so that the fragment stands on its own. *)
Definition standalone (n : located) : element :=
  Element (tag (l_node n)) (ns_merge (nsmap (l_node n)) (l_scope n))
          (attrib (l_node n)) (text (l_node n)) (children (l_node n)).

End Lxml.
Export Lxml.

(* ================================================================= *)
(** ** The external libraries *)

(** Serialisation modes of [etree.tostring]: the default one, and
    [encoding="UTF-8"] with or without the XML declaration. *)
Inductive ser : Type :=
| Plain
| Utf8 (xml_declaration : bool).

(** The library functions the code calls.  Byte strings and text are both
    [string]; the [str(..., 'utf-8')] and [bytes(..., 'utf-8')] conversions
    of the source are the identity here. *)
Record Lib : Type := {
  (* lxml *)
  fromstring : string -> option element;        (* etree.fromstring, etree.parse; None: XMLSyntaxError *)
  tostring : ser -> element -> string;          (* etree.tostring *)
  write_c14n : bool -> bool -> element -> string;  (* tree.write_c14n(with_comments, exclusive) *)
  xpath_quoted : element -> string -> outcome (list located);
      (* [//*[@wsu:Id='key']] for a key that itself contains a quote: the
         expression the library parses is no longer the intended one *)
  (* hashlib, base64 *)
  sha1 : string -> string;
  b64encode : string -> string;
  b64decode : string -> option string;          (* None: binascii.Error *)
  (* PyCrypto *)
  pkey : Type;
  importKey : string -> option pkey;            (* RSA.importKey; None: ValueError *)
  pkcs1_sign : pkey -> string -> string;
      (* PKCS1_v1_5.new(key).sign(SHA.new(message)), for a key that holds
         its private half and is long enough for a SHA-1 digest *)
  (* pyOpenSSL *)
  x509 : Type;
  load_certificate : string -> option x509;     (* None: crypto.Error *)
  crypto_verify : x509 -> string -> string -> bool;
      (* crypto.verify(cert, signature, data, 'sha1'); false: crypto.Error *)
  crl : Type;
  revoked : Type;
  load_crl : string -> option crl;              (* None: crypto.Error *)
  get_revoked : crl -> option (list revoked);   (* None: Python's None *)
  get_serial : revoked -> string;               (* the serial in hexadecimal, as bytes *)
  get_serial_number : x509 -> Z;                (* the serial, an int *)
}.

(* ================================================================= *)
(** ** certificate.py *)

Module Certificate.

(** The result of [request.urlopen(url).read()]. *)
Inductive fetched : Type :=
| FetchOk (r : string)
| FetchURLError        (* urllib.error.URLError *)
| FetchOSError.        (* any other EnvironmentError *)

(** What [check_revocation_status] sees of the machine: the [resources]
    directory, the cached CRL file and its age, what the file system
    allows, and what the network returns. *)
Record crl_env : Type := {
  dir_exists : bool;          (* os.path.exists("resources") *)
  cache : option string;      (* the content of resources/OP-Pohjola-ws.crl, None when there is no such file *)
  cache_age_days : Z;         (* (datetime.today() - mtime).days *)
  can_write : bool;           (* the directory accepts open(..., 'wb') *)
  can_mkdir : bool;           (* os.mkdir("resources") succeeds *)
  fetch : fetched;
}.

Definition with_cache (c : option string) (env : crl_env) : crl_env :=
  {| dir_exists := dir_exists env; cache := c; cache_age_days := 0;
     can_write := can_write env; can_mkdir := can_mkdir env; fetch := fetch env |}.

Definition with_dir (env : crl_env) : crl_env :=
  {| dir_exists := true; cache := cache env; cache_age_days := cache_age_days env;
     can_write := can_write env; can_mkdir := can_mkdir env; fetch := fetch env |}.

(** [os.path.isfile] and [os.path.exists] of the cache file. *)
Definition file_exists (env : crl_env) : bool :=
  match cache env with Some _ => true | None => false end.

(** [open('resources/OP-Pohjola-ws.crl', 'wb')] succeeds when the directory
    is there and writable; it creates the file, or empties the one that is
    there, before anything is written. *)
Definition open_wb (env : crl_env) : option crl_env :=
  if dir_exists env && can_write env then Some (with_cache (Some "") env) else None.

(** Lines 58-79: the handler of [EnvironmentError].  [Some b] is an early
    [return b]; [None] falls through to the lookup. *)
Definition on_environment_error (env : crl_env) : option bool * crl_env :=
  if negb (dir_exists env) then
    if can_mkdir env then
      let env1 := with_dir env in
      match open_wb env1 with
      | Some env2 =>
          match fetch env2 with
          | FetchOk r => (None, with_cache (Some r) env2)
          | FetchURLError | FetchOSError => (Some false, env2)
          end
      | None => (Some false, env1)
      end
    else (Some false, env)
  else (None, env).

(** Lines 45-79: the refresh. *)
Definition refresh (env : crl_env) : option bool * crl_env :=
  match open_wb env with
  | Some env1 =>
      match fetch env1 with
      | FetchOk r => (None, with_cache (Some r) env1)
      | FetchURLError =>
          if negb (file_exists env1) then (Some false, env1) else (None, env1)
      | FetchOSError => on_environment_error env1
      end
  | None => on_environment_error env
  end.

Section WithLib.
Context (L : Lib).

(** Lines 81-95: the lookup in the CRL file as it now is. *)
Definition lookup (env : crl_env) (certificate : string) : outcome bool :=
  match cache env with
  | None => Raise IOError
  | Some crl_bytes =>
      match load_crl L crl_bytes with
      | None => Raise CryptoError
      | Some op_crl =>
          let revoked_ := get_revoked L op_crl in
          match load_certificate L certificate with
          | None => Raise ValueError
          | Some cert =>
              let sn := get_serial_number L cert in
              match revoked_ with
              | None => Raise TypeError
              | Some l => Ret (existsb (fun c => bytes_eq_int (get_serial L c) sn) l)
              end
          end
      end
  end.

Definition check_revocation_status (env : crl_env) (certificate : string)
  : outcome bool * crl_env :=
  let renew :=
    if file_exists env then (0 <? cache_age_days env)%Z else true in
  if renew then
    match refresh env with
    | (Some b, env') => (Ret b, env')
    | (None, env') => (lookup env' certificate, env')
    end
  else (lookup env certificate, env).

End WithLib.

(** The bytes that line 81 reads: the cache file as the refresh leaves it,
    [None] when the call returns before it gets there or there is no
    file to read. *)
Definition loaded_crl (env : crl_env) : option string :=
  let renew :=
    if file_exists env then (0 <? cache_age_days env)%Z else true in
  if renew then
    match refresh env with
    | (Some _, _) => None
    | (None, env') => cache env'
    end
  else cache env.

End Certificate.

(* ================================================================= *)
(** ** signature.py *)

Module Signature.

Definition DSIG : string := "http://www.w3.org/2000/09/xmldsig#".
Definition WSSE : string :=
  "http://docs.oasis-open.org/wss/2004/01/oasis-200401-wss-wssecurity-secext-1.0.xsd".

(** Clark notation of a qualified name. *)
Definition clark (uri local : string) : string := ("{" ++ uri ++ "}" ++ local)%string.

Definition DS_Signature : string := clark DSIG "Signature".
Definition DS_SignedInfo : string := clark DSIG "SignedInfo".
Definition DS_SignatureValue : string := clark DSIG "SignatureValue".
Definition DS_DigestValue : string := clark DSIG "DigestValue".
Definition DS_Reference : string := clark DSIG "Reference".
Definition DS_CanonicalizationMethod : string := clark DSIG "CanonicalizationMethod".
Definition DS_KeyInfo : string := clark DSIG "KeyInfo".
Definition DS_X509Certificate : string := clark DSIG "X509Certificate".
Definition WSSE_Reference : string := clark WSSE "Reference".

(** [E = ElementMaker(namespace=DSIG, nsmap={None: DSIG})] *)
Definition E (local : string) (attrs : list (string * string)) (txt : option string)
  (kids : list element) : element :=
  Element (clark DSIG local) [(None, DSIG)] attrs txt kids.

(** What the first loop of [validate] collects. *)
Record scanned : Type := {
  digestvalues : list (option string * option string);  (* URI -> DigestValue text *)
  signed_info : option located;
  signaturevalue : option string;
}.

(** One iteration of [for element in signature.iter()]. *)
Definition scan_step (st : scanned) (n : located) : outcome scanned :=
  st1 <- (if has_tag DS_DigestValue (l_node n) then
            match l_parent n with
            | None => Raise AttributeError
            | Some p =>
                Ret {| digestvalues := dict_set (digestvalues st) (get "URI" (attrib p))
                                                (text (l_node n));
                       signed_info := signed_info st;
                       signaturevalue := signaturevalue st |}
            end
          else Ret st) ;;
  let st2 := if has_tag DS_SignedInfo (l_node n)
             then {| digestvalues := digestvalues st1; signed_info := Some n;
                     signaturevalue := signaturevalue st1 |}
             else st1 in
  Ret (if has_tag DS_SignatureValue (l_node n)
       then {| digestvalues := digestvalues st2; signed_info := signed_info st2;
               signaturevalue := text (l_node n) |}
       else st2).

Fixpoint scan (st : scanned) (l : list located) : outcome scanned :=
  match l with
  | [] => Ret st
  | n :: l' => st' <- scan_step st n ;; scan st' l'
  end.

Definition scan0 : scanned :=
  {| digestvalues := []; signed_info := None; signaturevalue := None |}.

Section WithLib.
Context (L : Lib).

Definition canonicalizate_message (xml_string : string) (exclusive_ comments_ : bool)
  : outcome string :=
  match fromstring L xml_string with
  | None => Raise XMLSyntaxError
  | Some tree => Ret (write_c14n L comments_ exclusive_ tree)
  end.

(** The SHA-1 digest ([digest.digest()]) of the canonicalised message. *)
Definition calculate_digest (xml_string : string) (exclusive_ comments_ : bool)
  : outcome string :=
  message <- canonicalizate_message xml_string exclusive_ comments_ ;;
  Ret (sha1 L message).

Definition get_certificate (xml_string : string) : outcome (option string) :=
  match fromstring L xml_string with
  | None => Raise XMLSyntaxError
  | Some tree =>
      match xpath_all tree DS_KeyInfo with
      | _ :: _ =>
          match xpath_all tree WSSE_Reference with
          | _ :: _ =>
              (* tree.xpath("//wsse:BinarySecurityToken", namespaces=tree.nsmap) *)
              uri <- resolve_prefix (nsmap tree) "wsse" ;;
              match xpath_all tree (clark uri "BinarySecurityToken") with
              | bst :: _ => Ret (text (l_node bst))
              | [] => Ret None
              end
          | [] =>
              match xpath_all tree DS_X509Certificate with
              | certificate :: _ => Ret (text (l_node certificate))
              | [] => Ret None
              end
          end
      | [] => Ret None
      end
  end.

(** [tree.xpath("//*[@wsu:Id='" + key + "']", namespaces=tree.nsmap)] *)
Definition xpath_id (tree : element) (key : string) : outcome (list located) :=
  uri <- resolve_prefix (nsmap tree) "wsu" ;;
  if contains "'" key then xpath_quoted L tree key
  else Ret (filter (fun n => opt_eqb (get (clark uri "Id") (attrib (l_node n))) (Some key))
                   (walk_root tree)).

(** Lines 127-144: [Ret true] when the loop runs to its end, [Ret false]
    at the first [return False]. *)
Fixpoint digest_loop (tree : element) (signature : located)
  (items : list (option string * option string)) (exclusive comments : bool)
  : outcome bool :=
  match items with
  | [] => Ret true
  | (key, value) :: rest =>
      r <- match key with
           | None => Raise TypeError        (* key[1:] on None *)
           | Some k =>
               if String.eqb k "" then
                 tree' <- remove tree signature ;;
                 digest <- calculate_digest (tostring L Plain tree') exclusive comments ;;
                 Ret (tree', b64encode L digest)
               else
                 result <- xpath_id tree (drop1 k) ;;
                 match result with
                 | [n] =>
                     digest <- calculate_digest (tostring L Plain (standalone n))
                                                exclusive comments ;;
                     Ret (tree, b64encode L digest)
                 | _ => Ret (tree, "")
                 end
           end ;;
      if opt_eqb (Some (snd r)) value
      then digest_loop (fst r) signature rest exclusive comments
      else Ret false
  end.

Definition b64decode_ (s : string) : outcome string :=
  match b64decode L s with
  | Some b => Ret b
  | None => Raise BinasciiError
  end.

(** The canonicalisation flags read from the first
    [ds:CanonicalizationMethod] that has an [Algorithm] attribute
    (lines 113-118); [None] when there is none, and then neither local
    variable is ever assigned. *)
Definition read_flags (tree : element) : option (bool * bool) :=
  match filter (fun n => match get "Algorithm" (attrib (l_node n)) with
                         | Some _ => true | None => false end)
               (xpath_all tree DS_CanonicalizationMethod) with
  | a :: _ =>
      match get "Algorithm" (attrib (l_node a)) with
      | Some alg => Some (contains "#WithComments" alg, contains "xml-exc-c14n#" alg)
      | None => None
      end
  | [] => None
  end.

Definition validate (env : Certificate.crl_env) (xml_string : string) : outcome bool :=
  match fromstring L xml_string with
  | None => Ret false
  | Some tree =>
      match xpath_all tree DS_Signature with
      | [] => Ret false
      | signature :: _ =>
          st <- scan scan0 (walk_from signature) ;;
          certificate <- get_certificate xml_string ;;
          match certificate with
          | None => Ret false
          | Some certificate =>
          match signaturevalue st with
          | None => Ret false
          | Some signaturevalue_ =>
          match signed_info st with
          | None => Ret false
          | Some signed_info_ =>
              certificate_data <- b64decode_ certificate ;;
              signaturevalue_ <- b64decode_ signaturevalue_ ;;
              let message := tostring L Plain (standalone signed_info_) in
              match read_flags tree with
              | None => Raise UnboundLocalError
              | Some (comments, exclusive) =>
                  canonicalizated_info <-
                    canonicalizate_message message exclusive comments ;;
                  ok <- digest_loop tree signature (digestvalues st) exclusive comments ;;
                  if negb ok then Ret false else
                  match fst (Certificate.check_revocation_status L env certificate_data) with
                  | Ret true => Ret false
                  | Ret false =>
                      match load_certificate L certificate_data with
                      | None => Ret false
                      | Some cert =>
                          if crypto_verify L cert signaturevalue_ canonicalizated_info
                          then Ret true else Ret false
                      end
                  | Raise ValueError => Ret false
                  | Raise e => Raise e
                  end
              end
          end end end
      end
  end.

(** The files the signer reads: [open(name, 'rb').read()], [None] when
    the file cannot be opened. *)
Definition files := string -> option string.

Definition calculate_signature_value (fs : files) (xml_string private_key : string)
  (exclusive_ comments_ : bool) : outcome string :=
  canonicalizated_info <- canonicalizate_message xml_string exclusive_ comments_ ;;
  match fs private_key with
  | None => Raise IOError
  | Some content =>
      match importKey L content with
      | None => Raise ValueError
      | Some pkey_ => Ret (pkcs1_sign L pkey_ canonicalizated_info)
      end
  end.

Definition C14NWITHCOMMENTS : string :=
  "http://www.w3.org/TR/2001/REC-xml-c14n-20010315#WithComments".
Definition RSASHA1 : string := "http://www.w3.org/2000/09/xmldsig#rsa-sha1".
Definition ENVELOPED : string := "http://www.w3.org/2000/09/xmldsig#enveloped-signature".
Definition SHA1 : string := "http://www.w3.org/2000/09/xmldsig#sha1".

(** The [SignedInfo] of lines 342-354 around a digest value. *)
Definition signed_info_of (digest_b64 : string) : element :=
  E "SignedInfo" [] None
    [ E "CanonicalizationMethod" [("Algorithm", C14NWITHCOMMENTS)] None [];
      E "SignatureMethod" [("Algorithm", RSASHA1)] None [];
      E "Reference" [("URI", "")] None
        [ E "Transforms" [] None [ E "Transform" [("Algorithm", ENVELOPED)] None [] ];
          E "DigestMethod" [("Algorithm", SHA1)] None [];
          E "DigestValue" [] (Some digest_b64) [] ] ].

Definition generate_xml_signature (fs : files) (xml_string private_key X509certificate : string)
  : outcome element :=
  digest <- calculate_digest xml_string false true ;;
  let info := signed_info_of (b64encode L digest) in
  match fromstring L xml_string with
  | None => Raise XMLSyntaxError
  | Some tree =>
      (* tree.append(info): info is serialised as a child of the root *)
      let info_message :=
        tostring L Plain (standalone (Loc [length (children tree)] (nsmap tree) (Some tree) info)) in
      signaturevalue <- calculate_signature_value fs info_message private_key false true ;;
      match fs X509certificate with
      | None => Raise IOError
      | Some content =>
          Ret (E "Signature" [] None
                 [ info;
                   E "SignatureValue" [] (Some (b64encode L signaturevalue)) [];
                   E "KeyInfo" [] None
                     [ E "X509Data" [] None
                         [ E "X509Certificate" [] (Some (b64encode L content)) [] ] ] ])
      end
  end.

Definition sign (fs : files) (xml_string private_key certificate : string)
  (xml_declaration_ : bool) : outcome string :=
  match fromstring L xml_string with
  | None => Raise RuntimeError
  | Some e =>
      let xml_string := tostring L Plain e in
      signature <- generate_xml_signature fs xml_string private_key certificate ;;
      Ret (tostring L (Utf8 xml_declaration_) (append e signature))
  end.

End WithLib.

End Signature.

(* ================================================================= *)
(** ** plugin.py *)

Module Plugin.

Import Signature.

(** The namespaces [plugin.py] imports from suds ([suds.bindings.binding]
    and [suds.wsse]), each a (prefix, URI) pair. *)
Definition envns : string * string :=
  ("SOAP-ENV", "http://schemas.xmlsoap.org/soap/envelope/").
Definition wsuns : string * string :=
  ("wsu", "http://docs.oasis-open.org/wss/2004/01/oasis-200401-wss-wssecurity-utility-1.0.xsd").
Definition dsns : string * string :=
  ("ds", "http://www.w3.org/2000/09/xmldsig#").
Definition wssens : string * string :=
  ("wsse", "http://docs.oasis-open.org/wss/2004/01/oasis-200401-wss-wssecurity-secext-1.0.xsd").

Definition ns_id (tagname : string) (suds_ns : string * string) : string :=
  clark (snd suds_ns) tagname.

Definition NSMAP : nsmap_t :=
  [ (Some (fst dsns), snd dsns); (Some (fst wssens), snd wssens); (Some (fst wsuns), snd wsuns) ].

Definition C14N : string := "http://www.w3.org/2001/10/xml-exc-c14n#".
Definition XMLDSIG_SHA1 : string := "http://www.w3.org/2000/09/xmldsig#sha1".
Definition RSA : string := "http://www.w3.org/2000/09/xmldsig#rsa-sha1".
Definition X509 : string :=
  "http://docs.oasis-open.org/wss/2004/01/oasis-200401-wss-x509-token-profile-1.0#X509v3".
Definition X509BASE64 : string :=
  "http://docs.oasis-open.org/wss/2004/01/oasis-200401-wss-soap-message-security-1.0#Base64Binary".

Definition WSU_ID : string := ns_id "Id" wsuns.
Definition DS_DIGEST_VALUE : string := ns_id "DigestValue" dsns.
Definition DS_REFERENCE : string := ns_id "Reference" dsns.
Definition DS_TRANSFORMS : string := ns_id "Transforms" dsns.

(** [BODY_XPATH] and [HEADER_XPATH]: absolute two-step paths. *)
Definition BODY_XPATH (env : element) : list located :=
  if has_tag (ns_id "Envelope" envns) env
  then children_with (ns_id "Body" envns) (root_loc env) else [].
Definition HEADER_XPATH (env : element) : list located :=
  if has_tag (ns_id "Envelope" envns) env
  then children_with (ns_id "Header" envns) (root_loc env) else [].
Definition SECURITY_XPATH : located -> list located := children_with (ns_id "Security" wssens).
Definition TIMESTAMP_XPATH : located -> list located := children_with (ns_id "Timestamp" wsuns).
Definition CREATED_XPATH : located -> list located := children_with (ns_id "Created" wsuns).
Definition EXPIRED_XPATH : located -> list located := children_with (ns_id "Expires" wsuns).
Definition SIGNATURE_XPATH : located -> list located := children_with (ns_id "Signature" dsns).
Definition SIGNEDINFO_XPATH : located -> list located := children_with (ns_id "SignedInfo" dsns).

(** [l[0]] *)
Definition first {A : Type} (l : list A) : outcome A :=
  match l with
  | a :: _ => Ret a
  | [] => Raise IndexError
  end.

(** [(x,) = l] *)
Definition only {A : Type} (l : list A) : outcome A :=
  match l with
  | [a] => Ret a
  | _ => Raise ValueError
  end.

(** [element.attrib[name]] *)
Definition attrib_item (name : string) (e : element) : outcome string :=
  match get name (attrib e) with
  | Some v => Ret v
  | None => Raise KeyError
  end.

(** [get_unique_id]: ['id-{0}'.format(uuid4())], the UUID drawn being a
    parameter. *)
Definition get_unique_id (uuid : string) : string := ("id-" ++ uuid)%string.

(** [set_algorithm(parent, name, value)] returns the child it adds. *)
Definition algorithm_element (name value : string) : element :=
  Element (ns_id name dsns) [] [("Algorithm", value)] None [].

(** The [Reference] that one turn of the loop of [insert_references] adds. *)
Definition reference_for (element_id : string) : element :=
  Element DS_REFERENCE [] [("URI", ("#" ++ element_id)%string)] None
    [ Element DS_TRANSFORMS [] [] None [ algorithm_element "Transform" C14N ];
      algorithm_element "DigestMethod" XMLDSIG_SHA1;
      Element DS_DIGEST_VALUE [] [] None [] ].

(** [SignQueue.insert_references]: one [Reference] per queued id. *)
Definition insert_references (queue : list string) (signed_info : element) : element :=
  fold_left (fun si element_id => append si (reference_for element_id)) queue signed_info.

(** [append_signed_info] *)
Definition signed_info_template (keytype : string) (queue : list string) : element :=
  insert_references queue
    (Element (ns_id "SignedInfo" dsns) [] [] None
       [ algorithm_element "CanonicalizationMethod" C14N;
         algorithm_element "SignatureMethod" keytype ]).

(** [append_key_info] *)
Definition key_info (security_id : string) : element :=
  Element (ns_id "KeyInfo" dsns) [] [] None
    [ Element (ns_id "SecurityTokenReference" wssens) [] [] None
        [ Element (ns_id "Reference" wssens) []
            [("URI", ("#" ++ security_id)%string); ("ValueType", X509)] None [] ] ].

(** [insert_signature_template]: the [Signature] appended to the header. *)
Definition signature_template (keytype security_id : string) (queue : list string) : element :=
  Element (ns_id "Signature" dsns) [] [] None
    [ signed_info_template keytype queue;
      Element (ns_id "SignatureValue" dsns) [] [] None [];
      key_info security_id ].

(** The loop of [ensure_security_header]: every [Timestamp] child of the
    header is marked with a fresh id, which is queued.  [n] counts the
    UUIDs drawn so far. *)
Fixpoint mark_timestamps (uuid : nat -> string) (n : nat) (kids : list element)
  (queue : list string) : list element * list string * nat :=
  match kids with
  | [] => ([], queue, n)
  | k :: kids' =>
      if has_tag (ns_id "Timestamp" wsuns) k then
        let unique_id := get_unique_id (uuid n) in
        let '(kids'', queue', n') :=
          mark_timestamps uuid (S n) kids' (queue ++ [unique_id]) in
        (set_attr WSU_ID unique_id k :: kids'', queue', n')
      else
        let '(kids'', queue', n') := mark_timestamps uuid n kids' queue in
        (k :: kids'', queue', n')
  end.

(** A [SignerPlugin] after [__init__]. *)
Record SignerPlugin : Type := {
  keyfile : string;
  certificate : string;
  keytype : string;
}.

Section WithLib.
Context (L : Lib).

(** [SignerPlugin.__init__] *)
Definition init (fs : files) (exists_ : string -> bool) (private_key certificate_ : string)
  : outcome SignerPlugin :=
  if exists_ private_key then
    match fs private_key with
    | None => Raise IOError
    | Some content =>
        match importKey L content with
        | None => Raise ValueError
        | Some _ =>
            if exists_ certificate_
            then Ret {| keyfile := private_key; certificate := certificate_; keytype := RSA |}
            else Raise IOError
        end
    end
  else Raise IOError.

(** The text [created.text.split(".")[0] + 'Z']. *)
Definition whole_seconds (e : element) : outcome element :=
  match text e with
  | None => Raise AttributeError
  | Some t => Ret (set_text (Some (before_dot t ++ "Z")%string) e)
  end.

(** The loop of lines 245-255 on one [Reference]. *)
Definition fill_digest (body_id body_digest timestamp_id timestamp_digest : string)
  (reference : element) : outcome element :=
  uri <- attrib_item "URI" reference ;;
  let fill (v : string) : outcome element :=
    match find_index (has_tag DS_DigestValue) (children reference) with
    | None => Raise AttributeError          (* dv is None *)
    | Some i => Ret (update_at [i] (set_text (Some v)) reference)
    end in
  if String.eqb (drop1 uri) body_id then fill body_digest
  else if String.eqb (drop1 uri) timestamp_id then fill timestamp_digest
  else Ret reference.

Fixpoint fill_digests (body_id body_digest timestamp_id timestamp_digest : string)
  (kids : list element) : outcome (list element) :=
  match kids with
  | [] => Ret []
  | k :: kids' =>
      k' <- (if has_tag DS_Reference k
             then fill_digest body_id body_digest timestamp_id timestamp_digest k
             else Ret k) ;;
      kids'' <- fill_digests body_id body_digest timestamp_id timestamp_digest kids' ;;
      Ret (k' :: kids'')
  end.

Definition get_signature (P : SignerPlugin) (fs : files) (envelope : string)
  : outcome string :=
  match fromstring L envelope with
  | None => Raise XMLSyntaxError
  | Some doc =>
      body <- first (BODY_XPATH doc) ;;
      body_id <- attrib_item WSU_ID (l_node body) ;;
      digest <- calculate_digest L (tostring L Plain (standalone body)) true false ;;
      let body_digest := b64encode L digest in
      header <- first (HEADER_XPATH doc) ;;
      security <- first (SECURITY_XPATH header) ;;
      timestamp <- first (TIMESTAMP_XPATH security) ;;
      timestamp_id <- attrib_item WSU_ID (l_node timestamp) ;;
      created <- first (CREATED_XPATH timestamp) ;;
      expired <- first (EXPIRED_XPATH timestamp) ;;
      created' <- whole_seconds (l_node created) ;;
      let doc := update_at (l_path created) (fun _ => created') doc in
      expired' <- whole_seconds (l_node expired) ;;
      let doc := update_at (l_path expired) (fun _ => expired') doc in
      (* the same elements, read again after the two assignments *)
      header <- first (HEADER_XPATH doc) ;;
      security <- first (SECURITY_XPATH header) ;;
      timestamp <- first (TIMESTAMP_XPATH security) ;;
      digest <- calculate_digest L (tostring L Plain (standalone timestamp)) true false ;;
      let timestamp_digest := b64encode L digest in
      signature_ <- first (SIGNATURE_XPATH security) ;;
      signed_info <- first (SIGNEDINFO_XPATH signature_) ;;
      kids <- fill_digests body_id body_digest timestamp_id timestamp_digest
                           (children (l_node signed_info)) ;;
      let doc := update_at (l_path signed_info) (set_children kids) doc in
      let signed_info := Loc (l_path signed_info) (l_scope signed_info)
                             (l_parent signed_info)
                             (set_children kids (l_node signed_info)) in
      let infomessage := tostring L Plain (standalone signed_info) in
      signaturevalue <- calculate_signature_value L fs infomessage (keyfile P) true false ;;
      let value := b64encode L signaturevalue in
      match find_index (has_tag DS_SignatureValue) (children (l_node signature_)) with
      | None => Raise AttributeError
      | Some i =>
          let doc := update_at (l_path signature_ ++ [i]) (set_text (Some value)) doc in
          Ret (tostring L Plain doc)
      end
  end.

(** [ensure_security_header]: the envelope after the call, the path of
    the security header in it, the queue and the number of UUIDs drawn. *)
Definition ensure_security_header (uuid : nat -> string) (n : nat) (env : element)
  (queue : list string) : outcome (element * list nat * list string * nat) :=
  header <- only (HEADER_XPATH env) ;;
  match SECURITY_XPATH header with
  | security :: _ =>
      let '(kids, queue', n') :=
        mark_timestamps uuid n (children (l_node security)) queue in
      Ret (update_at (l_path security) (set_children kids) env, l_path security, queue', n')
  | [] =>
      let security :=
        Element (ns_id "Security" wssens) NSMAP
                [(ns_id "mustUnderstand" envns, "1")] None [] in
      Ret (update_at (l_path header) (fun h => append h security) env,
           l_path header ++ [length (children (l_node header))], queue, n)
  end.

(** [insert_binary_security_token]: the token appended to the header,
    and its id. *)
Definition binary_security_token (P : SignerPlugin) (fs : files) (unique_id : string)
  : outcome element :=
  match fs (certificate P) with
  | None => Raise IOError
  | Some content =>
      Ret (Element (ns_id "BinarySecurityToken" wssens) []
             (set WSU_ID unique_id [("ValueType", X509); ("EncodingType", X509BASE64)])
             (Some (b64encode L content)) [])
  end.

Definition sending (P : SignerPlugin) (uuid : nat -> string) (fs : files)
  (envelope : string) : outcome string :=
  match fromstring L envelope with
  | None => Raise XMLSyntaxError
  | Some env =>
      body <- only (BODY_XPATH env) ;;
      (* queue.push_and_mark(body) *)
      let body_id := get_unique_id (uuid 0) in
      let env := update_at (l_path body) (set_attr WSU_ID body_id) env in
      r <- ensure_security_header uuid 1 env [body_id] ;;
      let '(env, security, queue, n) := r in
      let security_id := get_unique_id (uuid n) in
      binsec <- binary_security_token P fs security_id ;;
      let env := update_at security (fun s => append s binsec) env in
      let env := update_at security
                   (fun s => append s (signature_template (keytype P) security_id queue))
                   env in
      get_signature P fs (tostring L Plain env)
  end.

(** [SignerPlugin.received] (lines 100-106): the reply is parsed,
    serialised again and validated; [None] is returned when it is valid. *)
Definition received (env : Certificate.crl_env) (reply : string) : outcome unit :=
  match fromstring L reply with
  | None => Raise XMLSyntaxError
  | Some e =>
      valid <- validate L env (tostring L Plain e) ;;
      if valid then Ret tt else Raise RuntimeError
  end.

End WithLib.

End Plugin.

(* ================================================================= *)
(** ** A reference instance of the libraries

    A small executable [Lib]: documents are written in a length-prefixed
    notation that a parser reads back, the canonical form is that notation
    behind the two flags, the digest and base64 are the identity, and a
    signature names the key that made it.  The laws the theorems assume
    are proved of it below, and the concrete runs are evaluated on it. *)

Module Ref.

Definition chars := list ascii.

Definition enc_nat (n : nat) : chars := repeat "1"%char n ++ ["0"%char].

Fixpoint dec_nat (l : chars) : option (nat * chars) :=
  match l with
  | "0"%char :: l' => Some (O, l')
  | "1"%char :: l' =>
      match dec_nat l' with
      | Some (n, r) => Some (S n, r)
      | None => None
      end
  | _ => None
  end.

Definition enc_str (s : string) : chars :=
  enc_nat (String.length s) ++ list_ascii_of_string s.

Definition dec_str (l : chars) : option (string * chars) :=
  match dec_nat l with
  | Some (n, r) =>
      if Nat.leb n (List.length r)
      then Some (string_of_list_ascii (firstn n r), skipn n r) else None
  | None => None
  end.

Definition enc_opt (o : option string) : chars :=
  match o with
  | None => ["N"%char]
  | Some s => "S"%char :: enc_str s
  end.

Definition dec_opt (l : chars) : option (option string * chars) :=
  match l with
  | "N"%char :: r => Some (None, r)
  | "S"%char :: r =>
      match dec_str r with
      | Some (s, r') => Some (Some s, r')
      | None => None
      end
  | _ => None
  end.

Section Lists.
Context {A : Type} (enc : A -> chars) (dec : chars -> option (A * chars)).

Definition enc_list (l : list A) : chars := enc_nat (length l) ++ flat_map enc l.

Fixpoint dec_items (n : nat) (l : chars) : option (list A * chars) :=
  match n with
  | O => Some ([], l)
  | S n' =>
      match dec l with
      | Some (a, r) =>
          match dec_items n' r with
          | Some (items, r') => Some (a :: items, r')
          | None => None
          end
      | None => None
      end
  end.

Definition dec_list (l : chars) : option (list A * chars) :=
  match dec_nat l with
  | Some (n, r) => dec_items n r
  | None => None
  end.
End Lists.

Definition enc_decl (d : option string * string) : chars := enc_opt (fst d) ++ enc_str (snd d).
Definition dec_decl (l : chars) : option ((option string * string) * chars) :=
  match dec_opt l with
  | Some (p, r) =>
      match dec_str r with
      | Some (u, r') => Some ((p, u), r')
      | None => None
      end
  | None => None
  end.

Definition enc_attr (a : string * string) : chars := enc_str (fst a) ++ enc_str (snd a).
Definition dec_attr (l : chars) : option ((string * string) * chars) :=
  match dec_str l with
  | Some (n, r) =>
      match dec_str r with
      | Some (v, r') => Some ((n, v), r')
      | None => None
      end
  | None => None
  end.

Fixpoint enc_element (e : element) : chars :=
  enc_str (tag e) ++ enc_list enc_decl (nsmap e) ++ enc_list enc_attr (attrib e)
  ++ enc_opt (text e) ++ enc_list enc_element (children e).

Fixpoint dec_element (fuel : nat) (l : chars) : option (element * chars) :=
  match fuel with
  | O => None
  | S fuel' =>
      match dec_str l with
      | Some (t, r1) =>
      match dec_list dec_decl r1 with
      | Some (ns, r2) =>
      match dec_list dec_attr r2 with
      | Some (at_, r3) =>
      match dec_opt r3 with
      | Some (tx, r4) =>
      match dec_list (dec_element fuel') r4 with
      | Some (kids, r5) => Some (Element t ns at_ tx kids, r5)
      | None => None
      end
      | None => None
      end
      | None => None
      end
      | None => None
      end
      | None => None
      end
  end.

Definition mode_char (m : ser) : ascii :=
  match m with
  | Plain => "p"%char
  | Utf8 false => "u"%char
  | Utf8 true => "d"%char
  end.

Definition ref_tostring (m : ser) (e : element) : string :=
  string_of_list_ascii (mode_char m :: enc_element e).

Definition ref_fromstring (s : string) : option element :=
  match list_ascii_of_string s with
  | _ :: l =>
      match dec_element (length l) l with
      | Some (e, []) => Some e
      | _ => None
      end
  | [] => None
  end.

Definition flag_char (b : bool) : ascii := if b then "1"%char else "0"%char.

Definition ref_write_c14n (with_comments exclusive : bool) (e : element) : string :=
  string_of_list_ascii (flag_char with_comments :: flag_char exclusive :: enc_element e).

(** [s] without the prefix [p], when it starts with it. *)
Fixpoint strip (p s : string) : option string :=
  match p with
  | EmptyString => Some s
  | String c p' =>
      match s with
      | String d s' => if Ascii.eqb c d then strip p' s' else None
      | EmptyString => None
      end
  end.

(** Key files read [KEY:name], certificates [CERT:name], and the CRL file
    [CRL:] followed by at most one revoked name. *)
Definition ref_sign (k message : string) : string := ("sig(" ++ k ++ ")" ++ message)%string.

(** The serial number of the certificate of [name], and the two
    hexadecimal digits by which a CRL entry gives it. *)
Definition ref_serial (name : string) : Z :=
  match name with
  | EmptyString => 0%Z
  | String c _ => Z.of_nat (nat_of_ascii c)
  end.

Definition hex_char (d : Z) : ascii :=
  ascii_of_nat (Z.to_nat (if (d <? 10)%Z then d + 48 else d + 55)%Z).

Definition ref_hex (n : Z) : string :=
  String (hex_char (n / 16)) (String (hex_char (n mod 16)) EmptyString).

Definition lib : Lib := {|
  fromstring := ref_fromstring;
  tostring := ref_tostring;
  write_c14n := ref_write_c14n;
  xpath_quoted := fun _ _ => Raise XPathEvalError;
  sha1 := fun s => s;
  b64encode := fun s => s;
  b64decode := fun s => Some s;
  pkey := string;
  importKey := strip "KEY:";
  pkcs1_sign := ref_sign;
  x509 := string;
  load_certificate := strip "CERT:";
  crypto_verify := fun cert signature data => String.eqb signature (ref_sign cert data);
  crl := list string;
  revoked := string;
  load_crl := fun s => match strip "CRL:" s with
                       | Some EmptyString => Some []
                       | Some name => Some [name]
                       | None => None
                       end;
  get_revoked := fun l => match l with [] => None | _ => Some l end;
  get_serial := fun r => ref_hex (ref_serial r);
  get_serial_number := ref_serial;
|}.

(** The files of the reference runs: a key, its certificate, and a file
    that is not a key. *)
Definition fs : Signature.files :=
  fun name =>
    if String.eqb name "key.pem" then Some "KEY:alice"
    else if String.eqb name "cert.der" then Some "CERT:alice"
    else if String.eqb name "notes.txt" then Some "hello"
    else None.

(** The signer plugin of the reference runs, and the UUIDs it draws. *)
Definition plugin : Plugin.SignerPlugin :=
  {| Plugin.keyfile := "key.pem"; Plugin.certificate := "cert.der";
     Plugin.keytype := Plugin.RSA |}.

Definition uuid (n : nat) : string :=
  match n with
  | 0 => "1f0e"
  | 1 => "2a9c"
  | 2 => "3b7d"
  | _ => "4c61"
  end.

(** The same key with the certificate of somebody else. *)
Definition mismatched_fs : Signature.files :=
  fun name =>
    if String.eqb name "key.pem" then Some "KEY:alice"
    else if String.eqb name "cert.der" then Some "CERT:bob"
    else None.

(** A machine whose cache is two days old and whose network is down. *)
Definition stale_crl : Certificate.crl_env :=
  {| Certificate.dir_exists := true;
     Certificate.cache := Some "CRL:alice";
     Certificate.cache_age_days := 2;
     Certificate.can_write := true;
     Certificate.can_mkdir := true;
     Certificate.fetch := Certificate.FetchURLError |}.

(** A machine that never obtained a CRL and whose network is down. *)
Definition no_crl : Certificate.crl_env :=
  {| Certificate.dir_exists := true;
     Certificate.cache := None;
     Certificate.cache_age_days := 0;
     Certificate.can_write := true;
     Certificate.can_mkdir := true;
     Certificate.fetch := Certificate.FetchURLError |}.

(** A machine without the [resources] directory and without the right to
    create it. *)
Definition no_directory : Certificate.crl_env :=
  {| Certificate.dir_exists := false;
     Certificate.cache := None;
     Certificate.cache_age_days := 0;
     Certificate.can_write := false;
     Certificate.can_mkdir := false;
     Certificate.fetch := Certificate.FetchOk "CRL:alice" |}.

(** A machine whose CRL cache is fresh and lists the certificate of
    [name] as revoked ([""]: a list without entries). *)
Definition fresh_crl (name : string) : Certificate.crl_env :=
  {| Certificate.dir_exists := true;
     Certificate.cache := Some ("CRL:" ++ name)%string;
     Certificate.cache_age_days := 0;
     Certificate.can_write := true;
     Certificate.can_mkdir := true;
     Certificate.fetch := Certificate.FetchURLError |}.

End Ref.

(* ================================================================= *)
(** ** What the theorems assume of the libraries *)

Module Laws.
Section WithLib.
Context (L : Lib).

(** Parsing a serialised tree gives the tree back. *)
Definition parse_tostring : Prop :=
  forall m e, fromstring L (tostring L m e) = Some e.

(** Decoding undoes base64 encoding. *)
Definition b64_roundtrip : Prop :=
  forall s, b64decode L (b64encode L s) = Some s.

(** The key file and the certificate file hold a matching pair: both
    load, and the certificate verifies what the key signs. *)
Definition key_pair (key_bytes cert_bytes : string) : Prop :=
  exists k c,
    importKey L key_bytes = Some k /\
    load_certificate L cert_bytes = Some c /\
    forall message, crypto_verify L c (pkcs1_sign L k message) message = true.
End WithLib.
End Laws.

(** The elements of a tree, in document order. *)
Definition elements (e : element) : list element := map l_node (walk_root e).

(** No element of the tree has one of the given tags. *)
Definition free_of (tags : list string) (e : element) : bool :=
  forallb (fun k => negb (existsb (String.eqb (tag k)) tags)) (elements e).

(** The [Signature] element of the application profile around a digest
    value, a signature value and a certificate, each as base64 text
    (lines 342-354 and 374-384 of [signature.py]). *)
Definition signature_element (digest_b64 signaturevalue_b64 certificate_b64 : string)
  : element :=
  Signature.E "Signature" [] None
    [ Signature.signed_info_of digest_b64;
      Signature.E "SignatureValue" [] (Some signaturevalue_b64) [];
      Signature.E "KeyInfo" [] None
        [ Signature.E "X509Data" [] None
            [ Signature.E "X509Certificate" [] (Some certificate_b64) [] ] ] ].

(** The [SignedInfo] around [digest_b64] as it is serialised while it
    hangs below the root of [e], which is where [generate_xml_signature]
    appends it before it signs it. *)
Definition info_below (e : element) (digest_b64 : string) : element :=
  standalone (Loc [length (children e)] (nsmap e) (Some e)
                  (Signature.signed_info_of digest_b64)).

(** The [Signature] element that [generate_xml_signature] builds for the
    document [e], the loaded key [k] and the certificate bytes [content]. *)
Definition signature_for (L : Lib) (e : element) (k : pkey L) (content : string) : element :=
  let digest_b64 := b64encode L (sha1 L (write_c14n L true false e)) in
  signature_element digest_b64
    (b64encode L (pkcs1_sign L k (write_c14n L true false (info_below e digest_b64))))
    (b64encode L content).

(** The tags that the validator looks up in the whole document; a
    document to be signed with the application profile must not use them
    itself. *)
Definition reserved_tags : list string :=
  [ Signature.DS_Signature; Signature.WSSE_Reference; Signature.DS_X509Certificate;
    Signature.DS_CanonicalizationMethod ].

(* ================================================================= *)
(** ** The shape of an envelope signed with the WS-Security profile *)

Module Ws.
Import Signature Plugin.

(** Where the signer finds its elements in an envelope [w_env]: the
    [Body] at index [ib] and the [Header] at [ih] among the children of
    the [Envelope], the [Security] at [is_] in the header, the
    [Timestamp] at [it] in it, and in the timestamp the [Created] at [ic]
    with text [tc] and the [Expires] at [ie] with text [te]. *)
Record layout : Type := {
  w_env : element;
  w_header : element;
  w_security : element;
  w_timestamp : element;
  w_body : element;
  ib : nat;
  ih : nat;
  is_ : nat;
  it : nat;
  ic : nat;
  ie : nat;
  tc : string;
  te : string;
}.

(** The [Body] at [ib] is the only one and the [Header] at [ih] is the
    only one, the [Security] at [is_] is the first of the header, the
    [Timestamp] at [it] is its only one, and there is no [Signature] in
    it yet. *)
Record shape (w : layout) : Prop := {
  sh_envelope : has_tag (ns_id "Envelope" envns) (w_env w) = true;
  sh_body : nth_error (children (w_env w)) (ib w) = Some (w_body w);
  sh_body_tag : has_tag (ns_id "Body" envns) (w_body w) = true;
  sh_body_only : forall j k, nth_error (children (w_env w)) j = Some k ->
                             has_tag (ns_id "Body" envns) k = true -> j = ib w;
  sh_header : nth_error (children (w_env w)) (ih w) = Some (w_header w);
  sh_header_tag : has_tag (ns_id "Header" envns) (w_header w) = true;
  sh_header_only : forall j k, nth_error (children (w_env w)) j = Some k ->
                               has_tag (ns_id "Header" envns) k = true -> j = ih w;
  sh_security : nth_error (children (w_header w)) (is_ w) = Some (w_security w);
  sh_security_tag : has_tag (ns_id "Security" wssens) (w_security w) = true;
  sh_security_first : forall j k, j < is_ w -> nth_error (children (w_header w)) j = Some k ->
                                  has_tag (ns_id "Security" wssens) k = false;
  sh_timestamp : nth_error (children (w_security w)) (it w) = Some (w_timestamp w);
  sh_timestamp_tag : has_tag (ns_id "Timestamp" wsuns) (w_timestamp w) = true;
  sh_timestamp_only : forall j k, nth_error (children (w_security w)) j = Some k ->
                                  has_tag (ns_id "Timestamp" wsuns) k = true -> j = it w;
  sh_unsigned : forall k, In k (children (w_security w)) ->
                          has_tag (ns_id "Signature" dsns) k = false;
}.

(** The [Created] at [ic] and the [Expires] at [ie] are the first of the
    timestamp and have the texts [tc] and [te]. *)
Record stamped (w : layout) : Prop := {
  st_created : exists c, nth_error (children (w_timestamp w)) (ic w) = Some c /\
                         has_tag (ns_id "Created" wsuns) c = true /\ text c = Some (tc w);
  st_created_first : forall j k, j < ic w -> nth_error (children (w_timestamp w)) j = Some k ->
                                 has_tag (ns_id "Created" wsuns) k = false;
  st_expires : exists x, nth_error (children (w_timestamp w)) (ie w) = Some x /\
                         has_tag (ns_id "Expires" wsuns) x = true /\ text x = Some (te w);
  st_expires_first : forall j k, j < ie w -> nth_error (children (w_timestamp w)) j = Some k ->
                                 has_tag (ns_id "Expires" wsuns) k = false;
}.

(** The lookups of [sending] and [get_signature] on an envelope, with the
    conditions under which the signer goes through: one [Body], one
    [Header], a [Security] header, one [Timestamp] in it and no
    [Signature] yet, and a [Created] and an [Expires] with text.  [None]
    when the envelope is not of that shape. *)
Definition locate (env : element) : option layout :=
  if has_tag (ns_id "Envelope" envns) env then
    match find_indices (has_tag (ns_id "Body" envns)) 0 (children env),
          find_indices (has_tag (ns_id "Header" envns)) 0 (children env) with
    | [b], [h] =>
        match nth_error (children env) b, nth_error (children env) h with
        | Some body, Some header =>
            match find_index (has_tag (ns_id "Security" wssens)) (children header) with
            | Some s =>
                match nth_error (children header) s with
                | Some security =>
                    match find_indices (has_tag (ns_id "Timestamp" wsuns)) 0
                                       (children security) with
                    | [t] =>
                        match nth_error (children security) t with
                        | Some timestamp =>
                            if existsb (has_tag (ns_id "Signature" dsns)) (children security)
                            then None
                            else
                              match find_index (has_tag (ns_id "Created" wsuns))
                                               (children timestamp),
                                    find_index (has_tag (ns_id "Expires" wsuns))
                                               (children timestamp) with
                              | Some c, Some x =>
                                  match option_map text (nth_error (children timestamp) c),
                                        option_map text (nth_error (children timestamp) x) with
                                  | Some (Some created), Some (Some expires) =>
                                      Some {| w_env := env; w_header := header;
                                              w_security := security;
                                              w_timestamp := timestamp; w_body := body;
                                              ib := b; ih := h; is_ := s; it := t;
                                              ic := c; ie := x;
                                              tc := created; te := expires |}
                                  | _, _ => None
                                  end
                              | _, _ => None
                              end
                        | None => None
                        end
                    | _ => None
                    end
                | None => None
                end
            | None => None
            end
        | _, _ => None
        end
    | _, _ => None
    end
  else None.

(** The security header with its child at [it] replaced by [t] and
    [extra] appended; the header with its child at [is_] replaced; the
    envelope with its children at [ib] and [ih] replaced. *)
Definition sec_with (w : layout) (t : element) (extra : list element) : element :=
  set_children (update_nth (it w) (fun _ => t) (children (w_security w)) ++ extra)
               (w_security w).

Definition hdr_with (w : layout) (s : element) : element :=
  set_children (update_nth (is_ w) (fun _ => s) (children (w_header w))) (w_header w).

Definition env_with (w : layout) (b h : element) : element :=
  set_children
    (update_nth (ib w) (fun _ => b) (update_nth (ih w) (fun _ => h) (children (w_env w))))
    (w_env w).

(** The envelope with the body replaced by [b], the timestamp replaced by
    [t], and [extra] appended to the security header. *)
Definition document (w : layout) (b t : element) (extra : list element) : element :=
  env_with w b (hdr_with w (sec_with w t extra)).

(** The [BinarySecurityToken] that [insert_binary_security_token] adds. *)
Definition token (unique_id certificate_b64 : string) : element :=
  Element (ns_id "BinarySecurityToken" wssens) []
    (set WSU_ID unique_id [("ValueType", X509); ("EncodingType", X509BASE64)])
    (Some certificate_b64) [].

(** A [Reference] of [insert_references] with the text of its
    [DigestValue]. *)
Definition reference (element_id : string) (digest : option string) : element :=
  Element DS_REFERENCE [] [("URI", ("#" ++ element_id)%string)] None
    [ Element DS_TRANSFORMS [] [] None [ algorithm_element "Transform" C14N ];
      algorithm_element "DigestMethod" XMLDSIG_SHA1;
      Element DS_DIGEST_VALUE [] [] digest [] ].

(** The [SignedInfo] of the template over two queued ids. *)
Definition signed_info (keytype id0 id1 : string) (d0 d1 : option string) : element :=
  Element (ns_id "SignedInfo" dsns) [] [] None
    [ algorithm_element "CanonicalizationMethod" C14N;
      algorithm_element "SignatureMethod" keytype;
      reference id0 d0;
      reference id1 d1 ].

(** The [Signature] of [insert_signature_template] over two queued ids,
    with the texts that [get_signature] fills in. *)
Definition signature (keytype id0 id1 security_id : string) (d0 d1 sv : option string)
  : element :=
  Element (ns_id "Signature" dsns) [] [] None
    [ signed_info keytype id0 id1 d0 d1;
      Element (ns_id "SignatureValue" dsns) [] [] sv [];
      key_info security_id ].

(** The text [t.split(".")[0] + 'Z']. *)
Definition seconds (t : string) : string := (before_dot t ++ "Z")%string.

(** A timestamp with the texts of its children at [ic] and [ie] cut to
    whole seconds (lines 224-225). *)
Definition truncated (w : layout) (timestamp : element) : element :=
  set_children
    (update_nth (ie w) (set_text (Some (seconds (te w))))
       (update_nth (ic w) (set_text (Some (seconds (tc w)))) (children timestamp)))
    timestamp.

(** The scope in which the children of the security header are
    serialised. *)
Definition security_scope (w : layout) : nsmap_t :=
  ns_merge (nsmap (w_security w))
           (ns_merge (nsmap (w_header w)) (ns_merge (nsmap (w_env w)) [])).

(** An element of the envelope as [etree.tostring] serialises it: the
    body, a child of the root; the timestamp, a child of the security
    header; the [SignedInfo], a child of a [Signature] in that header. *)
Definition body_alone (w : layout) (b : element) : element :=
  standalone (Loc [ib w] (ns_merge (nsmap (w_env w)) []) None b).

Definition timestamp_alone (w : layout) (t : element) : element :=
  standalone (Loc [ih w; is_ w; it w] (security_scope w) None t).

Definition info_alone (w : layout) (si : element) : element :=
  standalone (Loc [] (ns_merge [] (security_scope w)) None si).

(** No element of the tree carries one of the given [wsu:Id]s. *)
Definition id_free (ids : list string) (e : element) : bool :=
  forallb (fun k => negb (existsb (fun i => opt_eqb (get WSU_ID (attrib k)) (Some i)) ids))
          (elements e).

(** The tags that the validator looks up in the whole envelope. *)
Definition reserved_tags : list string :=
  [ DS_Signature; DS_CanonicalizationMethod; ns_id "BinarySecurityToken" wssens ].

(** What a lookup [//*[q]] finds below the security header of
    [document w b t extra], when it finds nothing in the envelope that
    was signed: its matches in the timestamp, then in the appended
    elements. *)
Definition below_security (w : layout) (t : element) (extra : list element)
  (q : string -> list (string * string) -> bool) : list located :=
  let matches := fun n : located => q (tag (l_node n)) (attrib (l_node n)) in
  filter matches (walk [ih w; is_ w; it w] (security_scope w) (Some (sec_with w t extra)) t) ++
  filter matches
    (flat_mapi (fun i k => walk ([ih w; is_ w] ++ [i]) (security_scope w)
                                (Some (sec_with w t extra)) k)
               (length (children (w_security w))) extra).

(** The body and the timestamp as the signer leaves them, marked with the
    ids [id0] and [id1]. *)
Definition signed_body (w : layout) (id0 : string) : element :=
  set_attr WSU_ID id0 (w_body w).

Definition signed_timestamp (w : layout) (id1 : string) : element :=
  truncated w (set_attr WSU_ID id1 (w_timestamp w)).

(** The digest value of an element as serialised. *)
Definition digest_of (L : Lib) (alone : element) : string :=
  b64encode L (sha1 L (write_c14n L false true alone)).

(** The digest values of the two references.  The loop of lines 245-255
    compares each [URI] with the id of the body first. *)
Definition body_digest (L : Lib) (w : layout) (id0 : string) : string :=
  digest_of L (body_alone w (signed_body w id0)).

Definition timestamp_digest (L : Lib) (w : layout) (id0 id1 : string) : string :=
  if String.eqb id1 id0 then body_digest L w id0
  else digest_of L (timestamp_alone w (signed_timestamp w id1)).

(** The signature value over a [SignedInfo]. *)
Definition value_of (L : Lib) (w : layout) (k : pkey L) (si : element) : string :=
  b64encode L (pkcs1_sign L k (write_c14n L false true (info_alone w si))).

Definition signed_signature (L : Lib) (w : layout) (keytype id0 id1 id2 : string)
  (k : pkey L) : element :=
  let d0 := Some (body_digest L w id0) in
  let d1 := Some (timestamp_digest L w id0 id1) in
  signature keytype id0 id1 id2 d0 d1
            (Some (value_of L w k (signed_info keytype id0 id1 d0 d1))).

(** The envelope that [sending] hands back. *)
Definition signed (L : Lib) (w : layout) (keytype id0 id1 id2 : string) (k : pkey L)
  (content : string) : element :=
  document w (signed_body w id0) (signed_timestamp w id1)
    [ token id2 (b64encode L content); signed_signature L w keytype id0 id1 id2 k ].




(** The [Reference]s of a [SignedInfo]; of a [Reference], its [URI], the
    algorithms of its transforms and the text of its [DigestValue]. *)
Definition references (si : element) : list element :=
  filter (has_tag DS_REFERENCE) (children si).

Definition uri (r : element) : option string := get "URI" (attrib r).


Definition digest_value (r : element) : option string :=
  match filter (has_tag DS_DIGEST_VALUE) (children r) with
  | d :: _ => text d
  | [] => None
  end.

(** What the validator needs of an envelope [e] and of the ids drawn for
    its body, its timestamp and its token to find what the signer put
    there: the root declares the prefixes [wsu] and [wsse] (the lookups
    of [validate] pass [tree.nsmap]), the envelope uses none of the
    reserved tags and carries neither of the first two ids, the ids
    differ, and the first two hold no quote (they are spliced into an
    XPath string literal). *)
Definition validatable (e : element) (id0 id1 id2 : string) : Prop :=
  resolve_prefix (nsmap e) "wsu" = Ret (snd wsuns) /\
  resolve_prefix (nsmap e) "wsse" = Ret (snd wssens) /\
  free_of reserved_tags e = true /\
  id_free [id0; id1] e = true /\
  id0 <> id1 /\ id2 <> id0 /\ id2 <> id1 /\
  contains "'" id0 = false /\ contains "'" id1 = false.

(** [a'] is [a] with another content: the start tag is the same, and the
    new text and children bring in no reserved tag and none of the
    [ids]. *)
Definition retouched (ids : list string) (a a' : element) : Prop :=
  tag a' = tag a /\ nsmap a' = nsmap a /\ attrib a' = attrib a /\
  free_of reserved_tags a' = true /\
  forallb (id_free ids) (children a') = true.

End Ws.

(* ================================================================= *)
(** ** Documents used in the concrete runs *)

Module Examples.
Import Signature.

(** A small application message. *)
Definition request : element :=
  Element "{http://bxd.fi/CorporateFileService}ApplicationRequest"
          [(None, "http://bxd.fi/CorporateFileService")] [] None
    [ Element "{http://bxd.fi/CorporateFileService}CustomerId" [] [] (Some "1000000000") [];
      Element "{http://bxd.fi/CorporateFileService}Command" [] [] (Some "GetUserInfo") [] ].

(** The same message for another customer. *)
Definition other_request : element :=
  Element "{http://bxd.fi/CorporateFileService}ApplicationRequest"
          [(None, "http://bxd.fi/CorporateFileService")] [] None
    [ Element "{http://bxd.fi/CorporateFileService}CustomerId" [] [] (Some "1000000001") [];
      Element "{http://bxd.fi/CorporateFileService}Command" [] [] (Some "GetUserInfo") [] ].

(** A document that carries every part of a signature except the
    [CanonicalizationMethod]. *)
Definition without_canonicalization : element :=
  Element "doc" [] [] None
    [ E "Signature" [] None
        [ E "SignedInfo" [] None
            [ E "SignatureMethod" [("Algorithm", RSASHA1)] None [];
              E "Reference" [("URI", "")] None
                [ E "DigestMethod" [("Algorithm", SHA1)] None [];
                  E "DigestValue" [] (Some "AAAA") [] ] ];
          E "SignatureValue" [] (Some "AAAA") [];
          E "KeyInfo" [] None
            [ E "X509Data" [] None [ E "X509Certificate" [] (Some "AAAA") [] ] ] ] ].

(** A document whose [Signature] holds only a [KeyInfo] that points at a
    security token; there is no token, no [SignedInfo] and no
    [SignatureValue], and the root declares no namespace prefix. *)
Definition dangling_token_reference : element :=
  Element "doc" [] [] None
    [ Element DS_Signature [(Some "ds", DSIG)] [] None
        [ Element DS_KeyInfo [] [] None
            [ Element (clark WSSE "SecurityTokenReference") [(Some "wsse", WSSE)] [] None
                [ Element WSSE_Reference [] [("URI", "#token")] None [] ] ] ] ].

(** A document that already contains an (empty) [ds:Signature]. *)
Definition already_signed : element :=
  Element "doc" [] [] None [ Element DS_Signature [(Some "ds", DSIG)] [] None [] ].

(** A SOAP request as suds hands it to the plugin: a security header
    with a timestamp of sub-second precision, and a body. *)
Definition timestamp_of (created expires : string) : element :=
  Element (Plugin.ns_id "Timestamp" Plugin.wsuns) [] [] None
    [ Element (Plugin.ns_id "Created" Plugin.wsuns) [] [] (Some created) [];
      Element (Plugin.ns_id "Expires" Plugin.wsuns) [] [] (Some expires) [] ].

Definition body_of (command : string) : element :=
  Element (Plugin.ns_id "Body" Plugin.envns) [] [] None
    [ Element "{http://bxd.fi/CorporateFileService}getUserInfoin" [] [] None
        [ Element "{http://bxd.fi/CorporateFileService}Command" [] [] (Some command) [] ] ].

Definition security_of (timestamps : list element) : element :=
  Element (Plugin.ns_id "Security" Plugin.wssens) []
          [(Plugin.ns_id "mustUnderstand" Plugin.envns, "1")] None timestamps.

Definition header_of (timestamps : list element) : element :=
  Element (Plugin.ns_id "Header" Plugin.envns) [] [] None [ security_of timestamps ].

Definition envelope_of (timestamps : list element) (body : element) : element :=
  Element (Plugin.ns_id "Envelope" Plugin.envns)
          [ (Some "SOAP-ENV", snd Plugin.envns); (Some "wsse", snd Plugin.wssens);
            (Some "wsu", snd Plugin.wsuns) ] [] None
    [ header_of timestamps; body ].

Definition created : string := "2013-05-20T10:15:30.123456Z".
Definition expires : string := "2013-05-20T10:20:30.123456Z".

Definition envelope : element :=
  envelope_of [ timestamp_of created expires ] (body_of "GetUserInfo").

(** Where the signer finds its elements in [envelope]. *)
Definition envelope_layout : Ws.layout :=
  {| Ws.w_env := envelope;
     Ws.w_header := header_of [ timestamp_of created expires ];
     Ws.w_security := security_of [ timestamp_of created expires ];
     Ws.w_timestamp := timestamp_of created expires;
     Ws.w_body := body_of "GetUserInfo";
     Ws.ib := 1; Ws.ih := 0; Ws.is_ := 0; Ws.it := 0; Ws.ic := 0; Ws.ie := 1;
     Ws.tc := created; Ws.te := expires |}.





(** The same request with a second timestamp in the security header. *)
Definition two_timestamps : element :=
  envelope_of [ timestamp_of created expires;
                timestamp_of "2013-05-20T10:15:31.5Z" "2013-05-20T10:20:31.5Z" ]
              (body_of "GetUserInfo").





(** [request] signed by [alice] on the reference instance. *)
Definition signed_request : string :=
  tostring Ref.lib (Utf8 true)
    (append request (signature_for Ref.lib request "alice" "CERT:alice")).

End Examples.

(* ================================================================= *)
(** ** util.py *)

Module Util.

(** A character of a [str] is an [ascii] here: the code points below
    U+0100.  Among them the decimal digits, which [int] and [\d] accept,
    are ['0'] to ['9']; [str.isdigit] also accepts the superscripts
    U+00B2, U+00B3 and U+00B9, which [int] refuses. *)
Definition is_decimal (c : ascii) : bool :=
  (48 <=? nat_of_ascii c)%nat && (nat_of_ascii c <=? 57)%nat.

(** [int(x)] for a one-character string; [None]: [ValueError]. *)
Definition int_char (c : ascii) : option nat :=
  if is_decimal c then Some (nat_of_ascii c - 48) else None.

(** [[int(x) for x in key]]; [None]: [ValueError]. *)
Fixpoint int_list (key : string) : option (list nat) :=
  match key with
  | EmptyString => Some []
  | String x key' =>
      match int_char x, int_list key' with
      | Some d, Some l => Some (d :: l)
      | _, _ => None
      end
  end.

(** [c.isdigit()] for one character, and [s.isdigit()]: false for the
    empty string. *)
Definition isdigit_char (c : ascii) : bool :=
  is_decimal c || (nat_of_ascii c =? 178)%nat || (nat_of_ascii c =? 179)%nat
  || (nat_of_ascii c =? 185)%nat.

Definition isdigit (s : string) : bool :=
  negb (String.eqb s "") && forallb isdigit_char (list_ascii_of_string s).

(** [int(s)] for a string that passed [isdigit]: the decimal value, and
    [ValueError] when a character is no decimal digit. *)
Definition int_ (s : string) : outcome Z :=
  match int_list s with
  | Some l => Ret (fold_left (fun acc d => 10 * acc + Z.of_nat d)%Z l 0%Z)
  | None => Raise ValueError
  end.

(** [str(n)] for an [int] that is not negative. *)
Definition str (n : nat) : string :=
  DecimalString.NilEmpty.string_of_uint (Nat.to_uint n).

(** [s[n:]] and [s[:n]] *)
Fixpoint drop (n : nat) (s : string) : string :=
  match n, s with
  | S n', String _ s' => drop n' s'
  | _, _ => s
  end.

Fixpoint take (n : nat) (s : string) : string :=
  match n, s with
  | S n', String c s' => String c (take n' s')
  | _, _ => EmptyString
  end.

(** ["{:0>w}".format(s)]: zeros in front, up to the width [w]. *)
Definition zfill (w : nat) (s : string) : string :=
  (string_of_list_ascii (repeat "0"%char (w - String.length s)) ++ s)%string.

(** [l[::2]] *)
Fixpoint every_other {A : Type} (l : list A) : list A :=
  match l with
  | [] => []
  | x :: l' => x :: match l' with
                    | [] => []
                    | _ :: l'' => every_other l''
                    end
  end.

(** [sum(divmod(d * 2, 10))] *)
Definition double_digit (d : nat) : nat := (d * 2) / 10 + (d * 2) mod 10.

(** [numbers[::-2]] are the elements of the reversed list at the even
    indices, [numbers[-2::-2]] those at the odd ones. *)
Definition check_luhn_modulo10 (key : string) : bool :=
  match int_list key with
  | None => false
  | Some numbers =>
      let odd := every_other (rev numbers) in
      let even := map double_digit (every_other (tl (rev numbers))) in
      let result := list_sum (odd ++ even) in
      (result mod 10 =? 0)%nat
  end.

Definition is_valid_iban (account_number : string) : outcome bool :=
  if negb (String.length account_number =? 18)%nat then Ret false else
  let number := (drop 4 account_number ++ "151800")%string in
  if negb (isdigit number) then Ret false else
  n <- int_ number ;;
  let check := zfill 2 (str (Z.to_nat (98 - n mod 97))) in
  if negb (String.eqb check (take 2 (drop 2 account_number))) then Ret false
  else Ret true.

(** The fragment of [re] that the pattern of [parse_account_number]
    uses.  A counted repetition is greedy; the second branch of an
    alternation is tried when the first one cannot be completed. *)
Inductive regex : Type :=
| Bol                                         (* ^ *)
| Eol                                         (* $ *)
| Class (p : ascii -> bool)                   (* [...] *)
| Counted (p : ascii -> bool) (lo hi : nat)   (* c{lo,hi}, c? *)
| Seq (a b : regex)
| Or (a b : regex)                            (* a|b *)
| Group (i : nat) (r : regex).                (* (...), the i-th *)

(** The text of the groups that took part in the match. *)
Definition groups := list (nat * string).

Definition LF : ascii := Eval cbv in ascii_of_nat 10.

Section Matcher.
Context (s : string).     (* the string that is matched *)

(** [c{lo,hi}] at position [pos], where [rest] is left: as many as
    possible first. *)
Fixpoint counted (p : ascii -> bool) (lo hi : nat) (pos : nat) (rest : string)
  (g : groups) (k : nat -> string -> groups -> option groups) : option groups :=
  match hi with
  | O => if (lo =? 0)%nat then k pos rest g else None
  | S hi' =>
      match match rest with
            | String c rest' =>
                if p c then counted p (pred lo) hi' (S pos) rest' g k else None
            | EmptyString => None
            end with
      | Some m => Some m
      | None => if (lo =? 0)%nat then k pos rest g else None
      end
  end.

(** A backtracking matcher in continuation-passing style: [k] matches
    what follows.  Without [re.MULTILINE], [^] matches at the start of
    the string only, and [$] at its end or before a newline that ends
    it. *)
Fixpoint run (r : regex) (pos : nat) (rest : string) (g : groups)
  (k : nat -> string -> groups -> option groups) : option groups :=
  match r with
  | Bol => if (pos =? 0)%nat then k pos rest g else None
  | Eol => if String.eqb rest "" || String.eqb rest (String LF "")
           then k pos rest g else None
  | Class p =>
      match rest with
      | String c rest' => if p c then k (S pos) rest' g else None
      | EmptyString => None
      end
  | Counted p lo hi => counted p lo hi pos rest g k
  | Seq a b => run a pos rest g (fun pos' rest' g' => run b pos' rest' g' k)
  | Or a b =>
      match run a pos rest g k with
      | Some m => Some m
      | None => run b pos rest g k
      end
  | Group i r' =>
      run r' pos rest g
          (fun pos' rest' g' => k pos' rest' ((i, substring pos (pos' - pos) s) :: g'))
  end.

End Matcher.

(** [pat.match(s)]: a match that starts at the start of [s]. *)
Definition re_match (pat : regex) (s : string) : option groups :=
  run s pat 0 s [] (fun _ _ g => Some g).

(** [match.group(i)]: [None] for a group that took no part. *)
Fixpoint group (i : nat) (m : groups) : option string :=
  match m with
  | [] => None
  | (j, t) :: m' => if (j =? i)%nat then Some t else group i m'
  end.

Definition one_of (l : list ascii) (c : ascii) : bool :=
  existsb (Ascii.eqb c) l.

Definition none_of (l : list ascii) (c : ascii) : bool := negb (one_of l c).

(** The pattern of lines 55-65. *)
Definition pat : regex :=
  Or (Seq (Group 1 (Seq Bol (Seq (Class (none_of ["3"; ","; "7"; ","; "9"]%char))
                                 (Counted is_decimal 5 5))))
          (Seq (Counted (one_of ["-"%char]) 0 1)
               (Group 2 (Seq (Counted is_decimal 2 8) Eol))))
     (Seq (Group 3 (Seq Bol (Seq (Class (one_of ["3"%char]))
                                 (Seq (Class (none_of ["2"; ","; "5"]%char))
                                      (Counted is_decimal 4 4)))))
          (Seq (Counted (one_of ["-"%char]) 0 1)
               (Group 4 (Seq (Counted is_decimal 2 8) Eol)))).

(** What [match.group] returned is used as a string: [None] can be
    neither subscripted nor formatted with a width ([TypeError]). *)
Definition subscriptable (x : option string) : outcome string :=
  match x with
  | None => Raise TypeError
  | Some t => Ret t
  end.

(** [t[0]] *)
Definition item0 (t : string) : outcome ascii :=
  match t with
  | EmptyString => Raise IndexError
  | String c _ => Ret c
  end.

Definition parse_account_number (account_number : string)
  : outcome (string * string) :=
  account_number <-
    (if String.prefix "FI" account_number then
       valid <- is_valid_iban account_number ;;
       if negb valid then Raise ValueError else Ret (drop 4 account_number)
     else Ret account_number) ;;
  match re_match pat account_number with
  | None => Raise ValueError
  | Some m =>
      branch <- subscriptable (group 1 m) ;;
      let account := group 2 m in
      b0 <- item0 branch ;;
      account <-
        (if one_of ["4"; "5"]%char b0 then
           account <- subscriptable account ;;
           a0 <- item0 account ;;
           Ret (String a0 (zfill 7 (drop 1 account)))
         else
           account <- subscriptable account ;;     (* a format spec on None *)
           Ret (zfill 8 account)) ;;
      if check_luhn_modulo10 (branch ++ account) then Ret (branch, account)
      else Raise ValueError
  end.

End Util.

(** Functions in which the statements about [util.py] are phrased. *)
Module UtilAux.

(** The Luhn sum over the reversed digits: the digits at the even
    indices count as they are, those at the odd indices doubled. *)
Fixpoint luhn_sum (plain : bool) (r : list nat) : nat :=
  match r with
  | [] => 0
  | d :: r' => (if plain then d else Util.double_digit d) + luhn_sum (negb plain) r'
  end.

(** The value of a list of decimal digits. *)
Definition value (l : list nat) : Z :=
  fold_left (fun acc d => 10 * acc + Z.of_nat d)%Z l 0%Z.

(** The number of characters of the class [p] that [s] starts with, at
    most [n]. *)
Fixpoint prefix_len (p : ascii -> bool) (n : nat) (s : string) : nat :=
  match n, s with
  | S n', String c s' => if p c then S (prefix_len p n' s') else 0
  | _, _ => 0
  end.

(** [int(c) == d] for a one-character string [c]; false when [int]
    raises. *)
Definition value_is (d : nat) (c : ascii) : bool :=
  match Util.int_char c with
  | Some d' => (d' =? d)%nat
  | None => false
  end.

(** All the characters of [s] are decimal digits. *)
Definition decimals (s : string) : bool :=
  forallb Util.is_decimal (list_ascii_of_string s).

(** The zero fill of [parse_account_number]. *)
Definition fill (b0 : ascii) (account : string) : string :=
  if Util.one_of ["4"; "5"]%char b0
  then match account with
       | String a0 a1 => String a0 (Util.zfill 7 a1)
       | EmptyString => EmptyString
       end
  else Util.zfill 8 account.

(** [$]: the end of the string, or a newline that ends it. *)
Definition eol (rest : string) : bool :=
  String.eqb rest "" || String.eqb rest (String Util.LF "").

(** What [-?(\d{2,8}$)] matches at [rest]: the digits. *)
Definition tail_of (rest : string) : option string :=
  let rest' := Util.drop (prefix_len (Util.one_of ["-"%char]) 1 rest) rest in
  let j := prefix_len Util.is_decimal 8 rest' in
  if (2 <=? j)%nat && eol (Util.drop j rest') then Some (Util.take j rest') else None.

(** The two alternatives of the pattern, read as a function. *)
Definition first_alternative (s : string) : option string :=
  match s with
  | String c r =>
      if Util.none_of ["3"; ","; "7"; ","; "9"]%char c
         && (prefix_len Util.is_decimal 5 r =? 5)%nat
      then tail_of (Util.drop 5 r) else None
  | EmptyString => None
  end.

Definition second_alternative (s : string) : option string :=
  match s with
  | String c (String c' r) =>
      if Util.one_of ["3"%char] c && Util.none_of ["2"; ","; "5"]%char c'
         && (prefix_len Util.is_decimal 4 r =? 4)%nat
      then tail_of (Util.drop 4 r) else None
  | _ => None
  end.

Definition pat_spec (s : string) : option Util.groups :=
  match first_alternative s with
  | Some t => Some [(2, t); (1, Util.take 6 s)]
  | None =>
      match second_alternative s with
      | Some t => Some [(4, t); (3, Util.take 6 s)]
      | None => None
      end
  end.

(** What [parse_account_number] does with an account number in the
    national format. *)
Definition parse_bban (s : string) : outcome (string * string) :=
  match first_alternative s, s with
  | Some t, String c _ =>
      if Util.check_luhn_modulo10 (Util.take 6 s ++ fill c t)
      then Ret (Util.take 6 s, fill c t) else Raise ValueError
  | Some t, EmptyString => Raise IndexError
  | None, _ =>
      match second_alternative s with
      | Some _ => Raise TypeError
      | None => Raise ValueError
      end
  end.

End UtilAux.

(* ================================================================= *)
(** ** Elements that ride inside the signature *)

(** An element with further children behind the ones it has. *)
Definition with_children (extra : list element) (s : element) : element :=
  set_children (children s ++ extra) s.

(** The tags that the validator reads below the [Signature] element, and
    the one that makes [get_certificate] look for a security token. *)
Definition scanned_tags : list string :=
  [ Signature.DS_DigestValue; Signature.DS_SignedInfo; Signature.DS_SignatureValue;
    Signature.WSSE_Reference ].

(* ================================================================= *)
(** ** appresponse.py *)

Module AppResponse.

(** A tag of the namespace of the application response. *)
Definition ns (local : string) : string := ("{http://bxd.fi/xmldata/}" ++ local)%string.

(** [c.lower()] on the code points below U+0100. *)
Definition lower_char (c : ascii) : ascii :=
  let n := nat_of_ascii c in
  if ((65 <=? n)%nat && (n <=? 90)%nat)
     || ((192 <=? n)%nat && (n <=? 222)%nat && negb (n =? 215)%nat)
  then ascii_of_nat (n + 32) else c.

Fixpoint lower (s : string) : string :=
  match s with
  | EmptyString => EmptyString
  | String c s' => String (lower_char c) (lower s')
  end.

(** [element.text.lower()]: [None] has no [lower]. *)
Definition text_lower (t : option string) : outcome string :=
  match t with
  | None => Raise AttributeError
  | Some v => Ret (lower v)
  end.

(** The attributes of a [FileDescriptor]: every one starts as [""] and
    takes the text of an element, which is [None] for an element without
    text. *)
Module FileDescriptor.

Record t : Type := {
  _reference : option string;
  _target : option string;
  _serviceid : option string;
  _serviceidownername : option string;
  _userfilename : option string;
  _parentfile : option string;
  _filetype : option string;
  _timestamp : option string;
  _status : option string;
}.

Definition init : t :=
  {| _reference := Some ""; _target := Some ""; _serviceid := Some "";
     _serviceidownername := Some ""; _userfilename := Some ""; _parentfile := Some "";
     _filetype := Some ""; _timestamp := Some ""; _status := Some "" |}.

(** One iteration of [for element in descriptor.iter()] (lines 146-183):
    the [if] statements in their order. *)
Definition read (fd : t) (element : element) : t :=
  let v := text element in
  let fd := if has_tag (ns "FileReference") element
            then {| _reference := v; _target := _target fd; _serviceid := _serviceid fd;
                    _serviceidownername := _serviceidownername fd;
                    _userfilename := _userfilename fd; _parentfile := _parentfile fd;
                    _filetype := _filetype fd; _timestamp := _timestamp fd;
                    _status := _status fd |} else fd in
  let fd := if has_tag (ns "TargetId") element
            then {| _reference := _reference fd; _target := v; _serviceid := _serviceid fd;
                    _serviceidownername := _serviceidownername fd;
                    _userfilename := _userfilename fd; _parentfile := _parentfile fd;
                    _filetype := _filetype fd; _timestamp := _timestamp fd;
                    _status := _status fd |} else fd in
  let fd := if has_tag (ns "ServiceId") element
            then {| _reference := _reference fd; _target := _target fd; _serviceid := v;
                    _serviceidownername := _serviceidownername fd;
                    _userfilename := _userfilename fd; _parentfile := _parentfile fd;
                    _filetype := _filetype fd; _timestamp := _timestamp fd;
                    _status := _status fd |} else fd in
  let fd := if has_tag (ns "ServiceIdOwnerName") element
            then {| _reference := _reference fd; _target := _target fd;
                    _serviceid := _serviceid fd; _serviceidownername := v;
                    _userfilename := _userfilename fd; _parentfile := _parentfile fd;
                    _filetype := _filetype fd; _timestamp := _timestamp fd;
                    _status := _status fd |} else fd in
  let fd := if has_tag (ns "UserFilename") element
            then {| _reference := _reference fd; _target := _target fd;
                    _serviceid := _serviceid fd;
                    _serviceidownername := _serviceidownername fd;
                    _userfilename := v; _parentfile := _parentfile fd;
                    _filetype := _filetype fd; _timestamp := _timestamp fd;
                    _status := _status fd |} else fd in
  let fd := if has_tag (ns "ParentFileReference") element
            then {| _reference := _reference fd; _target := _target fd;
                    _serviceid := _serviceid fd;
                    _serviceidownername := _serviceidownername fd;
                    _userfilename := _userfilename fd; _parentfile := v;
                    _filetype := _filetype fd; _timestamp := _timestamp fd;
                    _status := _status fd |} else fd in
  let fd := if has_tag (ns "FileType") element
            then {| _reference := _reference fd; _target := _target fd;
                    _serviceid := _serviceid fd;
                    _serviceidownername := _serviceidownername fd;
                    _userfilename := _userfilename fd; _parentfile := _parentfile fd;
                    _filetype := v; _timestamp := _timestamp fd;
                    _status := _status fd |} else fd in
  let fd := if has_tag (ns "FileTimestamp") element
            then {| _reference := _reference fd; _target := _target fd;
                    _serviceid := _serviceid fd;
                    _serviceidownername := _serviceidownername fd;
                    _userfilename := _userfilename fd; _parentfile := _parentfile fd;
                    _filetype := _filetype fd; _timestamp := v;
                    _status := _status fd |} else fd in
  if has_tag (ns "Status") element
  then {| _reference := _reference fd; _target := _target fd;
          _serviceid := _serviceid fd;
          _serviceidownername := _serviceidownername fd;
          _userfilename := _userfilename fd; _parentfile := _parentfile fd;
          _filetype := _filetype fd; _timestamp := _timestamp fd;
          _status := v |} else fd.

(** The descriptor built from one child of [FileDescriptors]. *)
Definition of_element (descriptor : element) : t :=
  fold_left read (elements descriptor) init.

End FileDescriptor.

(** The attributes of an [ApplicationResponse].  An attribute that the
    constructor may leave unset is an [option]: [None] is the missing
    attribute, whose use raises [AttributeError].  The text of an element
    is itself [None] when the element has none. *)
Record ApplicationResponse : Type := {
  _accepted : bool;
  _content : option string;                     (* bytes, or None *)
  _customerid : option (option string);
  _timestamp : option (option string);
  _responsecode : option (option string);
  _responsetext : option (option string);
  _executionserial : option (option string);
  _encrypted : option bool;
  _encryptionmethod : option (option string);
  _compressed : option bool;
  _compressionmethod : option (option string);
  _amounttotal : option (option string);
  _transactioncount : option (option string);
  _customerextension : option element;
  _file_descriptors : option (list FileDescriptor.t);
  _filetype : option (option string);
}.

(** The object after lines 71-86. *)
Definition fresh (accepted : bool) : ApplicationResponse :=
  {| _accepted := accepted; _content := None; _customerid := None; _timestamp := None;
     _responsecode := None; _responsetext := None; _executionserial := None;
     _encrypted := None; _encryptionmethod := None; _compressed := None;
     _compressionmethod := None; _amounttotal := None; _transactioncount := None;
     _customerextension := None; _file_descriptors := None; _filetype := None |}.

(** The assignments of the loop. *)
Inductive attribute : Type :=
| Content (v : option string)
| CustomerId (v : option string)
| Timestamp (v : option string)
| ResponseCode (v : option string)
| ResponseText (v : option string)
| ExecutionSerial (v : option string)
| Encrypted (v : bool)
| EncryptionMethod (v : option string)
| Compressed (v : bool)
| CompressionMethod (v : option string)
| AmountTotal (v : option string)
| TransactionCount (v : option string)
| CustomerExtension (v : element)
| FileDescriptors (v : list FileDescriptor.t)
| FileType (v : option string).

(** [self.<attribute> = v] *)
Definition assign (a : attribute) (self : ApplicationResponse) : ApplicationResponse :=
  {| _accepted := _accepted self;
     _content := match a with Content v => v | _ => _content self end;
     _customerid := match a with CustomerId v => Some v | _ => _customerid self end;
     _timestamp := match a with Timestamp v => Some v | _ => _timestamp self end;
     _responsecode := match a with ResponseCode v => Some v | _ => _responsecode self end;
     _responsetext := match a with ResponseText v => Some v | _ => _responsetext self end;
     _executionserial :=
       match a with ExecutionSerial v => Some v | _ => _executionserial self end;
     _encrypted := match a with Encrypted v => Some v | _ => _encrypted self end;
     _encryptionmethod :=
       match a with EncryptionMethod v => Some v | _ => _encryptionmethod self end;
     _compressed := match a with Compressed v => Some v | _ => _compressed self end;
     _compressionmethod :=
       match a with CompressionMethod v => Some v | _ => _compressionmethod self end;
     _amounttotal := match a with AmountTotal v => Some v | _ => _amounttotal self end;
     _transactioncount :=
       match a with TransactionCount v => Some v | _ => _transactioncount self end;
     _customerextension :=
       match a with CustomerExtension v => Some v | _ => _customerextension self end;
     _file_descriptors :=
       match a with FileDescriptors v => Some v | _ => _file_descriptors self end;
     _filetype := match a with FileType v => Some v | _ => _filetype self end |}.

(** The state of the loop of lines 89-138: the object and the local
    variable [descriptors]. *)
Definition state : Type := ApplicationResponse * option element.

Definition store (a : attribute) (st : state) : outcome state :=
  Ret (assign a (fst st), snd st).

Section WithLib.
Context (L : Lib).

(** The [if] statements of the loop body in their order: the tag each
    one compares with, and what it does with the element. *)
Definition statements : list (string * (element -> state -> outcome state)) :=
  [ ("CustomerId", fun element => store (CustomerId (text element)));
    ("Timestamp", fun element => store (Timestamp (text element)));
    ("ResponseCode", fun element => store (ResponseCode (text element)));
    ("ResponseText", fun element => store (ResponseText (text element)));
    ("ExecutionSerial", fun element => store (ExecutionSerial (text element)));
    ("Encrypted", fun element st =>
       value <- text_lower (text element) ;;
       store (Encrypted (String.eqb value "true")) st);
    ("EncryptionMethod", fun element => store (EncryptionMethod (text element)));
    ("Compressed", fun element st =>
       value <- text_lower (text element) ;;
       let value := if String.eqb value "1" then "true" else value in
       store (Compressed (String.eqb value "true")) st);
    ("CompressionMethod", fun element => store (CompressionMethod (text element)));
    ("AmountTotal", fun element => store (AmountTotal (text element)));
    ("TransactionCount", fun element => store (TransactionCount (text element)));
    ("CustomerExtension", fun element => store (CustomerExtension element));
    ("FileDescriptors", fun element st => Ret (fst st, Some element));
    ("FileType", fun element => store (FileType (text element)));
    ("Content", fun element st =>
       match text element with
       | None => Raise TypeError                  (* bytes(None, 'utf-8') *)
       | Some bytestring =>
           content <- Signature.b64decode_ L bytestring ;;
           store (Content (Some content)) st
       end) ].

(** One [if element.tag == ...:] statement. *)
Definition statement (element : element) (st : outcome state)
  (s : string * (Lxml.element -> state -> outcome state)) : outcome state :=
  st <- st ;;
  if has_tag (ns (fst s)) element then snd s element st else Ret st.

(** The body of the loop for one element. *)
Definition read (st : state) (element : element) : outcome state :=
  fold_left (statement element) statements (Ret st).

Fixpoint loop (st : state) (l : list element) : outcome state :=
  match l with
  | [] => Ret st
  | element :: l' => st' <- read st element ;; loop st' l'
  end.

(** [_validate_with_schema]: [xsd] is the compiled schema of the
    package, [None] when its file cannot be read. *)
Definition _validate_with_schema (xsd : option (element -> bool)) (xml_string : string)
  : outcome bool :=
  match xsd with
  | None => Raise IOError
  | Some xml_schema =>
      match fromstring L xml_string with
      | None => Ret false
      | Some doc => Ret (xml_schema doc)
      end
  end.

(** [ApplicationResponse(message)] *)
Definition init (xsd : option (element -> bool)) (env : Certificate.crl_env)
  (message : string) : outcome ApplicationResponse :=
  valid_schema <- _validate_with_schema xsd message ;;
  valid <- Signature.validate L env message ;;
  if negb valid then Raise ValueError else
  match fromstring L message with
  | None => Raise XMLSyntaxError
  | Some tree =>
      st <- loop (fresh valid_schema, None) (elements tree) ;;
      match snd st with
      | None => Ret (fst st)
      | Some descriptors =>
          Ret (assign (FileDescriptors (map FileDescriptor.of_element (children descriptors)))
                      (fst st))
      end
  end.

End WithLib.

(** [is_accepted]: the missing attribute is caught and gives [False];
    in the branch that logs, so does a missing [_responsetext]. *)
Definition is_accepted (self : ApplicationResponse) : bool :=
  match _responsecode self with
  | None => false
  | Some code =>
      if negb (opt_eqb code (Some "00")) || negb (_accepted self)
      then false
      else true
  end.

(** The last element of a list. *)
Definition last_of {A : Type} (l : list A) : option A :=
  match rev l with
  | [] => None
  | a :: _ => Some a
  end.

(** A [ResponseCode] element. *)
Definition response_code (code : string) : element :=
  Element (ns "ResponseCode") [] [] (Some code) [].

(** A response of the bank, as the examples below sign it with the key
    of [alice]; the schema of the examples asks for the root tag only. *)
Definition response (code message : string) : element :=
  Element (ns "ApplicationResponse") [(None, "http://bxd.fi/xmldata/")] [] None
    [ Element (ns "CustomerId") [] [] (Some "1234567890") [];
      Element (ns "Timestamp") [] [] (Some "2013-05-20T10:15:30Z") [];
      response_code code;
      Element (ns "ResponseText") [] [] (Some message) [];
      Element (ns "Encrypted") [] [] (Some "false") [];
      Element (ns "Compressed") [] [] (Some "False") [] ].

Definition example_xsd : option (element -> bool) :=
  Some (has_tag (ns "ApplicationResponse")).

End AppResponse.

(* ================================================================= *)
(** ** The content of a response, and webservice.py *)

Module WebService.

(** What a call raises: an exception of [exn], or one of the two that
    [gzip.decompress] adds to them ([gzip.BadGzipFile] is an [OSError]
    and counts as [IOError], [UnicodeDecodeError] is a [ValueError]). *)
Inductive raised : Type :=
| Exn (e : exn)
| EOFError
| ZlibError.

Inductive result (A : Type) : Type :=
| Returned (a : A)
| Raised (e : raised).
Arguments Returned {A} a.
Arguments Raised {A} e.

Definition and_then {A B : Type} (m : result A) (k : A -> result B) : result B :=
  match m with
  | Returned a => k a
  | Raised e => Raised e
  end.

(** [except ValueError]: [binascii.Error] is a [ValueError]. *)
Definition is_value_error (e : exn) : bool :=
  match e with
  | ValueError | BinasciiError => true
  | _ => false
  end.

Section WithLib.
Context (L : Lib).
Context (decompress : string -> result string).   (* gzip.decompress *)
Context (decode : string -> option string).       (* str(data, 'utf-8'); None: UnicodeDecodeError *)

(** [_get_compressionmethod]: a Python value, [None] included. *)
Definition _get_compressionmethod (self : AppResponse.ApplicationResponse) : option string :=
  match AppResponse._compressed self with
  | None => None                                  (* AttributeError, caught *)
  | Some true =>
      match AppResponse._compressionmethod self with
      | None => None                              (* AttributeError, caught *)
      | Some v => v
      end
  | Some false => None
  end.

(** [bytes(x)] and [str(x, 'utf-8')] on a value that is [bytes] or
    [None]. *)
Definition bytes_ (x : option string) : result string :=
  match x with
  | None => Raised (Exn TypeError)
  | Some b => Returned b
  end.

Definition str_ (x : option string) : result (option string) :=
  match x with
  | None => Raised (Exn TypeError)
  | Some b =>
      match decode b with
      | Some s => Returned (Some s)
      | None => Raised (Exn ValueError)
      end
  end.

(** [ApplicationResponse.content]: the text, or [self._content] as it
    is when an [AttributeError] is caught. *)
Definition _get_content (self : AppResponse.ApplicationResponse) : result (option string) :=
  match AppResponse._compressed self with
  | None => Returned (AppResponse._content self)
  | Some compressed =>
      let r :=
        if compressed then
          match _get_compressionmethod self with
          | Some method =>
              if String.eqb method "RFC1952"
              then and_then (and_then (bytes_ (AppResponse._content self)) decompress)
                            (fun data => str_ (Some data))
              else Raised (Exn TypeError)
          | None =>
              and_then (and_then (bytes_ (AppResponse._content self)) decompress)
                       (fun data => str_ (Some data))
          end
        else str_ (AppResponse._content self) in
      match r with
      | Raised (Exn AttributeError) => Returned (AppResponse._content self)
      | _ => r
      end
  end.

(** [_parse_response]: the code and the text of the response header and
    the base64 text of the application response, each a string or
    [None]. *)
Definition _parse_response (xsd : option (element -> bool)) (env : Certificate.crl_env)
  (header_code header_text application_response : option string)
  : result AppResponse.ApplicationResponse :=
  match application_response with
  | None => Raised (Exn TypeError)                (* bytes(None, 'utf-8') *)
  | Some text =>
      match b64decode L text with
      | None => Raised (Exn RuntimeError)
      | Some message =>
          if negb (opt_eqb header_code (Some "00")) then
            if opt_eqb header_code (Some "12") then
              match AppResponse.init L xsd env message with
              | Ret ar =>
                  and_then (_get_content ar) (fun _ => Raised (Exn RuntimeError))
              | Raise e =>
                  if is_value_error e
                  then Raised (Exn UnboundLocalError)   (* ar.content, ar was never bound *)
                  else Raised (Exn e)
              end
            else Raised (Exn RuntimeError)
          else
            match AppResponse.init L xsd env message with
            | Ret ar =>
                if AppResponse.is_accepted ar then Returned ar
                else Raised (Exn RuntimeError)
            | Raise e =>
                if is_value_error e then Raised (Exn RuntimeError) else Raised (Exn e)
            end
      end
  end.

End WithLib.

End WebService.

(* ================================================================= *)
(** * Properties *)

(** ** Induction on element trees *)

Lemma element_forall_ind (P : element -> Prop) :
  (forall t ns at_ tx kids, Forall P kids -> P (Element t ns at_ tx kids)) ->
  forall e, P e.
Proof.
  intros H.
  fix IH 1.
  intros [t ns at_ tx kids].
  apply H.
  induction kids as [|k kids IHk]; constructor.
  - apply IH.
  - exact IHk.
Qed.

(** ** The reference instance reads back what it writes *)

Module RefFacts.
Import Ref.

Lemma dec_nat_enc n r : dec_nat (enc_nat n ++ r) = Some (n, r).
Proof.
  unfold enc_nat.
  induction n as [|n IH]; simpl.
  - reflexivity.
  - rewrite IH. reflexivity.
Qed.

Lemma length_list_ascii s : length (list_ascii_of_string s) = String.length s.
Proof. induction s; simpl; congruence. Qed.

Lemma firstn_exact {A} (l r : list A) : firstn (length l) (l ++ r) = l.
Proof. induction l; simpl; congruence. Qed.

Lemma skipn_exact {A} (l r : list A) : skipn (length l) (l ++ r) = r.
Proof. induction l; simpl; congruence. Qed.

Lemma dec_str_enc s r : dec_str (enc_str s ++ r) = Some (s, r).
Proof.
  unfold dec_str, enc_str.
  rewrite <- app_assoc, dec_nat_enc.
  rewrite <- length_list_ascii.
  rewrite firstn_exact, skipn_exact, string_of_list_ascii_of_string.
  replace (Nat.leb _ _) with true; [reflexivity|].
  symmetry. apply Nat.leb_le. rewrite length_app. lia.
Qed.

Lemma dec_opt_enc o r : dec_opt (enc_opt o ++ r) = Some (o, r).
Proof.
  destruct o as [s|]; simpl.
  - rewrite dec_str_enc. reflexivity.
  - reflexivity.
Qed.

Lemma dec_decl_enc d r : dec_decl (enc_decl d ++ r) = Some (d, r).
Proof.
  destruct d as [p u]. unfold dec_decl, enc_decl. simpl.
  rewrite <- app_assoc, dec_opt_enc, dec_str_enc. reflexivity.
Qed.

Lemma dec_attr_enc a r : dec_attr (enc_attr a ++ r) = Some (a, r).
Proof.
  destruct a as [n v]. unfold dec_attr, enc_attr. simpl.
  rewrite <- app_assoc, !dec_str_enc. reflexivity.
Qed.

Lemma dec_items_enc {A} (enc : A -> chars) dec (l : list A) r :
  Forall (fun a => forall r', dec (enc a ++ r') = Some (a, r')) l ->
  dec_items dec (length l) (flat_map enc l ++ r) = Some (l, r).
Proof.
  induction 1 as [|a l Ha _ IH]; simpl.
  - reflexivity.
  - rewrite <- app_assoc, Ha, IH. reflexivity.
Qed.

Lemma dec_list_enc {A} (enc : A -> chars) dec (l : list A) r :
  Forall (fun a => forall r', dec (enc a ++ r') = Some (a, r')) l ->
  dec_list dec (enc_list enc l ++ r) = Some (l, r).
Proof.
  intros H. unfold dec_list, enc_list.
  rewrite <- app_assoc, dec_nat_enc. apply dec_items_enc, H.
Qed.

Lemma enc_element_eq e :
  enc_element e =
  enc_str (tag e) ++ enc_list enc_decl (nsmap e) ++ enc_list enc_attr (attrib e)
  ++ enc_opt (text e) ++ enc_list enc_element (children e).
Proof. destruct e; reflexivity. Qed.

Lemma length_flat_map_le {A} (f : A -> chars) l a :
  In a l -> length (f a) <= length (flat_map f l).
Proof.
  induction l as [|b l IH]; simpl; [tauto|].
  intros [->|H]; rewrite length_app; [lia|].
  specialize (IH H). lia.
Qed.

Lemma child_shorter k e : In k (children e) -> length (enc_element k) < length (enc_element e).
Proof.
  intros H. rewrite (enc_element_eq e).
  unfold enc_str at 1, enc_nat at 1.
  pose proof (length_flat_map_le enc_element _ _ H) as Hk.
  unfold enc_list at 3.
  rewrite !length_app. simpl. lia.
Qed.

Lemma dec_element_enc e :
  forall fuel r, length (enc_element e) <= fuel ->
  dec_element fuel (enc_element e ++ r) = Some (e, r).
Proof.
  induction e as [t ns at_ tx kids IH] using element_forall_ind.
  intros [|fuel] r Hfuel.
  - exfalso. rewrite enc_element_eq in Hfuel.
    unfold enc_str, enc_nat in Hfuel. rewrite !length_app in Hfuel. simpl in Hfuel. lia.
  - rewrite enc_element_eq. cbn [tag nsmap attrib text children dec_element].
    rewrite <- !app_assoc.
    rewrite dec_str_enc.
    rewrite dec_list_enc by (apply Forall_forall; intros; apply dec_decl_enc).
    rewrite dec_list_enc by (apply Forall_forall; intros; apply dec_attr_enc).
    rewrite dec_opt_enc.
    rewrite dec_list_enc; [reflexivity|].
    rewrite Forall_forall in IH |- *.
    intros k Hk r'. apply IH; [exact Hk|].
    pose proof (child_shorter k (Element t ns at_ tx kids) Hk). lia.
Qed.

Lemma fromstring_tostring m e : ref_fromstring (ref_tostring m e) = Some e.
Proof.
  unfold ref_fromstring, ref_tostring.
  rewrite list_ascii_of_string_of_list_ascii.
  pose proof (dec_element_enc e (length (enc_element e)) [] (Nat.le_refl _)) as H.
  rewrite app_nil_r in H. rewrite H. reflexivity.
Qed.

Lemma enc_element_inj e e' : enc_element e = enc_element e' -> e = e'.
Proof.
  intros H.
  pose proof (dec_element_enc e (length (enc_element e)) [] (Nat.le_refl _)) as H1.
  pose proof (dec_element_enc e' (length (enc_element e')) [] (Nat.le_refl _)) as H2.
  rewrite H in H1. congruence.
Qed.

End RefFacts.

Import Signature.

Lemma bind_ret_inv {A B} (m : outcome A) (k : A -> outcome B) b :
  bind m k = Ret b -> exists a, m = Ret a /\ k a = Ret b.
Proof. destruct m; simpl; intros H; [eauto|discriminate]. Qed.

(** ** Signing with the application profile *)

Section SignFacts.
Context (L : Lib) (Hparse : Laws.parse_tostring L).

Lemma canonicalizate_tostring m e x c :
  canonicalizate_message L (tostring L m e) x c = Ret (write_c14n L c x e).
Proof. unfold canonicalizate_message. rewrite Hparse. reflexivity. Qed.

Lemma calculate_digest_tostring m e x c :
  calculate_digest L (tostring L m e) x c = Ret (sha1 L (write_c14n L c x e)).
Proof. unfold calculate_digest. rewrite canonicalizate_tostring. reflexivity. Qed.

Lemma generate_xml_signature_eq fs e private_key certificate :
  generate_xml_signature L fs (tostring L Plain e) private_key certificate =
  match fs private_key with
  | None => Raise IOError
  | Some content =>
      match importKey L content with
      | None => Raise ValueError
      | Some k =>
          match fs certificate with
          | None => Raise IOError
          | Some cert => Ret (signature_for L e k cert)
          end
      end
  end.
Proof.
  unfold generate_xml_signature.
  rewrite calculate_digest_tostring. cbn [bind].
  rewrite Hparse.
  unfold calculate_signature_value. rewrite canonicalizate_tostring. cbn [bind].
  destruct (fs private_key) as [content|]; [|reflexivity].
  destruct (importKey L content) as [k|]; [|reflexivity].
  cbn [bind].
  destruct (fs certificate) as [cert|]; reflexivity.
Qed.

Lemma sign_eq fs x private_key certificate decl :
  sign L fs x private_key certificate decl =
  match fromstring L x with
  | None => Raise RuntimeError
  | Some e =>
      match fs private_key with
      | None => Raise IOError
      | Some content =>
          match importKey L content with
          | None => Raise ValueError
          | Some k =>
              match fs certificate with
              | None => Raise IOError
              | Some cert =>
                  Ret (tostring L (Utf8 decl) (append e (signature_for L e k cert)))
              end
          end
      end
  end.
Proof.
  unfold sign. destruct (fromstring L x) as [e|]; [|reflexivity].
  rewrite generate_xml_signature_eq.
  destruct (fs private_key) as [content|]; [|reflexivity].
  destruct (importKey L content) as [k|]; [|reflexivity].
  destruct (fs certificate) as [cert|]; reflexivity.
Qed.
End SignFacts.

(** C9: [sign] aborts by raising -- [RuntimeError] for malformed XML,
    [IOError] for a key or certificate file that cannot be read,
    [ValueError] for a key that cannot be imported -- and whenever it does
    return, every step has succeeded and the output is the whole signed
    document: an outcome is either an exception or a complete result. *)
Theorem sign_aborts_without_output (L : Lib) fs x private_key certificate decl :
  Laws.parse_tostring L ->
  (fromstring L x = None ->
     sign L fs x private_key certificate decl = Raise RuntimeError) /\
  (fromstring L x <> None -> fs private_key = None ->
     sign L fs x private_key certificate decl = Raise IOError) /\
  (fromstring L x <> None ->
     forall content, fs private_key = Some content -> importKey L content = None ->
     sign L fs x private_key certificate decl = Raise ValueError) /\
  (fromstring L x <> None ->
     forall content, fs private_key = Some content -> importKey L content <> None ->
     fs certificate = None ->
     sign L fs x private_key certificate decl = Raise IOError) /\
  (forall out, sign L fs x private_key certificate decl = Ret out ->
     exists e content k cert,
       fromstring L x = Some e /\ fs private_key = Some content /\
       importKey L content = Some k /\ fs certificate = Some cert /\
       out = tostring L (Utf8 decl) (append e (signature_for L e k cert))).
Proof.
  intros Hparse. rewrite (sign_eq L Hparse).
  repeat split.
  - intros ->. reflexivity.
  - intros Hx ->. destruct (fromstring L x); [reflexivity|congruence].
  - intros Hx content -> ->. destruct (fromstring L x); [reflexivity|congruence].
  - intros Hx content -> Hk ->. destruct (fromstring L x); [|congruence].
    destruct (importKey L content); [reflexivity|congruence].
  - intros out H.
    destruct (fromstring L x) as [e|] eqn:He; [|discriminate].
    destruct (fs private_key) as [content|] eqn:Hc; [|discriminate].
    destruct (importKey L content) as [k|] eqn:Hk; [|discriminate].
    destruct (fs certificate) as [cert|] eqn:Hcert; [|discriminate].
    exists e, content, k, cert.
    repeat (split; [assumption || reflexivity|]). congruence.
Qed.

(** The four failures on the reference instance. *)
Lemma sign_aborts_without_output_witness :
  sign Ref.lib Ref.fs "<" "key.pem" "cert.der" false = Raise RuntimeError /\
  sign Ref.lib Ref.fs (tostring Ref.lib Plain Examples.request) "lost.pem" "cert.der" false
    = Raise IOError /\
  sign Ref.lib Ref.fs (tostring Ref.lib Plain Examples.request) "notes.txt" "cert.der" false
    = Raise ValueError /\
  sign Ref.lib Ref.fs (tostring Ref.lib Plain Examples.request) "key.pem" "lost.der" false
    = Raise IOError.
Proof.
  split; [|split; [|split]].
  - apply (sign_aborts_without_output Ref.lib Ref.fs "<" "key.pem" "cert.der" false
             RefFacts.fromstring_tostring).
    reflexivity.
  - apply (sign_aborts_without_output Ref.lib Ref.fs _ "lost.pem" "cert.der" false
             RefFacts.fromstring_tostring).
    + vm_compute. discriminate.
    + reflexivity.
  - apply (sign_aborts_without_output Ref.lib Ref.fs _ "notes.txt" "cert.der" false
             RefFacts.fromstring_tostring) with (content := "hello").
    + vm_compute. discriminate.
    + reflexivity.
    + reflexivity.
  - apply (sign_aborts_without_output Ref.lib Ref.fs _ "key.pem" "lost.der" false
             RefFacts.fromstring_tostring) with (content := "KEY:alice").
    + vm_compute. discriminate.
    + reflexivity.
    + vm_compute. discriminate.
    + reflexivity.
Defined.

Lemma remove_nth_last {A} (l : list A) a : remove_nth (length l) (l ++ [a]) = l.
Proof. induction l; simpl; congruence. Qed.

Lemma remove_appended d signature :
  remove (append d signature)
         (child_loc (root_loc (append d signature)) (length (children d)) signature) = Ret d.
Proof.
  destruct d as [t ns at_ tx kids]. unfold remove, append, set_children. simpl.
  rewrite remove_nth_last. reflexivity.
Qed.

(** C4: the signature that the application profile produces over the
    document [d] has exactly one [Reference]; its [URI] is empty and its
    [DigestValue] is the base64 of the SHA-1 of the with-comments
    canonical form of [d] -- the signed document with the [Signature]
    itself removed -- computed by [calculate_digest] from the
    canonicalised serialisation and not from the serialised bytes. *)
Theorem application_reference_digest (L : Lib) fs x private_key certificate decl out :
  Laws.parse_tostring L ->
  sign L fs x private_key certificate decl = Ret out ->
  exists d signature reference digest_value,
    fromstring L x = Some d /\
    fromstring L out = Some (append d signature) /\
    has_tag DS_Signature signature = true /\
    remove (append d signature)
           (child_loc (root_loc (append d signature)) (length (children d)) signature) = Ret d /\
    filter (has_tag DS_Reference) (elements signature) = [reference] /\
    get "URI" (attrib reference) = Some "" /\
    filter (has_tag DS_DigestValue) (elements signature) = [digest_value] /\
    In digest_value (children reference) /\
    calculate_digest L (tostring L Plain d) false true
      = Ret (sha1 L (write_c14n L true false d)) /\
    text digest_value = Some (b64encode L (sha1 L (write_c14n L true false d))).
Proof.
  intros Hparse Hsign. rewrite (sign_eq L Hparse) in Hsign.
  destruct (fromstring L x) as [e|] eqn:He; [|discriminate].
  destruct (fs private_key) as [content|]; [|discriminate].
  destruct (importKey L content) as [k|]; [|discriminate].
  destruct (fs certificate) as [cert|]; [|discriminate].
  injection Hsign as <-.
  exists e, (signature_for L e k cert).
  eexists. eexists.
  split; [reflexivity|].
  split; [apply Hparse|].
  split; [reflexivity|].
  split; [apply remove_appended|].
  split; [vm_compute; reflexivity|].
  split; [reflexivity|].
  split; [vm_compute; reflexivity|].
  split; [simpl; tauto|].
  split; [apply calculate_digest_tostring, Hparse|].
  reflexivity.
Qed.

(** The reference of the signed request of [Examples]. *)
Lemma application_reference_digest_witness :
  exists d signature reference digest_value,
    fromstring Ref.lib (tostring Ref.lib Plain Examples.request) = Some d /\
    (exists out, sign Ref.lib Ref.fs (tostring Ref.lib Plain Examples.request)
                   "key.pem" "cert.der" true = Ret out /\
                 fromstring Ref.lib out = Some (append d signature)) /\
    filter (has_tag DS_Reference) (elements signature) = [reference] /\
    get "URI" (attrib reference) = Some "" /\
    In digest_value (children reference) /\
    text digest_value
      = Some (b64encode Ref.lib (sha1 Ref.lib (write_c14n Ref.lib true false d))).
Proof.
  destruct (application_reference_digest Ref.lib Ref.fs
              (tostring Ref.lib Plain Examples.request) "key.pem" "cert.der" true
              (tostring Ref.lib (Utf8 true)
                 (append Examples.request
                    (signature_for Ref.lib Examples.request "alice" "CERT:alice")))
              RefFacts.fromstring_tostring)
    as (d & s & r & dv & Hd & Hout & _ & _ & Hr & Huri & _ & Hin & _ & Htext).
  - vm_compute. reflexivity.
  - exists d, s, r, dv. repeat split; try assumption.
    eexists. split; [vm_compute; reflexivity|exact Hout].
Defined.

(** ** Documents on which [validate] raises *)

(** C2: a parsed document that has a [Signature], a [SignedInfo], a
    [SignatureValue] and a certificate but no [CanonicalizationMethod]
    makes [validate] raise [UnboundLocalError]: the flags [exclusive] and
    [comments] are assigned only under [if len(algorithm) > 0] and read
    unconditionally two lines later.  [validate] does not always return a
    boolean. *)
Theorem validate_raises_without_canonicalization (L : Lib) env x b :
  fromstring L x = Some Examples.without_canonicalization ->
  b64decode L "AAAA" = Some b ->
  validate L env x = Raise UnboundLocalError.
Proof.
  intros Hx Hb. unfold validate, get_certificate. rewrite Hx.
  vm_compute. vm_compute in Hb. rewrite Hb. reflexivity.
Qed.

(** The same run on the reference instance. *)
Lemma validate_raises_without_canonicalization_witness :
  validate Ref.lib (Ref.fresh_crl "")
           (tostring Ref.lib Plain Examples.without_canonicalization)
  = Raise UnboundLocalError.
Proof.
  apply (validate_raises_without_canonicalization Ref.lib (Ref.fresh_crl "") _ "AAAA").
  - apply RefFacts.fromstring_tostring.
  - reflexivity.
Defined.

(** C10: a parsed document whose [Signature] has a [KeyInfo] with a
    [wsse:Reference] but no security token, no [SignedInfo] and no
    [SignatureValue], under a root that does not bind the prefix [wsse],
    makes [validate] raise [XPathEvalError]: [get_certificate] looks the
    token up with [namespaces=tree.nsmap].  A document with missing
    components is not always answered with [False]. *)
Theorem validate_raises_on_dangling_token_reference (L : Lib) env x :
  fromstring L x = Some Examples.dangling_token_reference ->
  validate L env x = Raise XPathEvalError.
Proof.
  intros Hx. unfold validate, get_certificate. rewrite Hx.
  vm_compute. reflexivity.
Qed.

(** The same run on the reference instance. *)
Lemma validate_raises_on_dangling_token_reference_witness :
  validate Ref.lib (Ref.fresh_crl "")
           (tostring Ref.lib Plain Examples.dangling_token_reference)
  = Raise XPathEvalError.
Proof.
  apply (validate_raises_on_dangling_token_reference Ref.lib (Ref.fresh_crl "")).
  apply RefFacts.fromstring_tostring.
Defined.

Import Certificate.

(** ** The revocation check *)

Lemma check_revocation_status_loaded (L : Lib) env data crl_bytes :
  loaded_crl env = Some crl_bytes ->
  fst (check_revocation_status L env data) =
  match load_crl L crl_bytes with
  | None => Raise CryptoError
  | Some op_crl =>
      match load_certificate L data with
      | None => Raise ValueError
      | Some cert =>
          match get_revoked L op_crl with
          | None => Raise TypeError
          | Some l =>
              Ret (existsb (fun c => bytes_eq_int (get_serial L c) (get_serial_number L cert)) l)
          end
      end
  end.
Proof.
  unfold loaded_crl, check_revocation_status.
  destruct (if file_exists env then _ else _).
  - destruct (refresh env) as [[b|] env']; [discriminate|].
    simpl. unfold lookup. intros ->. reflexivity.
  - simpl. unfold lookup. intros ->. reflexivity.
Qed.

(** The comparison of line 93 holds for no entry of the list. *)
Lemma no_entry_matches {A} (f : A -> string) (n : Z) (l : list A) :
  existsb (fun c => bytes_eq_int (f c) n) l = false.
Proof. induction l as [|a l IH]; [reflexivity|exact IH]. Qed.

Lemma lookup_not_true (L : Lib) env data : lookup L env data <> Ret true.
Proof.
  unfold lookup.
  destruct (cache env) as [crl_bytes|]; [|discriminate].
  destruct (load_crl L crl_bytes) as [op_crl|]; [|discriminate].
  destruct (load_certificate L data) as [cert|]; [|discriminate].
  destruct (get_revoked L op_crl) as [l|]; [|discriminate].
  rewrite no_entry_matches. discriminate.
Qed.

Lemma refresh_not_true env : fst (refresh env) <> Some true.
Proof.
  assert (H : forall e, fst (on_environment_error e) <> Some true).
  { intros e. unfold on_environment_error.
    destruct (negb (dir_exists e)); [|discriminate].
    destruct (can_mkdir e); [|discriminate].
    destruct (open_wb (with_dir e)) as [e2|]; [|discriminate].
    destruct (fetch e2); discriminate. }
  unfold refresh.
  destruct (open_wb env) as [env1|]; [|apply H].
  destruct (fetch env1); [discriminate| |apply H].
  destruct (negb (file_exists env1)); discriminate.
Qed.

(** [check_revocation_status] never answers [True]. *)
Lemma check_revocation_status_not_true (L : Lib) env data :
  fst (check_revocation_status L env data) <> Ret true.
Proof.
  unfold check_revocation_status.
  destruct (if file_exists env then _ else _).
  - pose proof (refresh_not_true env) as H.
    destruct (refresh env) as [[[|]|] env']; cbn [fst] in *.
    + congruence.
    + discriminate.
    + apply lookup_not_true.
  - apply lookup_not_true.
Qed.

Lemma check_revocation_status_listed (L : Lib) env data crl_bytes op_crl l cert :
  loaded_crl env = Some crl_bytes ->
  load_crl L crl_bytes = Some op_crl ->
  get_revoked L op_crl = Some l ->
  load_certificate L data = Some cert ->
  fst (check_revocation_status L env data) = Ret false.
Proof.
  intros Hl Hcrl Hrev Hcert.
  rewrite (check_revocation_status_loaded L env data crl_bytes Hl), Hcrl, Hcert, Hrev.
  rewrite no_entry_matches. reflexivity.
Qed.

(** C7: when a refresh is due (no cache file, or one older than a day),
    the directory is there and writable, and the fetch fails with
    [URLError], the cache file has already been emptied by
    [open(..., 'wb')]: the call goes on to load the empty file and raises
    [crypto.Error].  Neither the previous cache is used nor [False]
    returned, and the previous cache is lost. *)
Theorem refresh_failure_empties_cache (L : Lib) env certificate :
  dir_exists env = true ->
  can_write env = true ->
  fetch env = FetchURLError ->
  (file_exists env = true -> (0 < cache_age_days env)%Z) ->
  load_crl L "" = None ->
  check_revocation_status L env certificate
  = (Raise CryptoError, with_cache (Some "") env).
Proof.
  intros Hdir Hw Hfetch Hage Hempty.
  unfold check_revocation_status.
  replace (if file_exists env then _ else _) with true.
  2:{ destruct (file_exists env); [|reflexivity].
      symmetry. apply Z.ltb_lt. apply Hage. reflexivity. }
  unfold refresh, open_wb. rewrite Hdir, Hw. simpl.
  rewrite Hfetch. simpl.
  unfold lookup. simpl. rewrite Hempty. reflexivity.
Qed.

(** A stale cache and a missing cache on the reference instance. *)
Lemma refresh_failure_empties_cache_witness :
  check_revocation_status Ref.lib Ref.stale_crl "CERT:bob"
  = (Raise CryptoError, with_cache (Some "") Ref.stale_crl) /\
  check_revocation_status Ref.lib Ref.no_crl "CERT:bob"
  = (Raise CryptoError, with_cache (Some "") Ref.no_crl).
Proof.
  split.
  - apply (refresh_failure_empties_cache Ref.lib Ref.stale_crl "CERT:bob");
      try reflexivity.
  - apply (refresh_failure_empties_cache Ref.lib Ref.no_crl "CERT:bob");
      try reflexivity.
    discriminate.
Defined.

(** ** Lists, walks and filters *)

Lemma opt_eqb_refl a : opt_eqb a a = true.
Proof. destruct a; simpl; [apply String.eqb_refl|reflexivity]. Qed.

Lemma opt_eqb_eq a b : opt_eqb a b = true <-> a = b.
Proof.
  destruct a, b; simpl; split; try congruence; try discriminate.
  - intros H. apply String.eqb_eq in H. congruence.
  - intros [= ->]. apply String.eqb_refl.
Qed.

Lemma flat_mapi_app {A B} (f : nat -> A -> list B) i l1 l2 :
  flat_mapi f i (l1 ++ l2) = flat_mapi f i l1 ++ flat_mapi f (i + length l1) l2.
Proof.
  revert i. induction l1 as [|a l1 IH]; intros i; simpl.
  - rewrite Nat.add_0_r. reflexivity.
  - rewrite IH, <- app_assoc. do 3 f_equal. lia.
Qed.

Lemma flat_mapi_ext {A B} (f g : nat -> A -> list B) i l :
  (forall j a, nth_error l j = Some a -> f (i + j) a = g (i + j) a) ->
  flat_mapi f i l = flat_mapi g i l.
Proof.
  revert i. induction l as [|a l IH]; intros i H; simpl; [reflexivity|].
  f_equal.
  - specialize (H 0 a eq_refl). rewrite Nat.add_0_r in H. exact H.
  - apply IH. intros j b Hj. specialize (H (S j) b Hj).
    replace (S i + j) with (i + S j) by lia. exact H.
Qed.

Lemma filter_flat_mapi_nil {A B} (Q : B -> bool) (f : nat -> A -> list B) i l :
  (forall j a, nth_error l j = Some a -> filter Q (f (i + j) a) = []) ->
  filter Q (flat_mapi f i l) = [].
Proof.
  revert i. induction l as [|a l IH]; intros i H; simpl; [reflexivity|].
  rewrite filter_app.
  specialize (H 0 a eq_refl) as H0. rewrite Nat.add_0_r in H0. rewrite H0. simpl.
  apply IH. intros j b Hj. specialize (H (S j) b Hj).
  replace (S i + j) with (i + S j) by lia. exact H.
Qed.

(** Only the child at index [n] contributes to the filter. *)
Lemma filter_flat_mapi_single {A B} (Q : B -> bool) (f : nat -> A -> list B) i l n a :
  nth_error l n = Some a ->
  (forall j b, nth_error l j = Some b -> j <> n -> filter Q (f (i + j) b) = []) ->
  filter Q (flat_mapi f i l) = filter Q (f (i + n) a).
Proof.
  revert i n. induction l as [|b l IH]; intros i n Hn H.
  - destruct n; discriminate.
  - simpl. rewrite filter_app. destruct n as [|n].
    + injection Hn as ->. rewrite Nat.add_0_r.
      rewrite (filter_flat_mapi_nil Q f (S i) l).
      * apply app_nil_r.
      * intros j c Hj. specialize (H (S j) c Hj).
        replace (S i + j) with (i + S j) by lia. apply H. lia.
    + specialize (H 0 b eq_refl) as H0. rewrite Nat.add_0_r in H0.
      rewrite H0 by lia. simpl.
      replace (i + S n) with (S i + n) by lia.
      apply IH; [exact Hn|].
      intros j c Hj Hne. specialize (H (S j) c Hj).
      replace (S i + j) with (i + S j) by lia. apply H. lia.
Qed.

(** Two children, the one at [n1] before the one at [n2], contribute. *)
Lemma filter_flat_mapi_two {A B} (Q : B -> bool) (f : nat -> A -> list B) i l n1 n2 a1 a2 :
  n1 < n2 ->
  nth_error l n1 = Some a1 ->
  nth_error l n2 = Some a2 ->
  (forall j b, nth_error l j = Some b -> j <> n1 -> j <> n2 -> filter Q (f (i + j) b) = []) ->
  filter Q (flat_mapi f i l) = filter Q (f (i + n1) a1) ++ filter Q (f (i + n2) a2).
Proof.
  revert i n1 n2. induction l as [|b l IH]; intros i n1 n2 Hlt H1 H2 H.
  - destruct n1; discriminate.
  - simpl. rewrite filter_app. destruct n1 as [|n1].
    + injection H1 as ->. rewrite Nat.add_0_r. f_equal.
      destruct n2 as [|n2]; [lia|].
      replace (i + S n2) with (S i + n2) by lia.
      apply filter_flat_mapi_single; [exact H2|].
      intros j c Hj Hne. specialize (H (S j) c Hj).
      replace (S i + j) with (i + S j) by lia. apply H; lia.
    + destruct n2 as [|n2]; [lia|].
      specialize (H 0 b eq_refl) as H0. rewrite Nat.add_0_r in H0.
      rewrite H0 by lia. simpl.
      replace (i + S n1) with (S i + n1) by lia.
      replace (i + S n2) with (S i + n2) by lia.
      apply IH; [lia|exact H1|exact H2|].
      intros j c Hj Hne1 Hne2. specialize (H (S j) c Hj).
      replace (S i + j) with (i + S j) by lia. apply H; lia.
Qed.

Lemma nth_error_update_nth {A} (f : A -> A) i j (l : list A) :
  nth_error (update_nth i f l) j =
  if Nat.eqb j i then option_map f (nth_error l j) else nth_error l j.
Proof.
  revert i j. induction l as [|a l IH]; intros i j.
  - destruct i, j; simpl; try reflexivity. destruct (Nat.eqb j i); reflexivity.
  - destruct i as [|i], j as [|j]; simpl; try reflexivity. apply IH.
Qed.

Lemma length_update_nth {A} (f : A -> A) i (l : list A) :
  length (update_nth i f l) = length l.
Proof.
  revert i. induction l as [|a l IH]; intros [|i]; simpl; try reflexivity.
  f_equal. apply IH.
Qed.

Lemma update_nth_app_l {A} (f : A -> A) i (l l' : list A) :
  i < length l -> update_nth i f (l ++ l') = update_nth i f l ++ l'.
Proof.
  revert i. induction l as [|a l IH]; intros [|i] H; simpl in *; try lia; try reflexivity.
  f_equal. apply IH. lia.
Qed.

Lemma update_nth_app_r {A} (f : A -> A) i (l l' : list A) :
  update_nth (length l + i) f (l ++ l') = l ++ update_nth i f l'.
Proof. induction l as [|a l IH]; simpl; [reflexivity|]. f_equal. exact IH. Qed.

Lemma update_nth_twice {A} (f g : A -> A) i (l : list A) :
  update_nth i f (update_nth i g l) = update_nth i (fun a => f (g a)) l.
Proof.
  revert i. induction l as [|a l IH]; intros [|i]; simpl; try reflexivity.
  f_equal. apply IH.
Qed.

Lemma update_nth_ext {A} (f g : A -> A) i (l : list A) :
  (forall a, nth_error l i = Some a -> f a = g a) ->
  update_nth i f l = update_nth i g l.
Proof.
  revert i. induction l as [|a l IH]; intros [|i] H; simpl; try reflexivity.
  - f_equal. apply H. reflexivity.
  - f_equal. apply IH. exact H.
Qed.

Lemma update_nth_id {A} (f : A -> A) i (l : list A) :
  (forall a, nth_error l i = Some a -> f a = a) -> update_nth i f l = l.
Proof.
  revert i. induction l as [|a l IH]; intros [|i] H; simpl; try reflexivity.
  - f_equal. apply H. reflexivity.
  - f_equal. apply IH. exact H.
Qed.

Lemma update_nth_comm {A} (f g : A -> A) i j (l : list A) :
  i <> j -> update_nth i f (update_nth j g l) = update_nth j g (update_nth i f l).
Proof.
  revert i j. induction l as [|a l IH]; intros [|i] [|j] H; simpl; try reflexivity; try lia.
  f_equal. apply IH. lia.
Qed.

(** ** Walking a tree *)

Lemma walk_eq path scope parent e :
  walk path scope parent e =
  Loc path scope parent e ::
  flat_mapi (fun i k => walk (path ++ [i]) (ns_merge (nsmap e) scope) (Some e) k)
            0 (children e).
Proof. destruct e. reflexivity. Qed.

Lemma map_flat_mapi_ext {A B C} (h : B -> C) (g g' : nat -> A -> list B) n l :
  Forall (fun a => forall i, map h (g i a) = map h (g' i a)) l ->
  map h (flat_mapi g n l) = map h (flat_mapi g' n l).
Proof.
  intros H. revert n. induction H as [|a l Ha _ IH]; intros n; simpl; [reflexivity|].
  rewrite !map_app. f_equal; [apply Ha|apply IH].
Qed.

(** The elements met do not depend on where the walk starts. *)
Lemma map_node_walk e :
  forall path scope parent path' scope' parent',
    map l_node (walk path scope parent e) = map l_node (walk path' scope' parent' e).
Proof.
  induction e as [t ns at_ tx kids IH] using element_forall_ind.
  intros. rewrite !walk_eq. cbn [map children nsmap]. f_equal.
  apply map_flat_mapi_ext.
  eapply Forall_impl; [|exact IH]. intros k Hk i. apply Hk.
Qed.

Lemma elements_walk path scope parent e :
  map l_node (walk path scope parent e) = elements e.
Proof. apply map_node_walk. Qed.

Lemma filter_map_node (P : element -> bool) (l : list located) :
  map l_node (filter (fun n => P (l_node n)) l) = filter P (map l_node l).
Proof.
  induction l as [|n l IH]; simpl; [reflexivity|].
  destruct (P (l_node n)); simpl; congruence.
Qed.

(** A filter on the elements finds nothing in a tree none of whose
    elements passes it. *)
Lemma filter_walk_nil (P : element -> bool) path scope parent e :
  forallb (fun k => negb (P k)) (elements e) = true ->
  filter (fun n => P (l_node n)) (walk path scope parent e) = [].
Proof.
  intros H.
  assert (Hm : map l_node (filter (fun n => P (l_node n)) (walk path scope parent e)) = []).
  { rewrite filter_map_node, elements_walk.
    induction (elements e) as [|k l IH]; simpl in *; [reflexivity|].
    apply andb_prop in H as [Hk Hl]. destruct (P k); [discriminate|]. apply IH, Hl. }
  destruct (filter _ _); [reflexivity|discriminate].
Qed.

Lemma elements_eq e : elements e = e :: flat_map elements (children e).
Proof.
  unfold elements, walk_root. rewrite walk_eq. cbn [map]. f_equal.
  generalize 0. induction (children e) as [|k kids IH]; intros i; simpl; [reflexivity|].
  rewrite map_app, IH. f_equal. apply map_node_walk.
Qed.

Lemma forallb_elements_child (P : element -> bool) e k :
  forallb P (elements e) = true -> In k (children e) -> forallb P (elements k) = true.
Proof.
  rewrite elements_eq. cbn [forallb]. intros H Hk.
  apply andb_prop in H as [_ H].
  rewrite forallb_forall in H |- *. intros x Hx. apply H.
  apply in_flat_map. exists k. split; assumption.
Qed.

Lemma forallb_elements_root (P : element -> bool) e :
  forallb P (elements e) = true -> P e = true.
Proof. rewrite elements_eq. cbn [forallb]. intros H. apply andb_prop in H. tauto. Qed.

(** ** Namespace scopes *)

Lemma ns_merge_nil_r a : ns_merge a [] = a.
Proof. unfold ns_merge. simpl. apply app_nil_r. Qed.

Lemma has_prefix_in d a : In d a -> has_prefix (fst d) a = true.
Proof.
  intros H. unfold has_prefix. apply existsb_exists. exists d. split; [exact H|].
  apply opt_eqb_refl.
Qed.

Lemma filter_shadowed a : filter (fun d => negb (has_prefix (fst d) a)) a = [].
Proof.
  assert (H : forall l, (forall d, In d l -> In d a) ->
                        filter (fun d => negb (has_prefix (fst d) a)) l = []).
  { induction l as [|d l IH]; intros Hl; simpl; [reflexivity|].
    rewrite has_prefix_in by (apply Hl; left; reflexivity). simpl.
    apply IH. intros d' Hd'. apply Hl. right. exact Hd'. }
  apply H. auto.
Qed.

Lemma filter_idem {A} (p : A -> bool) l : filter p (filter p l) = filter p l.
Proof.
  induction l as [|a l IH]; simpl; [reflexivity|].
  destruct (p a) eqn:Hp; simpl; [rewrite Hp|]; congruence.
Qed.

(** Declaring again what the parent declares changes nothing. *)
Lemma ns_merge_twice a b : ns_merge a (ns_merge a b) = ns_merge a b.
Proof.
  unfold ns_merge. rewrite filter_app, filter_shadowed, filter_idem. reflexivity.
Qed.

(** ** Validating a document of the application profile *)

Lemma free_of_tag tags e t :
  free_of tags e = true -> In t tags ->
  forallb (fun k => negb (has_tag t k)) (elements e) = true.
Proof.
  unfold free_of. rewrite !forallb_forall. intros H Ht k Hk.
  specialize (H k Hk). apply negb_true_iff in H. apply negb_true_iff.
  unfold has_tag.
  destruct (String.eqb (tag k) t) eqn:E; [|reflexivity].
  rewrite <- H. symmetry. apply existsb_exists. exists t. split; assumption.
Qed.

(** A tag that the document does not use is found in the appended
    element only. *)
Lemma xpath_all_append d s t :
  forallb (fun k => negb (has_tag t k)) (elements d) = true ->
  xpath_all (append d s) t =
  filter (fun n => has_tag t (l_node n))
         (walk [length (children d)] (nsmap d) (Some (append d s)) s).
Proof.
  intros Hfree. unfold xpath_all, walk_root. rewrite walk_eq.
  cbn [filter l_node].
  replace (has_tag t (append d s)) with false.
  2:{ apply forallb_elements_root in Hfree. apply negb_true_iff in Hfree.
      destruct d. symmetry. exact Hfree. }
  replace (children (append d s)) with (children d ++ [s]) by (destruct d; reflexivity).
  replace (nsmap (append d s)) with (nsmap d) by (destruct d; reflexivity).
  rewrite flat_mapi_app, filter_app, ns_merge_nil_r.
  rewrite filter_flat_mapi_nil.
  - cbn [flat_mapi app Nat.add]. rewrite app_nil_r. reflexivity.
  - intros j k Hk. apply filter_walk_nil.
    apply (forallb_elements_child _ d k Hfree). eapply nth_error_In, Hk.
Qed.

Lemma xpath_all_append_split d s t :
  exists before,
    xpath_all (append d s) t =
    before ++ filter (fun n => has_tag t (l_node n))
                     (walk [length (children d)] (nsmap d) (Some (append d s)) s).
Proof.
  unfold xpath_all, walk_root. rewrite walk_eq.
  replace (children (append d s)) with (children d ++ [s]) by (destruct d; reflexivity).
  replace (nsmap (append d s)) with (nsmap d) by (destruct d; reflexivity).
  rewrite flat_mapi_app, ns_merge_nil_r.
  cbn [flat_mapi Nat.add]. rewrite app_nil_r.
  change (?a :: ?l1 ++ ?l2) with ((a :: l1) ++ l2).
  rewrite filter_app. eexists. reflexivity.
Qed.

Section SignatureElement.
Context (path : list nat) (scope : nsmap_t) (parent : option element).
Context (dg sv cert : string).

Let s := signature_element dg sv cert.

Lemma signature_element_signature :
  filter (fun n => has_tag DS_Signature (l_node n)) (walk path scope parent s)
  = [Loc path scope parent s].
Proof. reflexivity. Qed.

Lemma signature_element_reference :
  filter (fun n => has_tag WSSE_Reference (l_node n)) (walk path scope parent s) = [].
Proof. reflexivity. Qed.

Lemma signature_element_keyinfo :
  exists n l, filter (fun n => has_tag DS_KeyInfo (l_node n)) (walk path scope parent s)
              = n :: l.
Proof. eexists. eexists. reflexivity. Qed.

Lemma signature_element_certificate :
  exists n, filter (fun n => has_tag DS_X509Certificate (l_node n)) (walk path scope parent s)
            = [n] /\ text (l_node n) = Some cert.
Proof. eexists. split; reflexivity. Qed.

Lemma signature_element_method :
  exists n, filter (fun n => has_tag DS_CanonicalizationMethod (l_node n))
                   (walk path scope parent s) = [n] /\
            attrib (l_node n) = [("Algorithm", C14NWITHCOMMENTS)].
Proof. eexists. split; reflexivity. Qed.

Lemma signature_element_scan :
  scan scan0 (walk path scope parent s) =
  Ret {| digestvalues := [(Some "", Some dg)];
         signed_info := Some (Loc (path ++ [0]) (ns_merge [(None, DSIG)] scope) (Some s)
                                  (signed_info_of dg));
         signaturevalue := Some sv |}.
Proof. reflexivity. Qed.

End SignatureElement.

Section ValidateApplication.
Context (L : Lib) (Hparse : Laws.parse_tostring L).

Lemma read_flags_application d dg sv cert :
  free_of reserved_tags d = true ->
  read_flags (append d (signature_element dg sv cert)) = Some (true, false).
Proof.
  intros Hfree. unfold read_flags.
  rewrite xpath_all_append
    by (apply (free_of_tag _ _ _ Hfree); simpl; tauto).
  reflexivity.
Qed.

Lemma get_certificate_application m d dg sv cert :
  free_of reserved_tags d = true ->
  get_certificate L (tostring L m (append d (signature_element dg sv cert)))
  = Ret (Some cert).
Proof.
  intros Hfree. unfold get_certificate. rewrite Hparse.
  destruct (xpath_all_append_split d (signature_element dg sv cert) DS_KeyInfo)
    as [before ->].
  destruct (signature_element_keyinfo [length (children d)] (nsmap d)
              (Some (append d (signature_element dg sv cert))) dg sv cert)
    as (n & l & ->).
  destruct before; cbn [app];
    (rewrite xpath_all_append
       by (apply (free_of_tag _ _ _ Hfree); simpl; tauto);
     rewrite signature_element_reference;
     rewrite xpath_all_append
       by (apply (free_of_tag _ _ _ Hfree); simpl; tauto);
     reflexivity).
Qed.

Lemma digest_loop_application d dg sv cert :
  digest_loop L (append d (signature_element dg sv cert))
    (Loc [length (children d)] (nsmap d) (Some (append d (signature_element dg sv cert)))
         (signature_element dg sv cert))
    [(Some "", Some dg)] false true
  = Ret (String.eqb (b64encode L (sha1 L (write_c14n L true false d))) dg).
Proof.
  cbn [digest_loop String.eqb]. unfold remove. cbn [l_path].
  replace (children (append d (signature_element dg sv cert)))
    with (children d ++ [signature_element dg sv cert]) by (destruct d; reflexivity).
  rewrite remove_nth_last.
  replace (set_children (children d) (append d (signature_element dg sv cert))) with d
    by (destruct d; reflexivity).
  cbn [bind]. rewrite (calculate_digest_tostring L Hparse). cbn [bind fst snd opt_eqb].
  destruct (String.eqb _ dg); reflexivity.
Qed.

(** What [validate] computes on a document [d] that carries a signature
    of the application profile. *)
Lemma validate_application env m d dg sv cert cb svb :
  free_of reserved_tags d = true ->
  b64decode L cert = Some cb ->
  b64decode L sv = Some svb ->
  validate L env (tostring L m (append d (signature_element dg sv cert))) =
  if String.eqb (b64encode L (sha1 L (write_c14n L true false d))) dg then
    match fst (check_revocation_status L env cb) with
    | Ret true => Ret false
    | Ret false =>
        match load_certificate L cb with
        | None => Ret false
        | Some c =>
            if crypto_verify L c svb (write_c14n L true false (info_below d dg))
            then Ret true else Ret false
        end
    | Raise ValueError => Ret false
    | Raise e => Raise e
    end
  else Ret false.
Proof.
  intros Hfree Hcert Hsv.
  unfold validate. rewrite get_certificate_application by exact Hfree.
  rewrite Hparse.
  rewrite xpath_all_append
    by (apply (free_of_tag _ _ _ Hfree); simpl; tauto).
  rewrite signature_element_signature.
  unfold walk_from. cbn [l_path l_scope l_parent l_node].
  rewrite signature_element_scan. cbn [bind signaturevalue signed_info digestvalues].
  unfold b64decode_. rewrite Hcert, Hsv. cbn [bind].
  rewrite read_flags_application by exact Hfree.
  rewrite (canonicalizate_tostring L Hparse). cbn [bind].
  rewrite digest_loop_application.  cbn [bind].
  replace (standalone _) with (info_below d dg).
  2:{ unfold info_below, standalone. cbn [l_node l_scope nsmap signed_info_of E].
      rewrite ns_merge_twice. reflexivity. }
  destruct (String.eqb _ dg); reflexivity.
Qed.

End ValidateApplication.

(** ** Children with a given tag *)

Section ChildrenWith.
Context (t : string) (p : located).

Let g := fun (i : nat) (k : element) => if has_tag t k then [child_loc p i k] else [].

Lemma flat_mapi_tag_nil i0 l :
  (forall k, In k l -> has_tag t k = false) -> flat_mapi g i0 l = [].
Proof.
  revert i0. induction l as [|a l IH]; intros i0 H; simpl; [reflexivity|].
  unfold g at 1. rewrite (H a) by (left; reflexivity). simpl.
  apply IH. intros k Hk. apply H. right. exact Hk.
Qed.

Lemma flat_mapi_tag_nil_inv i0 l :
  flat_mapi g i0 l = [] -> forall k, In k l -> has_tag t k = false.
Proof.
  revert i0. induction l as [|a l IH]; intros i0 H k Hk; [destruct Hk|].
  simpl in H. unfold g at 1 in H.
  destruct (has_tag t a) eqn:Ha; [discriminate|].
  destruct Hk as [<-|Hk]; [exact Ha|]. eapply IH; eassumption.
Qed.

Lemma flat_mapi_tag_cons_inv i0 l n rest :
  flat_mapi g i0 l = n :: rest ->
  exists j k,
    nth_error l j = Some k /\ has_tag t k = true /\ n = child_loc p (i0 + j) k /\
    (forall j' k', j' < j -> nth_error l j' = Some k' -> has_tag t k' = false) /\
    rest = flat_mapi g (i0 + S j) (skipn (S j) l).
Proof.
  revert i0. induction l as [|a l IH]; intros i0 H; [discriminate|].
  simpl in H. unfold g at 1 in H.
  destruct (has_tag t a) eqn:Ha.
  - injection H as <- <-. exists 0, a.
    rewrite Nat.add_0_r. repeat split; try assumption; try reflexivity.
    + intros j' k' Hj. lia.
    + simpl. f_equal. lia.
  - simpl in H. destruct (IH _ H) as (j & k & Hj & Hk & -> & Hfirst & ->).
    exists (S j), k. repeat split; try assumption.
    + f_equal. lia.
    + intros [|j'] k' Hlt Hn; simpl in Hn.
      * congruence.
      * eapply Hfirst; [|exact Hn]. lia.
    + simpl. f_equal. lia.
Qed.

Lemma flat_mapi_tag_first i0 l i k :
  nth_error l i = Some k -> has_tag t k = true ->
  (forall j k', j < i -> nth_error l j = Some k' -> has_tag t k' = false) ->
  flat_mapi g i0 l = child_loc p (i0 + i) k :: flat_mapi g (i0 + S i) (skipn (S i) l).
Proof.
  revert i0 i. induction l as [|a l IH]; intros i0 i Hi Hk Hfirst.
  - destruct i; discriminate.
  - destruct i as [|i]; simpl in Hi.
    + injection Hi as ->. simpl. unfold g at 1. rewrite Hk, Nat.add_0_r. simpl.
      do 2 f_equal. lia.
    + simpl. unfold g at 1.
      rewrite (Hfirst 0 a) by (simpl; first [lia|reflexivity]). simpl.
      rewrite (IH (S i0) i Hi Hk).
      * f_equal; [f_equal; lia|]. f_equal. lia.
      * intros j k' Hj Hn. apply (Hfirst (S j) k'); [lia|exact Hn].
Qed.

Lemma children_with_nil :
  (forall k, In k (children (l_node p)) -> has_tag t k = false) -> children_with t p = [].
Proof. apply flat_mapi_tag_nil. Qed.

Lemma children_with_nil_inv :
  children_with t p = [] -> forall k, In k (children (l_node p)) -> has_tag t k = false.
Proof. apply flat_mapi_tag_nil_inv. Qed.

Lemma children_with_first i k :
  nth_error (children (l_node p)) i = Some k -> has_tag t k = true ->
  (forall j k', j < i -> nth_error (children (l_node p)) j = Some k' -> has_tag t k' = false) ->
  exists rest, children_with t p = child_loc p i k :: rest.
Proof.
  intros Hi Hk Hfirst. eexists. unfold children_with.
  apply (flat_mapi_tag_first 0 _ i k Hi Hk Hfirst).
Qed.

Lemma children_with_only i k :
  nth_error (children (l_node p)) i = Some k -> has_tag t k = true ->
  (forall j k', nth_error (children (l_node p)) j = Some k' -> has_tag t k' = true -> j = i) ->
  children_with t p = [child_loc p i k].
Proof.
  intros Hi Hk Honly.
  change (children_with t p) with (flat_mapi g 0 (children (l_node p))).
  rewrite (flat_mapi_tag_first 0 _ i k Hi Hk).
  - f_equal. apply flat_mapi_tag_nil. intros k' Hk'.
    destruct (has_tag t k') eqn:E; [|reflexivity]. exfalso.
    apply In_nth_error in Hk' as [j Hj].
    rewrite nth_error_skipn in Hj.
    specialize (Honly _ _ Hj E). lia.
  - intros j k' Hlt Hj. destruct (has_tag t k') eqn:E; [|reflexivity].
    specialize (Honly _ _ Hj E). lia.
Qed.

Lemma children_with_cons_inv n rest :
  children_with t p = n :: rest ->
  exists i k,
    nth_error (children (l_node p)) i = Some k /\ has_tag t k = true /\
    n = child_loc p i k /\
    (forall j k', j < i -> nth_error (children (l_node p)) j = Some k' -> has_tag t k' = false).
Proof.
  intros H. destruct (flat_mapi_tag_cons_inv 0 _ _ _ H) as (i & k & Hi & Hk & Hn & Hf & _).
  exists i, k. repeat split; assumption.
Qed.

Lemma children_with_single_inv n :
  children_with t p = [n] ->
  exists i k,
    nth_error (children (l_node p)) i = Some k /\ has_tag t k = true /\
    n = child_loc p i k /\
    (forall j k', nth_error (children (l_node p)) j = Some k' -> has_tag t k' = true -> j = i).
Proof.
  intros H. destruct (flat_mapi_tag_cons_inv 0 _ _ _ H) as (i & k & Hi & Hk & Hn & Hf & Hr).
  exists i, k. repeat split; try assumption.
  intros j k' Hj E.
  destruct (Nat.lt_trichotomy j i) as [Hlt|[->|Hgt]]; [|reflexivity|].
  - rewrite (Hf j k' Hlt Hj) in E. discriminate.
  - exfalso. symmetry in Hr.
    pose proof (flat_mapi_tag_nil_inv _ _ Hr k') as Hnil.
    rewrite Hnil in E; [discriminate|].
    apply (nth_error_In _ (j - S i)). rewrite nth_error_skipn.
    replace (S i + (j - S i)) with j by lia. exact Hj.
Qed.

End ChildrenWith.

(** ** Reading and writing inside a WS-Security envelope *)

Lemma has_tag_other t1 t2 k :
  String.eqb t1 t2 = false -> has_tag t1 k = true -> has_tag t2 k = false.
Proof.
  unfold has_tag. intros Hne H. apply String.eqb_eq in H. rewrite H. exact Hne.
Qed.

(** Two different tags on one element. *)
Ltac tag_clash :=
  match goal with
  | H1 : has_tag ?t1 ?k = true, H2 : has_tag ?t2 ?k = true |- _ =>
      let E := fresh in
      assert (E : has_tag t2 k = false) by (apply (has_tag_other t1 t2 k); [reflexivity|exact H1]);
      rewrite E in H2; discriminate H2
  end.

Lemma update_at_cons i path f e :
  update_at (i :: path) f e = set_children (update_nth i (update_at path f) (children e)) e.
Proof. reflexivity. Qed.

Lemma update_at_nil f e : update_at [] f e = f e.
Proof. reflexivity. Qed.

Lemma update_at_app p q f e : update_at (p ++ q) f e = update_at p (update_at q f) e.
Proof.
  revert e. induction p as [|i p IH]; intros e; [reflexivity|].
  simpl. f_equal. apply update_nth_ext. intros a _. apply IH.
Qed.

Lemma set_children_twice l l' e : set_children l (set_children l' e) = set_children l e.
Proof. reflexivity. Qed.

Lemma set_children_same e : set_children (children e) e = e.
Proof. destruct e. reflexivity. Qed.

Lemma nth_error_lt {A} (l : list A) i a : nth_error l i = Some a -> i < length l.
Proof. intros H. apply nth_error_Some. congruence. Qed.

Lemma update_nth_const_same {A} i (l : list A) a :
  nth_error l i = Some a -> update_nth i (fun _ => a) l = l.
Proof. intros H. apply update_nth_id. congruence. Qed.

Lemma get_set_same name value a : get name (set name value a) = Some value.
Proof.
  induction a as [|[n v] a IH]; simpl.
  - rewrite String.eqb_refl. reflexivity.
  - destruct (String.eqb n name) eqn:E; simpl; rewrite E; [reflexivity|exact IH].
Qed.

Lemma get_set_other name name' value a :
  String.eqb name' name = false -> get name (set name' value a) = get name a.
Proof.
  intros Hne. induction a as [|[n v] a IH]; simpl.
  - rewrite Hne. reflexivity.
  - destruct (String.eqb n name') eqn:E; simpl.
    + apply String.eqb_eq in E. subst n. rewrite Hne. reflexivity.
    + destruct (String.eqb n name); [reflexivity|exact IH].
Qed.

Section Lens.
Context (w : Ws.layout) (Hs : Ws.shape w).

Local Notation "'env'" := (Ws.w_env w).
Local Notation "'header'" := (Ws.w_header w).
Local Notation "'security'" := (Ws.w_security w).
Local Notation "'timestamp'" := (Ws.w_timestamp w).
Local Notation "'body'" := (Ws.w_body w).
Local Notation "'ib'" := (Ws.ib w).
Local Notation "'ih'" := (Ws.ih w).
Local Notation "'is_'" := (Ws.is_ w).
Local Notation "'it'" := (Ws.it w).

Lemma shape_ib_ih : ib <> ih.
Proof.
  intros E. pose proof (Ws.sh_body w Hs) as Hb.
  rewrite E, (Ws.sh_header w Hs) in Hb. injection Hb as Hb.
  pose proof (Ws.sh_header_tag w Hs) as H1.
  pose proof (Ws.sh_body_tag w Hs) as H2.
  rewrite <- Hb in H2. tag_clash.
Qed.

(** The envelope is the document around its own body and timestamp. *)
Lemma document_self :
  Ws.document w body timestamp [] = env.
Proof.
  unfold Ws.document, Ws.env_with, Ws.hdr_with, Ws.sec_with.
  rewrite app_nil_r.
  rewrite (update_nth_const_same it _ timestamp) by apply Hs.
  rewrite set_children_same.
  rewrite (update_nth_const_same is_ _ security) by apply Hs.
  rewrite set_children_same.
  rewrite (update_nth_const_same ih _ header) by apply Hs.
  rewrite (update_nth_const_same ib _ body) by apply Hs.
  apply set_children_same.
Qed.

Context (b t : element) (extra : list element).

Let D := Ws.document w b t extra.
Let S' := Ws.sec_with w t extra.
Let H' := Ws.hdr_with w S'.

Lemma document_children_ib : nth_error (children D) ib = Some b.
Proof.
  unfold D, Ws.document, Ws.env_with. cbn [children set_children].
  rewrite nth_error_update_nth, Nat.eqb_refl, nth_error_update_nth.
  destruct (Nat.eqb ib ih); rewrite (Ws.sh_body w Hs); reflexivity.
Qed.

Lemma document_children_ih : nth_error (children D) ih = Some H'.
Proof.
  unfold D, Ws.document, Ws.env_with. cbn [children set_children].
  rewrite nth_error_update_nth.
  replace (Nat.eqb ih ib) with false
    by (symmetry; apply Nat.eqb_neq; intros E; apply shape_ib_ih; auto).
  rewrite nth_error_update_nth, Nat.eqb_refl, (Ws.sh_header w Hs).
  reflexivity.
Qed.

Lemma document_children_other j :
  j <> ib -> j <> ih -> nth_error (children D) j = nth_error (children env) j.
Proof.
  intros Hb Hh. unfold D, Ws.document, Ws.env_with. cbn [children set_children].
  rewrite nth_error_update_nth.
  replace (Nat.eqb j ib) with false by (symmetry; apply Nat.eqb_neq; exact Hb).
  rewrite nth_error_update_nth.
  replace (Nat.eqb j ih) with false by (symmetry; apply Nat.eqb_neq; exact Hh).
  reflexivity.
Qed.

Lemma header_children_is : nth_error (children H') is_ = Some S'.
Proof.
  unfold H', Ws.hdr_with. cbn [children set_children].
  rewrite nth_error_update_nth, Nat.eqb_refl, (Ws.sh_security w Hs).
  reflexivity.
Qed.

Lemma header_children_other j :
  j <> is_ -> nth_error (children H') j = nth_error (children header) j.
Proof.
  intros Hj. unfold H', Ws.hdr_with. cbn [children set_children].
  rewrite nth_error_update_nth.
  replace (Nat.eqb j is_) with false by (symmetry; apply Nat.eqb_neq; exact Hj).
  reflexivity.
Qed.

Lemma it_lt : it < length (children security).
Proof. eapply nth_error_lt. apply Hs. Qed.

Lemma security_children_it : nth_error (children S') it = Some t.
Proof.
  unfold S', Ws.sec_with. cbn [children set_children].
  rewrite nth_error_app1 by (rewrite length_update_nth; apply it_lt).
  rewrite nth_error_update_nth, Nat.eqb_refl, (Ws.sh_timestamp w Hs).
  reflexivity.
Qed.

Lemma security_children_old j :
  j <> it -> j < length (children security) ->
  nth_error (children S') j = nth_error (children security) j.
Proof.
  intros Hj Hlt. unfold S', Ws.sec_with. cbn [children set_children].
  rewrite nth_error_app1 by (rewrite length_update_nth; exact Hlt).
  rewrite nth_error_update_nth.
  replace (Nat.eqb j it) with false by (symmetry; apply Nat.eqb_neq; exact Hj).
  reflexivity.
Qed.

Lemma security_children_extra j :
  nth_error (children S') (length (children security) + j) = nth_error extra j.
Proof.
  unfold S', Ws.sec_with. cbn [children set_children].
  rewrite nth_error_app2 by (rewrite length_update_nth; lia).
  rewrite length_update_nth. f_equal. lia.
Qed.

(** *** Writes *)

Lemma update_body f :
  update_at [ib] f D = Ws.document w (f b) t extra.
Proof.
  unfold D, Ws.document, Ws.env_with.
  rewrite update_at_cons. cbn [children set_children].
  rewrite update_nth_twice. reflexivity.
Qed.

Lemma update_security path f :
  update_at (ih :: is_ :: path) f D =
  set_children
    (update_nth ib (fun _ => b)
       (update_nth ih (fun _ => Ws.hdr_with w (update_at path f S'))
          (children env))) env.
Proof.
  unfold D, Ws.document, Ws.env_with.
  rewrite update_at_cons. cbn [children set_children].
  rewrite (update_nth_comm _ _ ih ib) by (intros E; apply shape_ib_ih; auto).
  rewrite update_nth_twice.
  unfold Ws.hdr_with at 1. rewrite update_at_cons. cbn [children set_children].
  rewrite update_nth_twice. reflexivity.
Qed.

Lemma update_timestamp path f :
  update_at (ih :: is_ :: it :: path) f D =
  Ws.document w b (update_at path f t) extra.
Proof.
  rewrite update_security. unfold Ws.document, Ws.env_with. do 4 f_equal.
  unfold S', Ws.sec_with. rewrite update_at_cons. cbn [children set_children].
  rewrite update_nth_app_l by (rewrite length_update_nth; apply it_lt).
  rewrite update_nth_twice. reflexivity.
Qed.

Lemma update_extra j path f :
  update_at (ih :: is_ :: (length (children security) + j) :: path) f D =
  Ws.document w b t (update_nth j (update_at path f) extra).
Proof.
  rewrite update_security. unfold Ws.document, Ws.env_with. do 4 f_equal.
  unfold S', Ws.sec_with. rewrite update_at_cons. cbn [children set_children].
  replace (length (children security))
    with (length (update_nth it (fun _ : element => t) (children security)))
    by apply length_update_nth.
  rewrite update_nth_app_r. reflexivity.
Qed.

Lemma append_extra x :
  update_at [ih; is_] (fun s => append s x) D =
  Ws.document w b t (extra ++ [x]).
Proof.
  rewrite update_security. unfold Ws.document, Ws.env_with. do 4 f_equal.
  unfold S', Ws.sec_with. rewrite update_at_nil. unfold append.
  cbn [children set_children]. rewrite <- app_assoc. reflexivity.
Qed.

(** *** Reads *)

Context (Hb : has_tag (Plugin.ns_id "Body" Plugin.envns) b = true).
Context (Ht : has_tag (Plugin.ns_id "Timestamp" Plugin.wsuns) t = true).


Lemma document_is_envelope : has_tag (Plugin.ns_id "Envelope" Plugin.envns) D = true.
Proof. exact (Ws.sh_envelope w Hs). Qed.

Lemma body_xpath_document : Plugin.BODY_XPATH D = [child_loc (root_loc D) ib b].
Proof.
  unfold Plugin.BODY_XPATH. rewrite document_is_envelope.
  apply children_with_only.
  - apply document_children_ib.
  - exact Hb.
  - intros j k Hj Hk. cbn [l_node root_loc] in Hj.
    destruct (Nat.eq_dec j ib) as [|Hnb]; [assumption|].
    destruct (Nat.eq_dec j ih) as [->|Hnh].
    + idtac.
      rewrite document_children_ih in Hj. injection Hj as <-.
      pose proof (Ws.sh_header_tag w Hs) as Hh.
      change (has_tag (Plugin.ns_id "Body" Plugin.envns) header = true) in Hk.
      tag_clash.
    + idtac.
      rewrite document_children_other in Hj by assumption.
      apply (Ws.sh_body_only w Hs j k Hj Hk).
Qed.

Lemma header_xpath_document : Plugin.HEADER_XPATH D = [child_loc (root_loc D) ih H'].
Proof.
  unfold Plugin.HEADER_XPATH. rewrite document_is_envelope.
  apply children_with_only.
  - apply document_children_ih.
  - exact (Ws.sh_header_tag w Hs).
  - intros j k Hj Hk. cbn [l_node root_loc] in Hj.
    destruct (Nat.eq_dec j ih) as [|Hnh]; [assumption|].
    destruct (Nat.eq_dec j ib) as [->|Hnb].
    + idtac.
      rewrite document_children_ib in Hj. injection Hj as <-.
      tag_clash.
    + idtac.
      rewrite document_children_other in Hj by assumption.
      apply (Ws.sh_header_only w Hs j k Hj Hk).
Qed.

Lemma security_xpath_document p :
  l_node p = H' ->
  exists rest, Plugin.SECURITY_XPATH p = child_loc p is_ S' :: rest.
Proof.
  intros Hp. apply children_with_first.
  - rewrite Hp. apply header_children_is.
  - exact (Ws.sh_security_tag w Hs).
  - intros j k Hlt Hj. rewrite Hp in Hj.     rewrite (header_children_other) in Hj by lia.
    apply (Ws.sh_security_first w Hs j k Hlt Hj).
Qed.

Lemma timestamp_xpath_document p :
  l_node p = S' ->
  exists rest, Plugin.TIMESTAMP_XPATH p = child_loc p it t :: rest.
Proof.
  intros Hp. apply children_with_first.
  - rewrite Hp. apply security_children_it.
  - exact Ht.
  - intros j k Hlt Hj. rewrite Hp in Hj.     pose proof it_lt as Hit.
    rewrite (security_children_old) in Hj by lia.
    destruct (has_tag _ k) eqn:E; [|reflexivity].
    pose proof (Ws.sh_timestamp_only w Hs j k Hj E). lia.
Qed.

(** The first [Signature] of the header is the first one among the
    appended elements. *)
Lemma signature_xpath_document p j sg :
  l_node p = S' ->
  nth_error extra j = Some sg ->
  has_tag (Plugin.ns_id "Signature" Plugin.dsns) sg = true ->
  (forall j' k, j' < j -> nth_error extra j' = Some k ->
                has_tag (Plugin.ns_id "Signature" Plugin.dsns) k = false) ->
  exists rest,
    Plugin.SIGNATURE_XPATH p = child_loc p (length (children security) + j) sg :: rest.
Proof.
  intros Hp Hj Hsg Hfirst. apply children_with_first.
  - rewrite Hp. rewrite security_children_extra. exact Hj.
  - exact Hsg.
  - intros j' k Hlt Hk. rewrite Hp in Hk.     destruct (Nat.lt_ge_cases j' (length (children security))) as [Hold|Hnew].
    + destruct (Nat.eq_dec j' it) as [->|Hne].
      * rewrite security_children_it in Hk. injection Hk as <-.
        apply (has_tag_other (Plugin.ns_id "Timestamp" Plugin.wsuns)); [reflexivity|exact Ht].
      * rewrite security_children_old in Hk by assumption.
        apply (Ws.sh_unsigned w Hs). eapply nth_error_In, Hk.
    + replace j' with (length (children security) + (j' - length (children security)))
        in Hk by lia.
      rewrite security_children_extra in Hk.
      apply (Hfirst (j' - length (children security)) k); [lia|exact Hk].
Qed.

End Lens.

(** ** Signing with the WS-Security profile *)

Lemma mark_timestamps_none uuid n kids queue :
  (forall k, In k kids -> has_tag (Plugin.ns_id "Timestamp" Plugin.wsuns) k = false) ->
  Plugin.mark_timestamps uuid n kids queue = (kids, queue, n).
Proof.
  revert queue. induction kids as [|a kids IH]; intros queue H; simpl; [reflexivity|].
  rewrite (H a) by (left; reflexivity).
  rewrite IH by (intros k Hk; apply H; right; exact Hk). reflexivity.
Qed.

Lemma mark_timestamps_only uuid n kids queue i ts :
  nth_error kids i = Some ts ->
  has_tag (Plugin.ns_id "Timestamp" Plugin.wsuns) ts = true ->
  (forall j k, nth_error kids j = Some k ->
               has_tag (Plugin.ns_id "Timestamp" Plugin.wsuns) k = true -> j = i) ->
  Plugin.mark_timestamps uuid n kids queue =
  (update_nth i (set_attr Plugin.WSU_ID (Plugin.get_unique_id (uuid n))) kids,
   queue ++ [Plugin.get_unique_id (uuid n)], S n).
Proof.
  revert i queue. induction kids as [|a kids IH]; intros i queue Hi Hts Honly.
  - destruct i; discriminate.
  - destruct i as [|i]; simpl in Hi.
    + injection Hi as ->. simpl. rewrite Hts.
      rewrite mark_timestamps_none; [reflexivity|].
      intros k Hk. destruct (has_tag _ k) eqn:E; [|reflexivity].
      apply In_nth_error in Hk as [j Hj].
      specialize (Honly (S j) k Hj E). discriminate.
    + simpl.
      destruct (has_tag _ a) eqn:E.
      * specialize (Honly 0 a eq_refl E). discriminate.
      * rewrite (IH i queue Hi Hts); [reflexivity|].
        intros j k Hj Hk. specialize (Honly (S j) k Hj Hk). lia.
Qed.

Lemma signedinfo_xpath_signature p keytype id0 id1 id2 d0 d1 sv :
  l_node p = Ws.signature keytype id0 id1 id2 d0 d1 sv ->
  Plugin.SIGNEDINFO_XPATH p = [child_loc p 0 (Ws.signed_info keytype id0 id1 d0 d1)].
Proof.
  intros Hp. unfold Plugin.SIGNEDINFO_XPATH, children_with. rewrite Hp. reflexivity.
Qed.

Lemma fill_digests_signed_info keytype id0 id1 dg0 dg1 :
  Plugin.fill_digests id0 dg0 id1 dg1 (children (Ws.signed_info keytype id0 id1 None None))
  = Ret (children (Ws.signed_info keytype id0 id1 (Some dg0)
                     (Some (if String.eqb id1 id0 then dg0 else dg1)))).
Proof.
  cbn. rewrite String.eqb_refl. cbn.
  destruct (String.eqb id1 id0); cbn; [reflexivity|].
  rewrite String.eqb_refl. reflexivity.
Qed.

Lemma truncated_eq w t c x :
  nth_error (children t) (Ws.ic w) = Some c ->
  nth_error (children t) (Ws.ie w) = Some x ->
  Ws.ic w <> Ws.ie w ->
  update_at [Ws.ie w] (fun _ => set_text (Some (Ws.seconds (Ws.te w))) x)
    (update_at [Ws.ic w] (fun _ => set_text (Some (Ws.seconds (Ws.tc w))) c) t)
  = Ws.truncated w t.
Proof.
  intros Hc Hx Hne. unfold Ws.truncated.
  rewrite !update_at_cons. unfold set_children.
  cbn [children tag nsmap attrib text]. f_equal.
  rewrite (update_nth_ext (update_at [] (fun _ => set_text (Some (Ws.seconds (Ws.tc w))) c))
             (set_text (Some (Ws.seconds (Ws.tc w)))) (Ws.ic w)).
  - apply update_nth_ext. intros a Ha.
    rewrite nth_error_update_nth in Ha.
    replace (Nat.eqb (Ws.ie w) (Ws.ic w)) with false in Ha
      by (symmetry; apply Nat.eqb_neq; auto).
    cbn. congruence.
  - intros a Ha. cbn. congruence.
Qed.

Section GetSignature.
Context (L : Lib) (Hparse : Laws.parse_tostring L).
Context (w : Ws.layout) (Hs : Ws.shape w) (Hst : Ws.stamped w).
Context (P : Plugin.SignerPlugin) (fs : files) (kb : string) (k : pkey L).
Context (Hkey : fs (Plugin.keyfile P) = Some kb) (Himport : importKey L kb = Some k).
Context (id0 id1 id2 : string) (bst : element).
Context (Hbst : has_tag (Plugin.ns_id "Signature" Plugin.dsns) bst = false).

Let b0 := Ws.signed_body w id0.
Let t0 := set_attr Plugin.WSU_ID id1 (Ws.w_timestamp w).
Let sg0 := Ws.signature (Plugin.keytype P) id0 id1 id2 None None None.

Lemma get_signature_eq :
  Plugin.get_signature L P fs (tostring L Plain (Ws.document w b0 t0 [bst; sg0])) =
  Ret (tostring L Plain
         (Ws.document w b0 (Ws.signed_timestamp w id1)
            [bst; Ws.signed_signature L w (Plugin.keytype P) id0 id1 id2 k])).
Proof.
  assert (Hb0 : has_tag (Plugin.ns_id "Body" Plugin.envns) b0 = true)
    by exact (Ws.sh_body_tag w Hs).
  assert (Ht0 : has_tag (Plugin.ns_id "Timestamp" Plugin.wsuns) t0 = true)
    by exact (Ws.sh_timestamp_tag w Hs).
  destruct (Ws.st_created w Hst) as (c & Hc & Hctag & Hctext).
  destruct (Ws.st_expires w Hst) as (x & Hx & Hxtag & Hxtext).
  assert (Hne : Ws.ic w <> Ws.ie w).
  { intros E. rewrite E, Hx in Hc. injection Hc as Hc. rewrite Hc in Hxtag. tag_clash. }
  unfold Plugin.get_signature. rewrite Hparse.
  rewrite (body_xpath_document w Hs b0 t0 _ Hb0). cbn [Plugin.first bind].
  unfold Plugin.attrib_item at 1. cbn [l_node child_loc].
  unfold b0 at 1, Ws.signed_body, set_attr. cbn [attrib].
  rewrite get_set_same. cbn [bind].
  rewrite (calculate_digest_tostring L Hparse). cbn [bind].
  rewrite (header_xpath_document w Hs b0 t0 _ Hb0). cbn [Plugin.first bind].
  match goal with |- context [Plugin.SECURITY_XPATH ?p] =>
    destruct (security_xpath_document w Hs t0 [bst; sg0] p eq_refl) as [r1 ->] end.
  cbn [Plugin.first bind].
  match goal with |- context [Plugin.TIMESTAMP_XPATH ?p] =>
    destruct (timestamp_xpath_document w Hs t0 [bst; sg0] Ht0 p eq_refl) as [r2 ->] end.
  cbn [Plugin.first bind].
  unfold Plugin.attrib_item at 1. cbn [l_node child_loc].
  unfold t0 at 1, set_attr. cbn [attrib].
  rewrite get_set_same. cbn [bind].
  (* the two instants *)
  match goal with |- context [Plugin.CREATED_XPATH ?p] =>
    destruct (children_with_first (Plugin.ns_id "Created" Plugin.wsuns) p (Ws.ic w) c Hc Hctag
                (Ws.st_created_first w Hst)) as [r3 Hr3] end.
  unfold Plugin.CREATED_XPATH at 1. rewrite Hr3. clear Hr3. cbn [Plugin.first bind].
  match goal with |- context [Plugin.EXPIRED_XPATH ?p] =>
    destruct (children_with_first (Plugin.ns_id "Expires" Plugin.wsuns) p (Ws.ie w) x Hx Hxtag
                (Ws.st_expires_first w Hst)) as [r4 Hr4] end.
  unfold Plugin.EXPIRED_XPATH at 1. rewrite Hr4. clear Hr4. cbn [Plugin.first bind].
  unfold Plugin.whole_seconds. cbn [l_node child_loc]. rewrite Hctext, Hxtext.
  cbn [bind l_path child_loc root_loc app].
  rewrite (update_timestamp w Hs), (update_timestamp w Hs).
  fold (Ws.seconds (Ws.tc w)). fold (Ws.seconds (Ws.te w)).
  rewrite (truncated_eq w t0 c x Hc Hx Hne).
  fold (Ws.signed_timestamp w id1).
  assert (Ht2 : has_tag (Plugin.ns_id "Timestamp" Plugin.wsuns) (Ws.signed_timestamp w id1) = true)
    by exact (Ws.sh_timestamp_tag w Hs).
  rewrite (header_xpath_document w Hs b0 _ _ Hb0). cbn [Plugin.first bind].
  match goal with |- context [Plugin.SECURITY_XPATH ?p] =>
    destruct (security_xpath_document w Hs (Ws.signed_timestamp w id1) [bst; sg0] p eq_refl)
      as [r5 ->] end.
  cbn [Plugin.first bind].
  match goal with |- context [Plugin.TIMESTAMP_XPATH ?p] =>
    destruct (timestamp_xpath_document w Hs (Ws.signed_timestamp w id1) [bst; sg0] Ht2 p eq_refl)
      as [r6 ->] end.
  cbn [Plugin.first bind].
  rewrite (calculate_digest_tostring L Hparse). cbn [bind].
  match goal with |- context [Plugin.SIGNATURE_XPATH ?p] =>
    destruct (signature_xpath_document w Hs (Ws.signed_timestamp w id1) [bst; sg0] Ht2 p 1 sg0
                eq_refl eq_refl eq_refl) as [r7 ->] end.
  { intros [|j'] k' Hlt Hk'; [|lia]. injection Hk' as <-. exact Hbst. }
  cbn [Plugin.first bind].
  match goal with |- context [Plugin.SIGNEDINFO_XPATH ?p] =>
    rewrite (signedinfo_xpath_signature p (Plugin.keytype P) id0 id1 id2 None None None eq_refl)
  end.
  cbn [Plugin.first bind l_node child_loc].
  rewrite fill_digests_signed_info. cbn [bind].
  unfold calculate_signature_value. rewrite (canonicalizate_tostring L Hparse).
  cbn [bind]. rewrite Hkey, Himport.
  replace (find_index (has_tag DS_SignatureValue) (children sg0)) with (Some 1)
    by reflexivity.
  cbn [bind l_path child_loc root_loc app].
  rewrite (update_extra w Hs), (update_extra w Hs).
  reflexivity.
Qed.

End GetSignature.

Section Sending.
Context (L : Lib) (Hparse : Laws.parse_tostring L).
Context (w : Ws.layout) (Hs : Ws.shape w) (Hst : Ws.stamped w).
Context (P : Plugin.SignerPlugin) (fs : files) (kb content : string) (k : pkey L).
Context (Hkey : fs (Plugin.keyfile P) = Some kb) (Himport : importKey L kb = Some k).
Context (Hcert : fs (Plugin.certificate P) = Some content).
Context (uuid : nat -> string).

Local Notation "'id0'" := (Plugin.get_unique_id (uuid 0)).
Local Notation "'id1'" := (Plugin.get_unique_id (uuid 1)).
Local Notation "'id2'" := (Plugin.get_unique_id (uuid 2)).

Lemma sec_with_self : Ws.sec_with w (Ws.w_timestamp w) [] = Ws.w_security w.
Proof.
  unfold Ws.sec_with. rewrite app_nil_r.
  rewrite (update_nth_const_same _ _ (Ws.w_timestamp w)) by apply Hs.
  apply set_children_same.
Qed.

Lemma mark_document b :
  update_at [Ws.ih w; Ws.is_ w]
    (set_children (update_nth (Ws.it w) (set_attr Plugin.WSU_ID id1)
                              (children (Ws.w_security w))))
    (Ws.document w b (Ws.w_timestamp w) [])
  = Ws.document w b (set_attr Plugin.WSU_ID id1 (Ws.w_timestamp w)) [].
Proof.
  rewrite (update_security w Hs). unfold Ws.document, Ws.env_with.
  rewrite update_at_nil, sec_with_self. unfold Ws.sec_with. rewrite app_nil_r.
  rewrite (update_nth_ext (set_attr Plugin.WSU_ID id1)
             (fun _ => set_attr Plugin.WSU_ID id1 (Ws.w_timestamp w)) (Ws.it w)).
  - reflexivity.
  - intros a Ha. rewrite (Ws.sh_timestamp w Hs) in Ha. congruence.
Qed.

Lemma sending_eq x :
  fromstring L x = Some (Ws.w_env w) ->
  Plugin.sending L P uuid fs x =
  Ret (tostring L Plain (Ws.signed L w (Plugin.keytype P) id0 id1 id2 k content)).
Proof.
  intros Hx. unfold Plugin.sending. rewrite Hx.
  pose proof (body_xpath_document w Hs (Ws.w_body w) (Ws.w_timestamp w) []
                (Ws.sh_body_tag w Hs)) as HB.
  rewrite (document_self w Hs) in HB. rewrite HB. clear HB.
  cbn [Plugin.only bind l_path child_loc root_loc app].
  rewrite <- (document_self w Hs) at 1.
  rewrite update_body.
  unfold Plugin.ensure_security_header.
  rewrite (header_xpath_document w Hs).
  2:{ exact (Ws.sh_body_tag w Hs). }
  cbn [Plugin.only bind].
  match goal with |- context [Plugin.SECURITY_XPATH ?p] =>
    destruct (security_xpath_document w Hs (Ws.w_timestamp w) [] p eq_refl) as [r1 ->] end.
  cbn [l_node child_loc]. rewrite sec_with_self.
  rewrite (mark_timestamps_only uuid 1 _ _ (Ws.it w) (Ws.w_timestamp w)
             (Ws.sh_timestamp w Hs) (Ws.sh_timestamp_tag w Hs) (Ws.sh_timestamp_only w Hs)).
  cbn [bind l_path child_loc root_loc app].
  rewrite mark_document.
  unfold Plugin.binary_security_token. rewrite Hcert. cbn [bind].
  rewrite (append_extra w Hs), (append_extra w Hs). cbn [app].
  apply (get_signature_eq L Hparse w Hs Hst P fs kb k Hkey Himport id0 id1 id2).
  reflexivity.
Qed.

End Sending.

(** ** Looking an element up in a WS-Security envelope *)

Lemma forallb_flat_map {A B} (P : B -> bool) (f : A -> list B) l :
  forallb P (flat_map f l) = forallb (fun a => forallb P (f a)) l.
Proof.
  induction l as [|a l IH]; simpl; [reflexivity|].
  rewrite forallb_app, IH. reflexivity.
Qed.

Lemma forallb_nth_error {A} (P : A -> bool) l i a :
  forallb P l = true -> nth_error l i = Some a -> P a = true.
Proof.
  intros H Hi. rewrite forallb_forall in H. apply H. eapply nth_error_In, Hi.
Qed.

Lemma in_walk_child e i k n path scope parent :
  nth_error (children e) i = Some k ->
  In n (walk (path ++ [i]) (ns_merge (nsmap e) scope) (Some e) k) ->
  In n (walk path scope parent e).
Proof.
  intros Hi Hn. rewrite walk_eq. right.
  assert (H : forall i0 l, nth_error l i = Some k ->
            In n (walk (path ++ [i0 + i]) (ns_merge (nsmap e) scope) (Some e) k) ->
            In n (flat_mapi (fun i k => walk (path ++ [i]) (ns_merge (nsmap e) scope) (Some e) k)
                            i0 l)).
  { clear Hi Hn. revert i. intros i i0 l. revert i i0.
    induction l as [|a l IH]; intros i i0 Hi Hn; [destruct i; discriminate|].
    simpl. apply in_or_app. destruct i as [|i]; simpl in Hi.
    - injection Hi as ->. left. rewrite Nat.add_0_r in Hn. exact Hn.
    - right. apply (IH i (S i0) Hi). replace (S i0 + i) with (i0 + S i) by lia. exact Hn. }
  apply (H 0 _ Hi). exact Hn.
Qed.

Section Lookup.
Context (w : Ws.layout) (Hs : Ws.shape w).
Context (b t : element) (extra : list element).
Context (q : string -> list (string * string) -> bool).

Let Q := fun e : element => q (tag e) (attrib e).
Let QL := fun n : located => q (tag (l_node n)) (attrib (l_node n)).
Let D := Ws.document w b t extra.
Let S' := Ws.sec_with w t extra.
Let H' := Ws.hdr_with w S'.

Context (Henv : forallb (fun k => negb (Q k)) (elements (Ws.w_env w)) = true).

Lemma env_child_free j k path scope parent :
  nth_error (children (Ws.w_env w)) j = Some k ->
  filter QL (walk path scope parent k) = [].
Proof.
  intros Hj. apply (filter_walk_nil Q).
  apply (forallb_elements_child _ _ k Henv). eapply nth_error_In, Hj.
Qed.

Lemma header_free : forallb (fun k => negb (Q k)) (elements (Ws.w_header w)) = true.
Proof.
  apply (forallb_elements_child _ _ _ Henv). eapply nth_error_In. apply Hs.
Qed.

Lemma security_free : forallb (fun k => negb (Q k)) (elements (Ws.w_security w)) = true.
Proof.
  apply (forallb_elements_child _ _ _ header_free). eapply nth_error_In. apply Hs.
Qed.

Local Notation "'below_security'" := (Ws.below_security w t extra q).

Lemma filter_security path parent :
  path = [Ws.ih w; Ws.is_ w] ->
  filter QL (walk path (ns_merge (nsmap (Ws.w_header w)) (ns_merge (nsmap (Ws.w_env w)) []))
                  parent S')
  = below_security.
Proof.
  intros ->. rewrite walk_eq. cbn [filter].
  replace (QL _) with false.
  2:{ symmetry. pose proof (forallb_elements_root _ _ security_free) as H.
      apply negb_true_iff in H. exact H. }
  unfold S' at 3, Ws.sec_with. cbn [children set_children nsmap].
  rewrite flat_mapi_app, filter_app. unfold Ws.below_security. f_equal.
  - rewrite (filter_flat_mapi_single QL _ 0 _ (Ws.it w) t).
    + reflexivity.
    + rewrite nth_error_update_nth, Nat.eqb_refl, (Ws.sh_timestamp w Hs). reflexivity.
    + intros j k Hj Hne. rewrite nth_error_update_nth in Hj.
      replace (Nat.eqb j (Ws.it w)) with false in Hj
        by (symmetry; apply Nat.eqb_neq; exact Hne).
      apply (filter_walk_nil Q).
      apply (forallb_elements_child _ _ _ security_free). eapply nth_error_In, Hj.
  - rewrite length_update_nth. reflexivity.
Qed.

Lemma filter_header path parent :
  path = [Ws.ih w] ->
  filter QL (walk path (ns_merge (nsmap (Ws.w_env w)) []) parent H') = below_security.
Proof.
  intros ->. rewrite walk_eq. cbn [filter].
  replace (QL _) with false.
  2:{ symmetry. pose proof (forallb_elements_root _ _ header_free) as H.
      apply negb_true_iff in H. exact H. }
  unfold H' at 2, Ws.hdr_with. cbn [children set_children nsmap].
  rewrite (filter_flat_mapi_single QL _ 0 _ (Ws.is_ w) S').
  - apply filter_security. reflexivity.
  - apply (header_children_is w Hs).
  - intros j k Hj Hne. unfold H', S' in Hj. rewrite header_children_other in Hj by exact Hne.
    apply (filter_walk_nil Q).
    apply (forallb_elements_child _ _ _ header_free). eapply nth_error_In, Hj.
Qed.

Lemma root_free : QL (Loc [] [] None D) = false.
Proof.
  pose proof (forallb_elements_root _ _ Henv) as H. apply negb_true_iff in H. exact H.
Qed.

(** A lookup that finds nothing in the body finds what it finds below
    the security header. *)
Lemma filter_document_header :
  forallb (fun k => negb (Q k)) (elements b) = true ->
  filter QL (walk_root D) = below_security.
Proof.
  intros Hb. unfold walk_root. rewrite walk_eq. cbn [filter].
  rewrite root_free.
  rewrite (filter_flat_mapi_single QL _ 0 _ (Ws.ih w) H').
  - apply filter_header. reflexivity.
  - apply (document_children_ih w Hs).
  - intros j k Hj Hne. unfold D in Hj.
    destruct (Nat.eq_dec j (Ws.ib w)) as [->|Hnb].
    + rewrite (document_children_ib w Hs) in Hj. injection Hj as <-.
      apply (filter_walk_nil Q). exact Hb.
    + rewrite document_children_other in Hj by assumption.
      eapply env_child_free, Hj.
Qed.

(** A lookup that finds nothing below the security header finds what it
    finds in the body. *)
Lemma filter_document_body :
  below_security = [] ->
  filter QL (walk_root D) =
  filter QL (walk [Ws.ib w] (ns_merge (nsmap (Ws.w_env w)) []) (Some D) b).
Proof.
  intros Hnil. unfold walk_root. rewrite walk_eq. cbn [filter].
  rewrite root_free.
  rewrite (filter_flat_mapi_single QL _ 0 _ (Ws.ib w) b).
  - reflexivity.
  - apply (document_children_ib w Hs).
  - intros j k Hj Hne. unfold D in Hj.
    destruct (Nat.eq_dec j (Ws.ih w)) as [->|Hnh].
    + rewrite (document_children_ih w Hs) in Hj. injection Hj as <-.
      rewrite <- Hnil. apply filter_header. reflexivity.
    + rewrite document_children_other in Hj by assumption.
      eapply env_child_free, Hj.
Qed.

End Lookup.

(** ** Validating an envelope of the WS-Security profile *)

Lemma id_free_id ids e i :
  Ws.id_free ids e = true -> In i ids ->
  forallb (fun k => negb (opt_eqb (get Plugin.WSU_ID (attrib k)) (Some i))) (elements e) = true.
Proof.
  unfold Ws.id_free. rewrite !forallb_forall. intros H Hi k Hk.
  specialize (H k Hk). apply negb_true_iff in H. apply negb_true_iff.
  destruct (opt_eqb _ (Some i)) eqn:E; [|reflexivity].
  rewrite <- H. symmetry. apply existsb_exists. exists i. split; assumption.
Qed.

Lemma children_id_free ids kids i :
  forallb (Ws.id_free ids) kids = true -> In i ids ->
  forallb (fun k => forallb (fun x => negb (opt_eqb (get Plugin.WSU_ID (attrib x)) (Some i)))
                            (elements k)) kids = true.
Proof.
  rewrite !forallb_forall. intros H Hi k Hk. apply (id_free_id ids); auto.
Qed.

Lemma elements_free_intro (Q : element -> bool) e :
  Q e = false ->
  forallb (fun k => forallb (fun x => negb (Q x)) (elements k)) (children e) = true ->
  forallb (fun x => negb (Q x)) (elements e) = true.
Proof.
  intros Hroot Hkids. rewrite elements_eq. cbn [forallb]. rewrite Hroot. cbn.
  rewrite forallb_flat_map. exact Hkids.
Qed.

Lemma filter_walk_root_only (Q : element -> bool) path scope parent e :
  Q e = true ->
  forallb (fun k => forallb (fun x => negb (Q x)) (elements k)) (children e) = true ->
  filter (fun n => Q (l_node n)) (walk path scope parent e) = [Loc path scope parent e].
Proof.
  intros Hroot Hkids. rewrite walk_eq. cbn [filter l_node]. rewrite Hroot. f_equal.
  apply filter_flat_mapi_nil. intros j k Hj. apply (filter_walk_nil Q).
  apply (forallb_nth_error _ _ _ _ Hkids Hj).
Qed.

Lemma eqb_neq_false a b : a <> b -> String.eqb a b = false.
Proof. intros H. apply String.eqb_neq. exact H. Qed.

Section XPathWs.
Context (w : Ws.layout) (Hs : Ws.shape w).
Context (b t : element) (extra : list element).

(** A tag that neither the envelope nor the replaced body and timestamp
    use is found in the appended elements only. *)
Lemma xpath_all_ws T :
  forallb (fun k => negb (has_tag T k)) (elements (Ws.w_env w)) = true ->
  forallb (fun k => negb (has_tag T k)) (elements b) = true ->
  forallb (fun k => negb (has_tag T k)) (elements t) = true ->
  xpath_all (Ws.document w b t extra) T =
  filter (fun n => has_tag T (l_node n))
    (flat_mapi (fun i k => walk ([Ws.ih w; Ws.is_ w] ++ [i]) (Ws.security_scope w)
                                (Some (Ws.sec_with w t extra)) k)
               (length (children (Ws.w_security w))) extra).
Proof.
  intros Henv Hb Ht.
  pose proof (filter_document_header w Hs b t extra (fun t _ => String.eqb t T) Henv Hb) as H.
  unfold Ws.below_security in H.
  rewrite (filter_walk_nil (has_tag T)) in H by exact Ht.
  exact H.
Qed.

(** An element found in one of the appended elements is found in the
    document. *)
Lemma in_walk_extra j k n :
  nth_error extra j = Some k ->
  In n (walk [Ws.ih w; Ws.is_ w; length (children (Ws.w_security w)) + j]
             (Ws.security_scope w) (Some (Ws.sec_with w t extra)) k) ->
  In n (walk_root (Ws.document w b t extra)).
Proof.
  intros Hj Hn. unfold walk_root.
  eapply (in_walk_child _ (Ws.ih w)); [apply (document_children_ih w Hs)|].
  eapply (in_walk_child _ (Ws.is_ w)); [apply (header_children_is w Hs)|].
  eapply (in_walk_child _ (length (children (Ws.w_security w)) + j)).
  - rewrite security_children_extra. exact Hj.
  - exact Hn.
Qed.

Lemma xpath_all_ws_found T j k :
  nth_error extra j = Some k ->
  existsb (fun n => has_tag T (l_node n))
          (walk [Ws.ih w; Ws.is_ w; length (children (Ws.w_security w)) + j]
                (Ws.security_scope w) (Some (Ws.sec_with w t extra)) k) = true ->
  exists n' rest, xpath_all (Ws.document w b t extra) T = n' :: rest.
Proof.
  intros Hj Hex. apply existsb_exists in Hex as (n & Hn & HT).
  assert (Hin : In n (xpath_all (Ws.document w b t extra) T)).
  { apply filter_In. split; [|exact HT]. eapply in_walk_extra; eassumption. }
  destruct (xpath_all _ T) as [|n' rest]; [destruct Hin|]. eauto.
Qed.

End XPathWs.

Section ValidateWs.
Context (L : Lib) (Hparse : Laws.parse_tostring L).
Context (w : Ws.layout) (Hs : Ws.shape w).
Context (b t : element) (keytype id0 id1 id2 dg0 dg1 sv cert : string).

Let si := Ws.signed_info keytype id0 id1 (Some dg0) (Some dg1).
Let sg := Ws.signature keytype id0 id1 id2 (Some dg0) (Some dg1) (Some sv).
Let tk := Ws.token id2 cert.
Let D := Ws.document w b t [tk; sg].
Let S' := Ws.sec_with w t [tk; sg].

Context (Hwsu : resolve_prefix (nsmap (Ws.w_env w)) "wsu" = Ret (snd Plugin.wsuns)).
Context (Hwsse : resolve_prefix (nsmap (Ws.w_env w)) "wsse" = Ret (snd Plugin.wssens)).
Context (Hfree_env : free_of Ws.reserved_tags (Ws.w_env w) = true).
Context (Hfree_b : free_of Ws.reserved_tags b = true).
Context (Hfree_t : free_of Ws.reserved_tags t = true).
Context (Hids_env : Ws.id_free [id0; id1] (Ws.w_env w) = true).
Context (Hb_id : get Plugin.WSU_ID (attrib b) = Some id0).
Context (Hb_kids : forallb (Ws.id_free [id0; id1]) (children b) = true).
Context (Ht_id : get Plugin.WSU_ID (attrib t) = Some id1).
Context (Ht_kids : forallb (Ws.id_free [id0; id1]) (children t) = true).
Context (H01 : id0 <> id1) (H20 : id2 <> id0) (H21 : id2 <> id1).
Context (Hq0 : contains "'" id0 = false) (Hq1 : contains "'" id1 = false).

Let sig_loc :=
  Loc [Ws.ih w; Ws.is_ w; S (length (children (Ws.w_security w)))]
      (Ws.security_scope w) (Some S') sg.

Ltac reserved H := apply (free_of_tag _ _ _ H); simpl; tauto.

Lemma xpath_signature_ws : xpath_all D DS_Signature = [sig_loc].
Proof.
  unfold D. rewrite (xpath_all_ws w Hs) by (first [reserved Hfree_env|reserved Hfree_b|reserved Hfree_t]).
  reflexivity.
Qed.

Lemma scan_ws :
  scan scan0 (walk_from sig_loc) =
  Ret {| digestvalues := [(Some ("#" ++ id0)%string, Some dg0); (Some ("#" ++ id1)%string, Some dg1)];
         signed_info := Some (Loc (l_path sig_loc ++ [0]) (ns_merge [] (Ws.security_scope w))
                                  (Some sg) si);
         signaturevalue := Some sv |}.
Proof.
  unfold walk_from, sig_loc. cbn.
  rewrite (eqb_neq_false _ _ H01). reflexivity.
Qed.

Lemma get_certificate_ws m : get_certificate L (tostring L m D) = Ret (Some cert).
Proof.
  unfold get_certificate. rewrite Hparse. unfold D.
  destruct (xpath_all_ws_found w Hs b t [tk; sg] DS_KeyInfo 1 sg eq_refl eq_refl)
    as (n1 & r1 & ->).
  destruct (xpath_all_ws_found w Hs b t [tk; sg] WSSE_Reference 1 sg eq_refl eq_refl)
    as (n2 & r2 & ->).
  change (nsmap (Ws.document w b t [tk; sg])) with (nsmap (Ws.w_env w)).
  rewrite Hwsse. cbn [bind].
  rewrite (xpath_all_ws w Hs) by (first [reserved Hfree_env|reserved Hfree_b|reserved Hfree_t]).
  reflexivity.
Qed.

Lemma read_flags_ws : read_flags D = Some (false, true).
Proof.
  unfold read_flags, D.
  rewrite (xpath_all_ws w Hs) by (first [reserved Hfree_env|reserved Hfree_b|reserved Hfree_t]).
  reflexivity.
Qed.

Let body_loc := Loc [Ws.ib w] (ns_merge (nsmap (Ws.w_env w)) []) (Some D) b.
Let timestamp_loc := Loc [Ws.ih w; Ws.is_ w; Ws.it w] (Ws.security_scope w) (Some S') t.

Local Notation "'has_id' i" :=
  (fun (_ : string) (a : list (string * string)) => opt_eqb (get Plugin.WSU_ID a) (Some i))
  (at level 10).

Lemma not_id_neq i j a : get Plugin.WSU_ID a = Some i -> i <> j ->
  opt_eqb (get Plugin.WSU_ID a) (Some j) = false.
Proof. intros -> H. simpl. apply eqb_neq_false. exact H. Qed.

Lemma xpath_id0 : xpath_id L D id0 = Ret [body_loc].
Proof.
  unfold xpath_id. change (nsmap D) with (nsmap (Ws.w_env w)). rewrite Hwsu. cbn [bind].
  rewrite Hq0. f_equal.
  pose proof (filter_document_body w Hs b t [tk; sg] (has_id id0)) as H.
  cbv beta in H. unfold D. etransitivity; [apply H|]; clear H.
  - apply (id_free_id _ _ _ Hids_env). simpl; tauto.
  - unfold Ws.below_security.
    rewrite (filter_walk_nil (fun e => opt_eqb (get Plugin.WSU_ID (attrib e)) (Some id0))).
    + cbn [flat_mapi app filter]. unfold tk, Ws.token. cbn [walk children flat_mapi l_node attrib filter app].
      rewrite get_set_same. cbn [opt_eqb]. rewrite (eqb_neq_false _ _ H20).
      reflexivity.
    + apply elements_free_intro.
      * apply (not_id_neq _ _ _ Ht_id). auto.
      * apply (children_id_free _ _ _ Ht_kids). simpl; tauto.
  - apply (filter_walk_root_only (fun e => opt_eqb (get Plugin.WSU_ID (attrib e)) (Some id0))).
    + rewrite Hb_id. apply opt_eqb_refl.
    + apply (children_id_free _ _ _ Hb_kids). simpl; tauto.
Qed.

Lemma xpath_id1 : xpath_id L D id1 = Ret [timestamp_loc].
Proof.
  unfold xpath_id. change (nsmap D) with (nsmap (Ws.w_env w)). rewrite Hwsu. cbn [bind].
  rewrite Hq1. f_equal.
  pose proof (filter_document_header w Hs b t [tk; sg] (has_id id1)) as H.
  cbv beta in H. unfold D. etransitivity; [apply H|]; clear H.
  - apply (id_free_id _ _ _ Hids_env). simpl; tauto.
  - apply elements_free_intro.
    + apply (not_id_neq _ _ _ Hb_id). auto.
    + apply (children_id_free _ _ _ Hb_kids). simpl; tauto.
  - unfold Ws.below_security.
    rewrite (filter_walk_root_only (fun e => opt_eqb (get Plugin.WSU_ID (attrib e)) (Some id1))).
    + cbn [flat_mapi app filter]. unfold tk, Ws.token. cbn [walk children flat_mapi l_node attrib filter app].
      rewrite get_set_same. cbn [opt_eqb]. rewrite (eqb_neq_false _ _ H21).
      reflexivity.
    + rewrite Ht_id. apply opt_eqb_refl.
    + apply (children_id_free _ _ _ Ht_kids). simpl; tauto.
Qed.

Lemma digest_loop_ws :
  digest_loop L D sig_loc
    [(Some ("#" ++ id0)%string, Some dg0); (Some ("#" ++ id1)%string, Some dg1)] true false
  = Ret (String.eqb (Ws.digest_of L (Ws.body_alone w b)) dg0 &&
         String.eqb (Ws.digest_of L (Ws.timestamp_alone w t)) dg1).
Proof.
  cbn [digest_loop append String.eqb drop1 String.append].
  cbn [Ascii.eqb Bool.eqb].
  rewrite xpath_id0. cbn [bind]. rewrite (calculate_digest_tostring L Hparse).
  cbn [bind fst snd opt_eqb].
  change (b64encode L (sha1 L (write_c14n L false true (standalone body_loc))))
    with (Ws.digest_of L (Ws.body_alone w b)).
  destruct (String.eqb (Ws.digest_of L (Ws.body_alone w b)) dg0); [|reflexivity].
  rewrite xpath_id1. cbn [bind]. rewrite (calculate_digest_tostring L Hparse).
  cbn [bind fst snd opt_eqb].
  change (b64encode L (sha1 L (write_c14n L false true (standalone timestamp_loc))))
    with (Ws.digest_of L (Ws.timestamp_alone w t)).
  destruct (String.eqb _ dg1); reflexivity.
Qed.

(** What [validate] computes on an envelope that carries a signature of
    the WS-Security profile over the body [b] and the timestamp [t]. *)
Lemma validate_ws env m cb svb :
  b64decode L cert = Some cb ->
  b64decode L sv = Some svb ->
  validate L env (tostring L m D) =
  if String.eqb (Ws.digest_of L (Ws.body_alone w b)) dg0 &&
     String.eqb (Ws.digest_of L (Ws.timestamp_alone w t)) dg1
  then
    match fst (check_revocation_status L env cb) with
    | Ret true => Ret false
    | Ret false =>
        match load_certificate L cb with
        | None => Ret false
        | Some c =>
            if crypto_verify L c svb (write_c14n L false true (Ws.info_alone w si))
            then Ret true else Ret false
        end
    | Raise ValueError => Ret false
    | Raise e => Raise e
    end
  else Ret false.
Proof.
  intros Hcert Hsv.
  unfold validate. rewrite get_certificate_ws. rewrite Hparse.
  rewrite xpath_signature_ws, scan_ws.
  cbn [bind signaturevalue signed_info digestvalues].
  unfold b64decode_. rewrite Hcert, Hsv. cbn [bind].
  rewrite read_flags_ws.
  rewrite (canonicalizate_tostring L Hparse). cbn [bind].
  rewrite digest_loop_ws. cbn [bind].
  change (standalone _) with (Ws.info_alone w si).
  destruct (_ && _); reflexivity.
Qed.

End ValidateWs.

(** ** The lookups of [Ws.locate] *)

Lemma find_index_spec {A} (p : A -> bool) l i :
  find_index p l = Some i ->
  (exists a, nth_error l i = Some a /\ p a = true) /\
  (forall j k, j < i -> nth_error l j = Some k -> p k = false).
Proof.
  revert i. induction l as [|a l IH]; intros i H; simpl in H; [discriminate|].
  destruct (p a) eqn:E.
  - injection H as <-. split; [exists a; auto|]. intros j k Hj. lia.
  - destruct (find_index p l) as [i'|]; [|discriminate].
    injection H as <-. destruct (IH i' eq_refl) as [Hex Hfirst].
    split; [exact Hex|].
    intros [|j] k Hj Hk; simpl in Hk.
    + injection Hk as <-. exact E.
    + apply (Hfirst j k); [lia|exact Hk].
Qed.

Lemma find_indices_ge {A} (p : A -> bool) i0 l i :
  In i (find_indices p i0 l) -> i0 <= i.
Proof.
  revert i0. induction l as [|a l IH]; intros i0 H; simpl in H; [contradiction|].
  destruct (p a).
  - destruct H as [<-|H]; [lia|]. apply IH in H. lia.
  - apply IH in H. lia.
Qed.

Lemma find_indices_in {A} (p : A -> bool) i0 l j k :
  nth_error l j = Some k -> p k = true -> In (i0 + j) (find_indices p i0 l).
Proof.
  revert i0 j. induction l as [|a l IH]; intros i0 j Hj Hk; [destruct j; discriminate|].
  simpl. destruct j as [|j]; simpl in Hj.
  - injection Hj as ->. rewrite Hk, Nat.add_0_r. left. reflexivity.
  - replace (i0 + S j) with (S i0 + j) by lia.
    destruct (p a); [right|]; apply IH; assumption.
Qed.

Lemma find_indices_only {A} (p : A -> bool) l i :
  find_indices p 0 l = [i] ->
  forall j k, nth_error l j = Some k -> p k = true -> j = i.
Proof.
  intros H j k Hj Hk.
  pose proof (find_indices_in p 0 l j k Hj Hk) as Hin.
  rewrite H in Hin. simpl in Hin. destruct Hin as [<-|[]]. reflexivity.
Qed.

Lemma find_indices_sat {A} (p : A -> bool) i0 l i :
  In i (find_indices p i0 l) -> exists a, nth_error l (i - i0) = Some a /\ p a = true.
Proof.
  revert i0. induction l as [|a l IH]; intros i0 H; simpl in H; [contradiction|].
  destruct (p a) eqn:E.
  - destruct H as [<-|H].
    + rewrite Nat.sub_diag. exists a. auto.
    + pose proof (find_indices_ge _ _ _ _ H) as Hge.
      destruct (IH _ H) as [x [Hx Hp]]. exists x. split; [|exact Hp].
      replace (i - i0) with (S (i - S i0)) by lia. exact Hx.
  - pose proof (find_indices_ge _ _ _ _ H) as Hge.
    destruct (IH _ H) as [x [Hx Hp]]. exists x. split; [|exact Hp].
    replace (i - i0) with (S (i - S i0)) by lia. exact Hx.
Qed.

Lemma locate_shape e w :
  Ws.locate e = Some w -> Ws.w_env w = e /\ Ws.shape w /\ Ws.stamped w.
Proof.
  unfold Ws.locate. intros H.
  destruct (has_tag _ e) eqn:Eenv; [|discriminate].
  destruct (find_indices _ 0 (children e)) as [|b [|? ?]] eqn:Eb; try discriminate.
  destruct (find_indices (has_tag (Plugin.ns_id "Header" Plugin.envns)) 0 (children e))
    as [|h [|? ?]] eqn:Eh; try discriminate.
  destruct (nth_error (children e) b) as [body|] eqn:Ebody; [|discriminate].
  destruct (nth_error (children e) h) as [header|] eqn:Eheader; [|discriminate].
  destruct (find_index _ (children header)) as [s|] eqn:Es; [|discriminate].
  destruct (nth_error (children header) s) as [security|] eqn:Esec; [|discriminate].
  destruct (find_indices _ 0 (children security)) as [|t [|? ?]] eqn:Et; try discriminate.
  destruct (nth_error (children security) t) as [timestamp|] eqn:Ets; [|discriminate].
  destruct (existsb _ (children security)) eqn:Esig; [discriminate|].
  destruct (find_index _ (children timestamp)) as [c|] eqn:Ec; [|discriminate].
  destruct (find_index (has_tag (Plugin.ns_id "Expires" Plugin.wsuns)) (children timestamp))
    as [x|] eqn:Ex; [|discriminate].
  destruct (nth_error (children timestamp) c) as [created|] eqn:Ecr;
    destruct (nth_error (children timestamp) x) as [expires|] eqn:Eexp;
    cbn [option_map] in H; try discriminate;
    try (destruct (text created); discriminate).
  destruct (text created) as [tcr|] eqn:Etc; destruct (text expires) as [tex|] eqn:Ete;
    cbv iota in H; try discriminate.
  injection H as <-.
  assert (Hsat : forall (p : element -> bool) l i a,
            find_indices p 0 l = [i] -> nth_error l i = Some a -> p a = true).
  { intros p l i a Hi Ha.
    destruct (find_indices_sat p 0 l i) as [a' [Ha' Hp]]; [rewrite Hi; left; reflexivity|].
    rewrite Nat.sub_0_r in Ha'. congruence. }
  destruct (find_index_spec _ _ _ Es) as [[s' [Hs1 Hs2]] Hs3].
  destruct (find_index_spec _ _ _ Ec) as [[c' [Hc1 Hc2]] Hc3].
  destruct (find_index_spec _ _ _ Ex) as [[x' [Hx1 Hx2]] Hx3].
  split; [reflexivity|]. split.
  - constructor; cbn [Ws.w_env Ws.w_body Ws.w_header Ws.w_security Ws.w_timestamp
                       Ws.ib Ws.ih Ws.is_ Ws.it].
    + exact Eenv.
    + exact Ebody.
    + apply (Hsat _ _ _ _ Eb Ebody).
    + apply (find_indices_only _ _ _ Eb).
    + exact Eheader.
    + apply (Hsat _ _ _ _ Eh Eheader).
    + apply (find_indices_only _ _ _ Eh).
    + exact Esec.
    + congruence.
    + exact Hs3.
    + exact Ets.
    + apply (Hsat _ _ _ _ Et Ets).
    + apply (find_indices_only _ _ _ Et).
    + intros k Hk. destruct (has_tag _ k) eqn:E; [|reflexivity].
      rewrite <- Esig. symmetry. apply existsb_exists. exists k. auto.
  - constructor; cbn [Ws.w_timestamp Ws.ic Ws.ie Ws.tc Ws.te].
    + exists created. repeat split; congruence.
    + exact Hc3.
    + exists expires. repeat split; congruence.
    + exact Hx3.
Qed.

(** ** What the validator reads of its input *)

Lemma validate_parse (L : Lib) env x x' :
  fromstring L x = fromstring L x' -> validate L env x = validate L env x'.
Proof. intros H. unfold validate, get_certificate. rewrite H. reflexivity. Qed.

Lemma validate_parsed (L : Lib) (Hparse : Laws.parse_tostring L) env x e :
  fromstring L x = Some e -> validate L env x = validate L env (tostring L Plain e).
Proof. intros H. apply validate_parse. rewrite H, Hparse. reflexivity. Qed.

(** ** Whole seconds *)


(** ** Marking and truncating keep a tree free of tags and ids *)

Lemma forallb_update_nth {A} (R : A -> bool) i f (l : list A) :
  (forall a, R a = true -> R (f a) = true) ->
  forallb R l = true -> forallb R (update_nth i f l) = true.
Proof.
  intros Hf. revert i. induction l as [|a l IH]; intros i H; [destruct i; exact H|].
  simpl in H. apply andb_prop in H as [Ha Hl].
  destruct i as [|i]; simpl; apply andb_true_intro; split; auto.
Qed.

Lemma forallb_elements_set_text (q : string -> list (string * string) -> bool) x a :
  forallb (fun k => q (tag k) (attrib k)) (elements (set_text x a)) =
  forallb (fun k => q (tag k) (attrib k)) (elements a).
Proof. rewrite !elements_eq. reflexivity. Qed.

Lemma free_of_set_text tags x a : free_of tags (set_text x a) = free_of tags a.
Proof.
  exact (forallb_elements_set_text (fun t _ => negb (existsb (String.eqb t) tags)) x a).
Qed.

Lemma id_free_set_text ids x a : Ws.id_free ids (set_text x a) = Ws.id_free ids a.
Proof.
  exact (forallb_elements_set_text
           (fun _ at_ => negb (existsb (fun i => opt_eqb (get Plugin.WSU_ID at_) (Some i)) ids))
           x a).
Qed.

Lemma free_of_set_attr tags n v a : free_of tags (set_attr n v a) = free_of tags a.
Proof. unfold free_of. rewrite !elements_eq. reflexivity. Qed.

Lemma free_of_child tags e k :
  free_of tags e = true -> In k (children e) -> free_of tags k = true.
Proof. apply forallb_elements_child. Qed.

Lemma id_free_child ids e k :
  Ws.id_free ids e = true -> In k (children e) -> Ws.id_free ids k = true.
Proof. apply forallb_elements_child. Qed.

Lemma id_free_children ids e :
  Ws.id_free ids e = true -> forallb (Ws.id_free ids) (children e) = true.
Proof.
  intros H. apply forallb_forall. intros k Hk. apply (id_free_child ids e k H Hk).
Qed.

Lemma free_of_set_children tags kids e :
  free_of tags e = true ->
  forallb (free_of tags) kids = true ->
  free_of tags (set_children kids e) = true.
Proof.
  unfold free_of at 1 3. rewrite !elements_eq. cbn [forallb tag set_children children].
  intros H Hk. apply andb_prop in H as [H _]. rewrite H. cbn.
  rewrite forallb_flat_map. exact Hk.
Qed.

Lemma free_of_children tags e :
  free_of tags e = true -> forallb (free_of tags) (children e) = true.
Proof.
  intros H. apply forallb_forall. intros k Hk. apply (free_of_child tags e k H Hk).
Qed.

Lemma free_of_truncated tags w t :
  free_of tags t = true -> free_of tags (Ws.truncated w t) = true.
Proof.
  intros H. unfold Ws.truncated. apply free_of_set_children; [exact H|].
  apply forallb_update_nth; [intros a Ha; rewrite free_of_set_text; exact Ha|].
  apply forallb_update_nth; [intros a Ha; rewrite free_of_set_text; exact Ha|].
  apply free_of_children, H.
Qed.

Lemma id_free_children_truncated ids w t :
  forallb (Ws.id_free ids) (children t) = true ->
  forallb (Ws.id_free ids) (children (Ws.truncated w t)) = true.
Proof.
  intros H. unfold Ws.truncated. cbn [children set_children].
  apply forallb_update_nth; [intros a Ha; rewrite id_free_set_text; exact Ha|].
  apply forallb_update_nth; [intros a Ha; rewrite id_free_set_text; exact Ha|].
  exact H.
Qed.

(** ** Validating what the WS-Security signer hands back *)

Section SignedWs.
Context (L : Lib) (Hparse : Laws.parse_tostring L) (Hb64 : Laws.b64_roundtrip L).
Context (w : Ws.layout) (Hs : Ws.shape w).
Context (keytype id0 id1 id2 : string).
Context (Hv : Ws.validatable (Ws.w_env w) id0 id1 id2).

Lemma body_in : In (Ws.w_body w) (children (Ws.w_env w)).
Proof. eapply nth_error_In, (Ws.sh_body w Hs). Qed.

Lemma timestamp_free tags :
  free_of tags (Ws.w_env w) = true -> free_of tags (Ws.w_timestamp w) = true.
Proof.
  intros H.
  apply (free_of_child tags (Ws.w_security w)); [|eapply nth_error_In, (Ws.sh_timestamp w Hs)].
  apply (free_of_child tags (Ws.w_header w)); [|eapply nth_error_In, (Ws.sh_security w Hs)].
  apply (free_of_child tags (Ws.w_env w)); [exact H|eapply nth_error_In, (Ws.sh_header w Hs)].
Qed.

Lemma timestamp_id_free ids :
  Ws.id_free ids (Ws.w_env w) = true -> Ws.id_free ids (Ws.w_timestamp w) = true.
Proof.
  intros H.
  apply (id_free_child ids (Ws.w_security w)); [|eapply nth_error_In, (Ws.sh_timestamp w Hs)].
  apply (id_free_child ids (Ws.w_header w)); [|eapply nth_error_In, (Ws.sh_security w Hs)].
  apply (id_free_child ids (Ws.w_env w)); [exact H|eapply nth_error_In, (Ws.sh_header w Hs)].
Qed.

(** The body and the timestamp that the signer leaves are retouched
    versions of themselves, and so is the marked timestamp before its
    instants are cut. *)
Lemma signed_body_retouched :
  Ws.retouched [id0; id1] (Ws.signed_body w id0) (Ws.signed_body w id0).
Proof.
  destruct Hv as (_ & _ & Hfree & Hids & _).
  repeat split.
  - unfold Ws.signed_body. rewrite free_of_set_attr.
    apply (free_of_child _ _ _ Hfree body_in).
  - unfold Ws.signed_body, set_attr. cbn [children].
    apply id_free_children. apply (id_free_child _ _ _ Hids body_in).
Qed.

Lemma signed_timestamp_retouched :
  Ws.retouched [id0; id1] (Ws.signed_timestamp w id1) (Ws.signed_timestamp w id1).
Proof.
  destruct Hv as (_ & _ & Hfree & Hids & _).
  repeat split.
  - unfold Ws.signed_timestamp. apply free_of_truncated. rewrite free_of_set_attr.
    apply timestamp_free, Hfree.
  - unfold Ws.signed_timestamp. apply id_free_children_truncated.
    unfold set_attr. cbn [children].
    apply id_free_children. apply timestamp_id_free, Hids.
Qed.


(** The validator on the signed envelope with its body and its timestamp
    retouched: the two digests are compared with the stored ones, then
    the certificate and the signature value are checked. *)
Lemma validate_retouched env (k : pkey L) content b' t' x' :
  Ws.retouched [id0; id1] (Ws.signed_body w id0) b' ->
  Ws.retouched [id0; id1] (Ws.signed_timestamp w id1) t' ->
  fromstring L x' =
    Some (Ws.document w b' t'
            [ Ws.token id2 (b64encode L content);
              Ws.signed_signature L w keytype id0 id1 id2 k ]) ->
  validate L env x' =
  if String.eqb (Ws.digest_of L (Ws.body_alone w b')) (Ws.body_digest L w id0) &&
     String.eqb (Ws.digest_of L (Ws.timestamp_alone w t'))
                (Ws.digest_of L (Ws.timestamp_alone w (Ws.signed_timestamp w id1)))
  then
    match fst (check_revocation_status L env content) with
    | Ret true => Ret false
    | Ret false =>
        match load_certificate L content with
        | None => Ret false
        | Some c =>
            let si := Ws.signed_info keytype id0 id1
                        (Some (Ws.body_digest L w id0))
                        (Some (Ws.timestamp_digest L w id0 id1)) in
            let message := write_c14n L false true (Ws.info_alone w si) in
            if crypto_verify L c (pkcs1_sign L k message) message
            then Ret true else Ret false
        end
    | Raise ValueError => Ret false
    | Raise e => Raise e
    end
  else Ret false.
Proof.
  intros (Hbt & Hbn & Hba & Hbf & Hbi) (Htt & Htn & Hta & Htf & Hti) Hx.
  destruct Hv as (Hwsu & Hwsse & Hfree & Hids & H01 & H20 & H21 & Hq0 & Hq1).
  rewrite (validate_parsed L Hparse env x' _ Hx).
  unfold Ws.signed_signature.
  rewrite (validate_ws L Hparse w Hs b' t' keytype id0 id1 id2
             (Ws.body_digest L w id0) (Ws.timestamp_digest L w id0 id1)
             (Ws.value_of L w k (Ws.signed_info keytype id0 id1
                                   (Some (Ws.body_digest L w id0))
                                   (Some (Ws.timestamp_digest L w id0 id1))))
             (b64encode L content)
             Hwsu Hwsse Hfree Hbf Htf Hids) with (cb := content)
           (svb := pkcs1_sign L k
                     (write_c14n L false true
                        (Ws.info_alone w
                           (Ws.signed_info keytype id0 id1
                              (Some (Ws.body_digest L w id0))
                              (Some (Ws.timestamp_digest L w id0 id1)))))).
  - unfold Ws.timestamp_digest at 1.
    replace (String.eqb id1 id0) with false
      by (symmetry; apply String.eqb_neq; congruence).
    reflexivity.
  - rewrite Hba. unfold Ws.signed_body, set_attr. cbn [attrib]. apply get_set_same.
  - exact Hbi.
  - rewrite Hta. unfold Ws.signed_timestamp, Ws.truncated, set_children, set_attr.
    cbn [attrib]. apply get_set_same.
  - exact Hti.
  - exact H01.
  - exact H20.
  - exact H21.
  - exact Hq0.
  - exact Hq1.
  - apply Hb64.
  - apply Hb64.
Qed.

End SignedWs.

(** ** The laws on the reference instance *)

Lemma ref_parse_tostring : Laws.parse_tostring Ref.lib.
Proof. intros m e. apply RefFacts.fromstring_tostring. Qed.

Lemma ref_b64_roundtrip : Laws.b64_roundtrip Ref.lib.
Proof. intros s. reflexivity. Qed.

Lemma ref_key_pair : Laws.key_pair Ref.lib "KEY:alice" "CERT:alice".
Proof.
  exists "alice", "alice". repeat split. intros message. apply String.eqb_refl.
Qed.

(** ** Round trip *)

Section RoundTrip.
Context (L : Lib) (Hparse : Laws.parse_tostring L) (Hb64 : Laws.b64_roundtrip L).

Lemma application_round_trip fs env x d private_key certificate decl kb cb :
  fromstring L x = Some d ->
  free_of reserved_tags d = true ->
  fs private_key = Some kb ->
  fs certificate = Some cb ->
  Laws.key_pair L kb cb ->
  fst (check_revocation_status L env cb) = Ret false ->
  exists out,
    sign L fs x private_key certificate decl = Ret out /\ validate L env out = Ret true.
Proof.
  intros Hx Hfree Hkb Hcb (k & c & Hk & Hc & Hverify) Hcrl.
  rewrite (sign_eq L Hparse), Hx, Hkb, Hk, Hcb.
  eexists. split; [reflexivity|].
  unfold signature_for.
  rewrite (validate_application L Hparse env _ d _ _ _ cb _ Hfree (Hb64 _) (Hb64 _)).
  rewrite String.eqb_refl, Hcrl, Hc, Hverify. reflexivity.
Qed.

Lemma ws_round_trip P uuid fs env x e w kb cb :
  fromstring L x = Some e ->
  Ws.locate e = Some w ->
  Ws.validatable e (Plugin.get_unique_id (uuid 0)) (Plugin.get_unique_id (uuid 1))
                 (Plugin.get_unique_id (uuid 2)) ->
  fs (Plugin.keyfile P) = Some kb ->
  fs (Plugin.certificate P) = Some cb ->
  Laws.key_pair L kb cb ->
  fst (check_revocation_status L env cb) = Ret false ->
  exists out,
    Plugin.sending L P uuid fs x = Ret out /\ validate L env out = Ret true.
Proof.
  intros Hx Hloc Hv Hkb Hcb (k & c & Hk & Hc & Hverify) Hcrl.
  destruct (locate_shape e w Hloc) as (He & Hs & Hst). subst e.
  rewrite (sending_eq L Hparse w Hs Hst P fs kb cb k Hkb Hk Hcb uuid x Hx).
  eexists. split; [reflexivity|].
  rewrite (validate_retouched L Hparse Hb64 w Hs (Plugin.keytype P) _ _ _ Hv env k cb
             (Ws.signed_body w _) (Ws.signed_timestamp w _) _
             (signed_body_retouched w Hs _ _ _ Hv)
             (signed_timestamp_retouched w Hs _ _ _ Hv) (Hparse _ _)).
  unfold Ws.body_digest. rewrite !String.eqb_refl. cbn [andb].
  rewrite Hcrl, Hc. cbv zeta. rewrite Hverify. reflexivity.
Qed.

End RoundTrip.

(** C1 (amended): signing and then validating gives [True], with a
    matching key and certificate in readable files ([Laws.key_pair]) and
    a revocation check that returns [False] for the certificate, for the
    application profile on every well-formed document that uses none of
    the tags the validator looks up in the whole document
    ([reserved_tags]), and for the WS-Security profile on every envelope
    in which the signer finds one body, one header, a security header
    with one timestamp and no signature yet ([Ws.locate]), and in which
    the validator can find them again ([Ws.validatable]: the root itself
    declares the prefixes [wsu] and [wsse] and no default namespace, the
    envelope uses none of the tags the validator looks up and carries
    neither of the ids drawn for the body and the timestamp, and the
    three ids drawn differ and hold no quote). *)
Theorem sign_then_validate (L : Lib) :
  Laws.parse_tostring L ->
  Laws.b64_roundtrip L ->
  (forall fs env x d private_key certificate decl kb cb,
     fromstring L x = Some d ->
     free_of reserved_tags d = true ->
     fs private_key = Some kb ->
     fs certificate = Some cb ->
     Laws.key_pair L kb cb ->
     fst (check_revocation_status L env cb) = Ret false ->
     exists out,
       sign L fs x private_key certificate decl = Ret out /\
       validate L env out = Ret true) /\
  (forall P uuid fs env x e w kb cb,
     fromstring L x = Some e ->
     Ws.locate e = Some w ->
     Ws.validatable e (Plugin.get_unique_id (uuid 0)) (Plugin.get_unique_id (uuid 1))
                    (Plugin.get_unique_id (uuid 2)) ->
     fs (Plugin.keyfile P) = Some kb ->
     fs (Plugin.certificate P) = Some cb ->
     Laws.key_pair L kb cb ->
     fst (check_revocation_status L env cb) = Ret false ->
     exists out,
       Plugin.sending L P uuid fs x = Ret out /\
       validate L env out = Ret true).
Proof.
  intros Hparse Hb64. split.
  - intros. eapply application_round_trip; eassumption.
  - intros. eapply ws_round_trip; eassumption.
Qed.

(** The request and the envelope of the examples, signed by [alice] and
    validated with a CRL that lists [bob]. *)
Lemma sign_then_validate_witness :
  (exists out,
     sign Ref.lib Ref.fs (tostring Ref.lib Plain Examples.request)
          "key.pem" "cert.der" true = Ret out /\
     validate Ref.lib (Ref.fresh_crl "bob") out = Ret true) /\
  (exists out,
     Plugin.sending Ref.lib Ref.plugin Ref.uuid Ref.fs
                    (tostring Ref.lib Plain Examples.envelope) = Ret out /\
     validate Ref.lib (Ref.fresh_crl "bob") out = Ret true).
Proof.
  destruct (sign_then_validate Ref.lib ref_parse_tostring ref_b64_roundtrip) as [Happ Hws].
  split.
  - apply (Happ Ref.fs (Ref.fresh_crl "bob") _ Examples.request "key.pem" "cert.der" true
                "KEY:alice" "CERT:alice");
      [apply ref_parse_tostring|vm_compute; reflexivity|reflexivity|reflexivity
      |exact ref_key_pair|vm_compute; reflexivity].
  - destruct (Ws.locate Examples.envelope) as [w|] eqn:Hw; [|vm_compute in Hw; discriminate].
    apply (Hws Ref.plugin Ref.uuid Ref.fs (Ref.fresh_crl "bob") _ Examples.envelope w
               "KEY:alice" "CERT:alice");
      [apply ref_parse_tostring|exact Hw| |reflexivity|reflexivity
      |exact ref_key_pair|vm_compute; reflexivity].
    repeat split; try (vm_compute; reflexivity); vm_compute; discriminate.
Defined.

(** A document that already holds a [ds:Signature]: the validator reads
    the first one, which is not the one the signer appended.  An envelope
    with two timestamps: the third reference is left without digest. *)
Lemma sign_then_validate_fails_on_signed_input :
  fromstring Ref.lib (tostring Ref.lib Plain Examples.already_signed)
    = Some Examples.already_signed /\
  Laws.key_pair Ref.lib "KEY:alice" "CERT:alice" /\
  fst (check_revocation_status Ref.lib (Ref.fresh_crl "bob") "CERT:alice") = Ret false /\
  (out <- sign Ref.lib Ref.fs (tostring Ref.lib Plain Examples.already_signed)
               "key.pem" "cert.der" true ;;
   validate Ref.lib (Ref.fresh_crl "bob") out) = Ret false /\
  (out <- Plugin.sending Ref.lib Ref.plugin Ref.uuid Ref.fs
                         (tostring Ref.lib Plain Examples.two_timestamps) ;;
   validate Ref.lib (Ref.fresh_crl "bob") out) = Ret false.
Proof.
  split; [apply ref_parse_tostring|].
  split; [exact ref_key_pair|].
  split; [vm_compute; reflexivity|].
  split; vm_compute; reflexivity.
Qed.

(** ** A revoked certificate *)

(** C8: the revocation check never answers [True].  Line 93 of
    [certificate.py] compares [cert.get_serial()], the serial of a list
    entry as hexadecimal [bytes], with [certificate.get_serial_number()],
    an [int]; the two are never equal, the loop runs to its end and
    [False] is returned.  So when the CRL that is loaded lists an entry
    whose serial ([int(serial, 16)]) is the serial number of the signer's
    certificate, [check_revocation_status] still returns [False], and
    [validate] returns [True] on a document that this signer signed: a
    revoked certificate is accepted. *)
Theorem revoked_certificate_is_accepted (L : Lib) :
  (forall env data, fst (check_revocation_status L env data) <> Ret true) /\
  (Laws.parse_tostring L ->
   Laws.b64_roundtrip L ->
   forall fs env x d private_key certificate decl kb cb crl_bytes op_crl l cert r,
     fromstring L x = Some d ->
     free_of reserved_tags d = true ->
     fs private_key = Some kb ->
     fs certificate = Some cb ->
     Laws.key_pair L kb cb ->
     loaded_crl env = Some crl_bytes ->
     load_crl L crl_bytes = Some op_crl ->
     get_revoked L op_crl = Some l ->
     load_certificate L cb = Some cert ->
     In r l ->
     int16 (get_serial L r) = Some (get_serial_number L cert) ->
     fst (check_revocation_status L env cb) = Ret false /\
     exists out,
       sign L fs x private_key certificate decl = Ret out /\
       get_certificate L out = Ret (Some (b64encode L cb)) /\
       validate L env out = Ret true).
Proof.
  split; [intros env data; apply check_revocation_status_not_true|].
  intros Hparse Hb64 fs env x d private_key certificate decl kb cb crl_bytes op_crl l cert r
         Hx Hfree Hkb Hcb Hpair Hl Hcrl Hrev Hcert Hin Hserial.
  pose proof (check_revocation_status_listed L env cb _ _ _ _ Hl Hcrl Hrev Hcert) as Hcheck.
  split; [exact Hcheck|].
  destruct (application_round_trip L Hparse Hb64 fs env x d private_key certificate decl kb cb
              Hx Hfree Hkb Hcb Hpair Hcheck) as (out & Hsign & Hvalid).
  exists out. split; [exact Hsign|]. split; [|exact Hvalid].
  destruct Hpair as (k & c & Hk & _).
  rewrite (sign_eq L Hparse), Hx, Hkb, Hk, Hcb in Hsign.
  injection Hsign as <-.
  unfold signature_for. apply (get_certificate_application L Hparse). exact Hfree.
Qed.

(** The request of the examples, signed by [alice], on a machine whose
    fresh CRL lists the serial number of her certificate (97, [61] in
    hexadecimal). *)
Lemma revoked_certificate_is_accepted_witness :
  get_serial Ref.lib "alice" = "61" /\
  get_serial_number Ref.lib "alice" = 97%Z /\
  fst (check_revocation_status Ref.lib (Ref.fresh_crl "alice") "CERT:alice") = Ret false /\
  exists out,
    sign Ref.lib Ref.fs (tostring Ref.lib Plain Examples.request) "key.pem" "cert.der" true
      = Ret out /\
    get_certificate Ref.lib out = Ret (Some "CERT:alice") /\
    validate Ref.lib (Ref.fresh_crl "alice") out = Ret true.
Proof.
  split; [reflexivity|]. split; [reflexivity|].
  assert (Hfree : free_of reserved_tags Examples.request = true) by (vm_compute; reflexivity).
  exact (proj2 (revoked_certificate_is_accepted Ref.lib) ref_parse_tostring ref_b64_roundtrip
           Ref.fs (Ref.fresh_crl "alice") (tostring Ref.lib Plain Examples.request)
           Examples.request "key.pem" "cert.der" true "KEY:alice" "CERT:alice"
           "CRL:alice" ["alice"] ["alice"] "alice" "alice"
           (ref_parse_tostring Plain _) Hfree eq_refl eq_refl ref_key_pair
           eq_refl eq_refl eq_refl eq_refl (or_introl eq_refl) eq_refl).
Defined.

(** ** Tampering *)

Section Tampering.
Context (L : Lib) (Hparse : Laws.parse_tostring L) (Hb64 : Laws.b64_roundtrip L).



End Tampering.




(** ** What [get_signature] finds in a signed envelope *)

Section Finds.
Context (w : Ws.layout) (Hs : Ws.shape w).
Context (b t : element) (extra : list element).
Context (Hb : has_tag (Plugin.ns_id "Body" Plugin.envns) b = true).
Context (Ht : has_tag (Plugin.ns_id "Timestamp" Plugin.wsuns) t = true).

Local Notation "'D'" := (Ws.document w b t extra).
Local Notation "'security_loc'" :=
  (Loc [Ws.ih w; Ws.is_ w]
       (ns_merge (nsmap (Ws.w_header w)) (ns_merge (nsmap (Ws.w_env w)) []))
       (Some (Ws.hdr_with w (Ws.sec_with w t extra)))
       (Ws.sec_with w t extra)).




End Finds.

(** ** The references of the WS-Security profile *)




(** ** Whole seconds before the digest *)





(** * Further properties of the signer and the validator *)

(** ** What an accepted document went through *)



(** ** A certificate that does not match the key *)

(** X2: a document signed with a key that the certificate in the
    certificate file does not match is not accepted, when the signature
    that [validate] reads is the one that was made: for a document that
    uses none of the tags the validator looks up ([reserved_tags]), and
    for an envelope that the signer can sign ([Ws.locate]) and the
    validator can read ([Ws.validatable]), [sign] and [sending] go
    through (neither looks at the certificate beyond reading the file),
    and [validate] does not return [True] on what they hand back. *)
Theorem mismatched_certificate_is_rejected (L : Lib) :
  Laws.parse_tostring L ->
  Laws.b64_roundtrip L ->
  (forall fs env x d private_key certificate decl kb (k : pkey L) cb,
     fromstring L x = Some d ->
     free_of reserved_tags d = true ->
     fs private_key = Some kb ->
     importKey L kb = Some k ->
     fs certificate = Some cb ->
     (forall c message, load_certificate L cb = Some c ->
                        crypto_verify L c (pkcs1_sign L k message) message = false) ->
     exists out,
       sign L fs x private_key certificate decl = Ret out /\
       validate L env out <> Ret true) /\
  (forall P uuid fs env x e w kb (k : pkey L) cb,
     fromstring L x = Some e ->
     Ws.locate e = Some w ->
     Ws.validatable e (Plugin.get_unique_id (uuid 0)) (Plugin.get_unique_id (uuid 1))
                    (Plugin.get_unique_id (uuid 2)) ->
     fs (Plugin.keyfile P) = Some kb ->
     importKey L kb = Some k ->
     fs (Plugin.certificate P) = Some cb ->
     (forall c message, load_certificate L cb = Some c ->
                        crypto_verify L c (pkcs1_sign L k message) message = false) ->
     exists out,
       Plugin.sending L P uuid fs x = Ret out /\
       validate L env out <> Ret true).
Proof.
  intros Hparse Hb64. split.
  - intros fs env x d private_key certificate decl kb k cb Hx Hfree Hkb Hk Hcb Hbad.
    rewrite (sign_eq L Hparse), Hx, Hkb, Hk, Hcb.
    eexists. split; [reflexivity|].
    unfold signature_for.
    rewrite (validate_application L Hparse env _ d _ _ _ cb _ Hfree (Hb64 _) (Hb64 _)).
    rewrite String.eqb_refl.
    destruct (fst (check_revocation_status L env cb)) as [[|]|[]]; try discriminate.
    destruct (load_certificate L cb) as [c|] eqn:Hc; [|discriminate].
    rewrite (Hbad c _ eq_refl). discriminate.
  - intros P uuid fs env x e w kb k cb Hx Hloc Hv Hkb Hk Hcb Hbad.
    destruct (locate_shape e w Hloc) as (He & Hs & Hst). subst e.
    rewrite (sending_eq L Hparse w Hs Hst P fs kb cb k Hkb Hk Hcb uuid x Hx).
    eexists. split; [reflexivity|].
    rewrite (validate_retouched L Hparse Hb64 w Hs (Plugin.keytype P) _ _ _ Hv env k cb
               (Ws.signed_body w _) (Ws.signed_timestamp w _) _
               (signed_body_retouched w Hs _ _ _ Hv)
               (signed_timestamp_retouched w Hs _ _ _ Hv) (Hparse _ _)).
    destruct (_ && _); [|discriminate].
    destruct (fst (check_revocation_status L env cb)) as [[|]|[]]; try discriminate.
    destruct (load_certificate L cb) as [c|] eqn:Hc; [|discriminate].
    cbv zeta. rewrite (Hbad c _ eq_refl). discriminate.
Qed.

(** The request and the envelope of the examples, signed with the key of
    [alice] and sent with the certificate of [bob]. *)
Lemma mismatched_certificate_is_rejected_witness :
  (exists out,
     sign Ref.lib Ref.mismatched_fs (tostring Ref.lib Plain Examples.request)
          "key.pem" "cert.der" true = Ret out /\
     validate Ref.lib (Ref.fresh_crl "carol") out <> Ret true) /\
  (exists out,
     Plugin.sending Ref.lib Ref.plugin Ref.uuid Ref.mismatched_fs
                    (tostring Ref.lib Plain Examples.envelope) = Ret out /\
     validate Ref.lib (Ref.fresh_crl "carol") out <> Ret true).
Proof.
  destruct (mismatched_certificate_is_rejected Ref.lib ref_parse_tostring ref_b64_roundtrip)
    as [Happ Hws].
  assert (Hbad : forall c message, load_certificate Ref.lib "CERT:bob" = Some c ->
                   crypto_verify Ref.lib c (pkcs1_sign Ref.lib "alice" message) message = false).
  { intros c message Hc. injection Hc as <-. reflexivity. }
  split.
  - apply (Happ Ref.mismatched_fs (Ref.fresh_crl "carol") _ Examples.request
                "key.pem" "cert.der" true "KEY:alice" "alice" "CERT:bob"
                (ref_parse_tostring Plain _));
      [vm_compute; reflexivity|reflexivity|reflexivity|reflexivity|exact Hbad].
  - apply (Hws Ref.plugin Ref.uuid Ref.mismatched_fs (Ref.fresh_crl "carol") _
               Examples.envelope Examples.envelope_layout "KEY:alice" "alice" "CERT:bob"
               (ref_parse_tostring Plain _) eq_refl);
      [|reflexivity|reflexivity|reflexivity|exact Hbad].
    repeat split; try (vm_compute; reflexivity); vm_compute; discriminate.
Defined.

(** ** The certificate that travels with the signature *)

(** X3: [get_certificate] gives back, base64-encoded, the bytes of the
    certificate file that the signer read: from the [X509Certificate] of
    the application profile, for a document that uses none of the tags
    the validator looks up ([reserved_tags]); and from the
    [BinarySecurityToken] of the WS-Security profile, for an envelope
    that the signer can sign ([Ws.locate]), whose root itself declares
    the prefix [wsse] and no default namespace, and that holds no
    [ds:Signature], [ds:CanonicalizationMethod] or
    [wsse:BinarySecurityToken] yet. *)
Theorem embedded_certificate_is_recovered (L : Lib) :
  Laws.parse_tostring L ->
  (forall fs x d private_key certificate decl kb (k : pkey L) cb,
     fromstring L x = Some d ->
     free_of reserved_tags d = true ->
     fs private_key = Some kb ->
     importKey L kb = Some k ->
     fs certificate = Some cb ->
     exists out,
       sign L fs x private_key certificate decl = Ret out /\
       get_certificate L out = Ret (Some (b64encode L cb))) /\
  (forall P uuid fs x e w kb (k : pkey L) cb,
     fromstring L x = Some e ->
     Ws.locate e = Some w ->
     resolve_prefix (nsmap e) "wsse" = Ret (snd Plugin.wssens) ->
     free_of Ws.reserved_tags e = true ->
     fs (Plugin.keyfile P) = Some kb ->
     importKey L kb = Some k ->
     fs (Plugin.certificate P) = Some cb ->
     exists out,
       Plugin.sending L P uuid fs x = Ret out /\
       get_certificate L out = Ret (Some (b64encode L cb))).
Proof.
  intros Hparse. split.
  - intros fs x d private_key certificate decl kb k cb Hx Hfree Hkb Hk Hcb.
    rewrite (sign_eq L Hparse), Hx, Hkb, Hk, Hcb.
    eexists. split; [reflexivity|].
    unfold signature_for. apply (get_certificate_application L Hparse). exact Hfree.
  - intros P uuid fs x e w kb k cb Hx Hloc Hwsse Hfree Hkb Hk Hcb.
    destruct (locate_shape e w Hloc) as (He & Hs & Hst). subst e.
    rewrite (sending_eq L Hparse w Hs Hst P fs kb cb k Hkb Hk Hcb uuid x Hx).
    eexists. split; [reflexivity|].
    unfold Ws.signed, Ws.signed_signature.
    apply (get_certificate_ws L Hparse w Hs); [exact Hwsse|exact Hfree| |].
    + unfold Ws.signed_body. rewrite free_of_set_attr.
      apply (free_of_child _ _ _ Hfree (body_in w Hs)).
    + unfold Ws.signed_timestamp. apply free_of_truncated. rewrite free_of_set_attr.
      apply (timestamp_free w Hs), Hfree.
Qed.

(** The request and the envelope of the examples. *)
Lemma embedded_certificate_is_recovered_witness :
  (exists out,
     sign Ref.lib Ref.fs (tostring Ref.lib Plain Examples.request)
          "key.pem" "cert.der" true = Ret out /\
     get_certificate Ref.lib out = Ret (Some "CERT:alice")) /\
  (exists out,
     Plugin.sending Ref.lib Ref.plugin Ref.uuid Ref.fs
                    (tostring Ref.lib Plain Examples.envelope) = Ret out /\
     get_certificate Ref.lib out = Ret (Some "CERT:alice")).
Proof.
  destruct (embedded_certificate_is_recovered Ref.lib ref_parse_tostring) as [Happ Hws].
  split.
  - apply (Happ Ref.fs _ Examples.request "key.pem" "cert.der" true
                "KEY:alice" "alice" "CERT:alice" (ref_parse_tostring Plain _));
      [vm_compute; reflexivity|reflexivity|reflexivity|reflexivity].
  - apply (Hws Ref.plugin Ref.uuid Ref.fs _ Examples.envelope Examples.envelope_layout
               "KEY:alice" "alice" "CERT:alice" (ref_parse_tostring Plain _) eq_refl);
      [vm_compute; reflexivity|vm_compute; reflexivity|reflexivity|reflexivity|reflexivity].
Defined.

(** ** Replies *)

(** X4: [received] lets a reply through exactly when [validate] accepts
    it: serialising the parsed reply again changes nothing for the
    validator, a reply that [validate] rejects raises [RuntimeError], and
    what [validate] raises is passed on.  A reply that does not parse
    raises [XMLSyntaxError], although [validate] alone answers [False]
    for it. *)
Theorem received_follows_validate (L : Lib) env reply :
  Laws.parse_tostring L ->
  (fromstring L reply = None ->
     Plugin.received L env reply = Raise XMLSyntaxError /\
     validate L env reply = Ret false) /\
  (fromstring L reply <> None ->
     Plugin.received L env reply =
     match validate L env reply with
     | Ret true => Ret tt
     | Ret false => Raise RuntimeError
     | Raise e => Raise e
     end).
Proof.
  intros Hparse. unfold Plugin.received. split.
  - intros Hx. rewrite Hx. split; [reflexivity|]. unfold validate. rewrite Hx. reflexivity.
  - intros Hx. destruct (fromstring L reply) as [e|] eqn:He; [|congruence].
    rewrite <- (validate_parsed L Hparse env reply e He).
    destruct (validate L env reply) as [[|]|]; reflexivity.
Qed.

(** The signed request of the examples passes; with another customer id
    under the same signature it raises [RuntimeError]; a reply that is
    not XML raises [XMLSyntaxError]. *)
Lemma received_follows_validate_witness :
  Plugin.received Ref.lib (Ref.fresh_crl "bob") Examples.signed_request = Ret tt /\
  Plugin.received Ref.lib (Ref.fresh_crl "bob")
    (tostring Ref.lib (Utf8 true)
       (append Examples.other_request
               (signature_for Ref.lib Examples.request "alice" "CERT:alice")))
  = Raise RuntimeError /\
  Plugin.received Ref.lib (Ref.fresh_crl "bob") "" = Raise XMLSyntaxError.
Proof.
  destruct (received_follows_validate Ref.lib (Ref.fresh_crl "bob") Examples.signed_request
              ref_parse_tostring) as [_ H1].
  destruct (received_follows_validate Ref.lib (Ref.fresh_crl "bob")
              (tostring Ref.lib (Utf8 true)
                 (append Examples.other_request
                         (signature_for Ref.lib Examples.request "alice" "CERT:alice")))
              ref_parse_tostring) as [_ H2].
  destruct (received_follows_validate Ref.lib (Ref.fresh_crl "bob") ""
              ref_parse_tostring) as [H3 _].
  split; [|split].
  - rewrite H1 by (vm_compute; discriminate). vm_compute; reflexivity.
  - rewrite H2 by (rewrite ref_parse_tostring; discriminate). vm_compute; reflexivity.
  - apply H3. reflexivity.
Defined.

(** ** The queue of ids and the references *)

Lemma insert_references_children queue si :
  children (Plugin.insert_references queue si) = children si ++ map Plugin.reference_for queue.
Proof.
  unfold Plugin.insert_references. revert si.
  induction queue as [|i queue IH]; intros si; cbn [fold_left map].
  - rewrite app_nil_r. reflexivity.
  - rewrite IH. unfold append, set_children. cbn [children].
    rewrite <- app_assoc. reflexivity.
Qed.

Lemma insert_references_start queue si :
  tag (Plugin.insert_references queue si) = tag si /\
  nsmap (Plugin.insert_references queue si) = nsmap si /\
  attrib (Plugin.insert_references queue si) = attrib si /\
  text (Plugin.insert_references queue si) = text si.
Proof.
  unfold Plugin.insert_references. revert si.
  induction queue as [|i queue IH]; intros si; cbn [fold_left]; [tauto|].
  destruct (IH (append si (Plugin.reference_for i))) as (H1 & H2 & H3 & H4).
  rewrite H1, H2, H3, H4. repeat split.
Qed.

Lemma filter_references_map queue :
  filter (has_tag Plugin.DS_REFERENCE) (map Plugin.reference_for queue)
  = map Plugin.reference_for queue.
Proof.
  induction queue as [|i queue IH]; [reflexivity|].
  cbn [map filter]. rewrite IH. reflexivity.
Qed.

(** X5: [insert_references] leaves the element and its children as they
    are and appends one [Reference] per queued id, in the order of the
    queue; so the [SignedInfo] of [append_signed_info] holds, after its
    two method elements, exactly as many references as ids were queued,
    the reference of the [n]-th id with the [URI] ['#'] and that id. *)
Theorem insert_references_one_per_id queue signed_info keytype :
  tag (Plugin.insert_references queue signed_info) = tag signed_info /\
  attrib (Plugin.insert_references queue signed_info) = attrib signed_info /\
  text (Plugin.insert_references queue signed_info) = text signed_info /\
  children (Plugin.insert_references queue signed_info)
    = children signed_info ++ map Plugin.reference_for queue /\
  Ws.references (Plugin.signed_info_template keytype queue)
    = map Plugin.reference_for queue /\
  map Ws.uri (Ws.references (Plugin.signed_info_template keytype queue))
    = map (fun element_id => Some ("#" ++ element_id)%string) queue /\
  length (Ws.references (Plugin.signed_info_template keytype queue)) = length queue.
Proof.
  destruct (insert_references_start queue signed_info) as (H1 & _ & H3 & H4).
  assert (Href : Ws.references (Plugin.signed_info_template keytype queue)
                 = map Plugin.reference_for queue).
  { unfold Ws.references, Plugin.signed_info_template.
    rewrite insert_references_children. cbn [children].
    rewrite filter_app, filter_references_map. reflexivity. }
  repeat split; try assumption.
  - apply insert_references_children.
  - rewrite Href, map_map. reflexivity.
  - rewrite Href. apply length_map.
Qed.

(** ** Marking the timestamps *)

Lemma map_seq_shift {A} (f : nat -> A) n c :
  map (fun j => f (n + j)) (seq 1 c) = map (fun j => f (S n + j)) (seq 0 c).
Proof.
  rewrite <- seq_shift, map_map. apply map_ext. intros j. f_equal. lia.
Qed.

(** X6: the loop of [ensure_security_header] over the children of the
    security header keeps their number and their order, leaves every
    child that is not a [Timestamp] as it is, gives every [Timestamp] a
    [wsu:Id] of its own draw, and appends these ids to the queue in
    document order: the [j]-th timestamp gets the id of the [j]-th draw
    after the [n] already made. *)
Theorem mark_timestamps_marks_each uuid n kids queue :
  exists kids',
    Plugin.mark_timestamps uuid n kids queue =
      (kids',
       queue ++ map (fun j => Plugin.get_unique_id (uuid (n + j)))
                    (seq 0 (length (filter (has_tag (Plugin.ns_id "Timestamp" Plugin.wsuns)) kids))),
       n + length (filter (has_tag (Plugin.ns_id "Timestamp" Plugin.wsuns)) kids)) /\
    length kids' = length kids /\
    map tag kids' = map tag kids /\
    (forall i k, nth_error kids i = Some k ->
                 has_tag (Plugin.ns_id "Timestamp" Plugin.wsuns) k = false ->
                 nth_error kids' i = Some k) /\
    (forall i k, nth_error kids i = Some k ->
                 has_tag (Plugin.ns_id "Timestamp" Plugin.wsuns) k = true ->
                 exists j, j < length (filter (has_tag (Plugin.ns_id "Timestamp" Plugin.wsuns)) kids) /\
                           nth_error kids' i =
                           Some (set_attr Plugin.WSU_ID (Plugin.get_unique_id (uuid (n + j))) k)) /\
    map (fun k => get Plugin.WSU_ID (attrib k))
        (filter (has_tag (Plugin.ns_id "Timestamp" Plugin.wsuns)) kids')
      = map (fun j => Some (Plugin.get_unique_id (uuid (n + j))))
            (seq 0 (length (filter (has_tag (Plugin.ns_id "Timestamp" Plugin.wsuns)) kids))).
Proof.
  revert n queue. induction kids as [|k kids IH]; intros n queue.
  - exists []. cbn. rewrite app_nil_r, Nat.add_0_r.
    repeat split; try reflexivity; intros [|i] k0 H; discriminate.
  - cbn [Plugin.mark_timestamps filter].
    destruct (has_tag (Plugin.ns_id "Timestamp" Plugin.wsuns) k) eqn:Hk.
    + destruct (IH (S n) (queue ++ [Plugin.get_unique_id (uuid n)]))
        as (kids' & Heq & Hlen & Htags & Hother & Hts & Hids).
      rewrite Heq. eexists. split.
      { cbn [length seq map]. rewrite <- app_assoc. cbn [app].
        rewrite Nat.add_0_r.
        rewrite (map_seq_shift (fun i => Plugin.get_unique_id (uuid i))).
        rewrite Nat.add_succ_r. reflexivity. }
      split; [cbn [length]; congruence|].
      split; [cbn [map]; rewrite Htags; reflexivity|].
      split.
      { intros [|i] k0 Hi Hk0; cbn [nth_error] in *.
        - injection Hi as <-. congruence.
        - apply (Hother i k0 Hi Hk0). }
      split.
      { intros [|i] k0 Hi Hk0; cbn [nth_error] in *.
        - injection Hi as <-. exists 0. split; [cbn [length]; lia|].
          rewrite Nat.add_0_r. reflexivity.
        - destruct (Hts i k0 Hi Hk0) as (j & Hj & Hnth).
          exists (S j). split; [cbn [length]; lia|].
          replace (n + S j) with (S n + j) by lia. exact Hnth. }
      cbn [filter]. replace (has_tag _ (set_attr _ _ k)) with true by (symmetry; exact Hk).
      cbn [map length seq]. rewrite Hids. rewrite Nat.add_0_r.
      f_equal.
      * unfold set_attr. cbn [attrib]. apply get_set_same.
      * rewrite (map_seq_shift (fun i => Some (Plugin.get_unique_id (uuid i)))). reflexivity.
    + destruct (IH n queue) as (kids' & Heq & Hlen & Htags & Hother & Hts & Hids).
      rewrite Heq. eexists. split; [reflexivity|].
      split; [cbn [length]; congruence|].
      split; [cbn [map]; rewrite Htags; reflexivity|].
      split.
      { intros [|i] k0 Hi Hk0; cbn [nth_error] in *.
        - exact Hi.
        - apply (Hother i k0 Hi Hk0). }
      split.
      { intros [|i] k0 Hi Hk0; cbn [nth_error] in *.
        - injection Hi as <-. congruence.
        - apply (Hts i k0 Hi Hk0). }
      cbn [filter]. rewrite Hk. exact Hids.
Qed.

(** ** Whole seconds *)

Lemma contains_dot_cons c s :
  contains "." (String c s) = Ascii.eqb c "." || contains "." s.
Proof.
  cbn [contains String.prefix].
  destruct (ascii_dec "." c) as [<-|Hne].
  - destruct s; reflexivity.
  - replace (Ascii.eqb c ".") with false; [reflexivity|].
    symmetry. apply Ascii.eqb_neq. congruence.
Qed.

Lemma contains_dot_nil : contains "." "" = false.
Proof. reflexivity. Qed.

Lemma contains_dot_app a b :
  contains "." (a ++ b) = contains "." a || contains "." b.
Proof.
  induction a as [|c a IH]; [reflexivity|].
  change (String c a ++ b)%string with (String c (a ++ b)).
  rewrite !contains_dot_cons, IH. apply orb_assoc.
Qed.

Lemma before_dot_no_dot t : contains "." t = false -> before_dot t = t.
Proof.
  induction t as [|c t IH]; [reflexivity|].
  rewrite contains_dot_cons. intros H. apply orb_false_elim in H as [Hc Ht].
  cbn [before_dot]. rewrite Hc, IH by exact Ht. reflexivity.
Qed.

Lemma contains_before_dot t : contains "." (before_dot t) = false.
Proof.
  induction t as [|c t IH]; [reflexivity|].
  cbn [before_dot]. destruct (Ascii.eqb c ".") eqn:E; [reflexivity|].
  rewrite contains_dot_cons, E, IH. reflexivity.
Qed.

Lemma before_dot_app a b :
  contains "." a = false -> before_dot (a ++ "." ++ b) = a.
Proof.
  induction a as [|c a IH]; [reflexivity|].
  rewrite contains_dot_cons. intros H. apply orb_false_elim in H as [Hc Ha].
  change (String c a ++ "." ++ b)%string with (String c (a ++ "." ++ b)).
  cbn [before_dot]. rewrite Hc, IH by exact Ha. reflexivity.
Qed.

(** X7: the rewriting of an instant ([text.split(".")[0] + 'Z'], lines
    222-225).  An element without text raises [AttributeError].  The new
    text holds no ['.'] and ends in ['Z']; it is the part before the first
    ['.'] followed by ['Z'], and for a text without ['.'] it is the whole
    text followed by ['Z'] -- an instant that is already at whole seconds
    and ends in ['Z'] ends in ['ZZ'] afterwards, and rewriting a second
    time appends one more ['Z']. *)
Theorem whole_seconds_appends_Z e :
  (text e = None -> Plugin.whole_seconds e = Raise AttributeError) /\
  (forall t, text e = Some t ->
     Plugin.whole_seconds e = Ret (set_text (Some (Ws.seconds t)) e) /\
     contains "." (Ws.seconds t) = false /\
     (exists p, Ws.seconds t = (p ++ "Z")%string /\ contains "." p = false) /\
     (forall a b, t = (a ++ "." ++ b)%string -> contains "." a = false ->
                  Ws.seconds t = (a ++ "Z")%string) /\
     (contains "." t = false -> Ws.seconds t = (t ++ "Z")%string) /\
     Plugin.whole_seconds (set_text (Some (Ws.seconds t)) e)
       = Ret (set_text (Some (Ws.seconds t ++ "Z")%string) e)).
Proof.
  unfold Plugin.whole_seconds. split.
  - intros ->. reflexivity.
  - intros t Ht. rewrite Ht.
    assert (Hno : contains "." (Ws.seconds t) = false).
    { unfold Ws.seconds. rewrite contains_dot_app, contains_before_dot. reflexivity. }
    split; [reflexivity|].
    split; [exact Hno|].
    split; [exists (before_dot t); split; [reflexivity|apply contains_before_dot]|].
    split; [intros a b -> Ha; unfold Ws.seconds; rewrite before_dot_app by exact Ha;
            reflexivity|].
    split; [intros H; unfold Ws.seconds; rewrite before_dot_no_dot by exact H; reflexivity|].
    cbn [text set_text]. rewrite (before_dot_no_dot _ Hno). reflexivity.
Qed.

(** ** The revocation list on disk *)

(** X8: without a [resources] directory the check fails open.  When the
    directory is missing and cannot be created, or the file cannot be
    written in it, or the list cannot be fetched, [check_revocation_status]
    returns [False] for every certificate (lines 58-79) -- it raises
    nothing and never looks at the certificate, whose bytes need not even
    load. *)
Theorem missing_directory_fails_open (L : Lib) env certificate :
  dir_exists env = false ->
  cache env = None ->
  can_mkdir env = false \/ can_write env = false \/
  fetch env = FetchURLError \/ fetch env = FetchOSError ->
  fst (check_revocation_status L env certificate) = Ret false.
Proof.
  intros Hdir Hcache Hwhy.
  unfold check_revocation_status, file_exists. rewrite Hcache.
  unfold refresh, open_wb. rewrite Hdir. cbn [andb].
  unfold on_environment_error. rewrite Hdir. cbn [negb].
  destruct (can_mkdir env) eqn:Hmk; [|reflexivity].
  unfold open_wb. cbn [dir_exists with_dir can_write andb].
  destruct (can_write env) eqn:Hw; [|reflexivity].
  cbn [fetch with_cache with_dir].
  destruct Hwhy as [H|[H|[H|H]]]; try discriminate; rewrite H; reflexivity.
Qed.

(** A machine without the directory and without the right to create it:
    [alice] is not checked, and neither is a file that is no
    certificate. *)
Lemma missing_directory_fails_open_witness :
  fst (check_revocation_status Ref.lib Ref.no_directory "CERT:alice") = Ret false /\
  fst (check_revocation_status Ref.lib Ref.no_directory "hello") = Ret false.
Proof.
  split; apply missing_directory_fails_open; try reflexivity; left; reflexivity.
Defined.

(** X9: the cache.  A cache file younger than a day is used as it is:
    nothing is fetched or written, and the answer depends on the machine
    through the bytes of the file only.  When a refresh is due and the
    list is fetched and written, the file holds the fetched bytes
    afterwards, the answer is the one for these bytes, and the next call
    (the file being fresh) gives the same answer without another
    refresh. *)
Theorem fresh_cache_is_reused (L : Lib) env certificate :
  (forall crl_bytes,
     cache env = Some crl_bytes -> (cache_age_days env <= 0)%Z ->
     snd (check_revocation_status L env certificate) = env /\
     loaded_crl env = Some crl_bytes /\
     forall env2, cache env2 = Some crl_bytes -> (cache_age_days env2 <= 0)%Z ->
                  fst (check_revocation_status L env2 certificate)
                  = fst (check_revocation_status L env certificate)) /\
  (forall r,
     dir_exists env = true -> can_write env = true -> fetch env = FetchOk r ->
     (file_exists env = true -> (0 < cache_age_days env)%Z) ->
     let env' := snd (check_revocation_status L env certificate) in
     cache env' = Some r /\
     loaded_crl env = Some r /\
     check_revocation_status L env' certificate
       = (fst (check_revocation_status L env certificate), env')).
Proof.
  assert (Hfresh : forall e bytes, cache e = Some bytes -> (cache_age_days e <= 0)%Z ->
            check_revocation_status L e certificate = (lookup L e certificate, e) /\
            loaded_crl e = Some bytes).
  { intros e bytes Hc Hage.
    unfold check_revocation_status, loaded_crl, file_exists. rewrite Hc.
    replace (0 <? cache_age_days e)%Z with false by (symmetry; apply Z.ltb_ge; exact Hage).
    split; reflexivity. }
  split.
  - intros crl_bytes Hc Hage.
    destruct (Hfresh env crl_bytes Hc Hage) as [Heq Hl].
    split; [rewrite Heq; reflexivity|]. split; [exact Hl|].
    intros env2 Hc2 Hage2.
    destruct (Hfresh env2 crl_bytes Hc2 Hage2) as [_ Hl2].
    rewrite (check_revocation_status_loaded L env2 certificate crl_bytes Hl2).
    rewrite (check_revocation_status_loaded L env certificate crl_bytes Hl).
    reflexivity.
  - intros r Hdir Hw Hfetch Hage.
    assert (Hrenew : (if file_exists env then (0 <? cache_age_days env)%Z else true) = true).
    { destruct (file_exists env); [|reflexivity]. apply Z.ltb_lt, Hage. reflexivity. }
    assert (Heq : check_revocation_status L env certificate
                  = (lookup L (with_cache (Some r) (with_cache (Some "") env)) certificate,
                     with_cache (Some r) (with_cache (Some "") env))).
    { unfold check_revocation_status. rewrite Hrenew.
      unfold refresh, open_wb. rewrite Hdir, Hw. cbn [andb fetch with_cache].
      rewrite Hfetch. reflexivity. }
    assert (Hl : loaded_crl env = Some r).
    { unfold loaded_crl. rewrite Hrenew.
      unfold refresh, open_wb. rewrite Hdir, Hw. cbn [andb fetch with_cache].
      rewrite Hfetch. reflexivity. }
    cbv zeta. rewrite Heq. cbn [fst snd].
    split; [reflexivity|]. split; [exact Hl|].
    destruct (Hfresh (with_cache (Some r) (with_cache (Some "") env)) r eq_refl)
      as [Heq' _]; [cbn; lia|].
    exact Heq'.
Qed.

(** ** An empty revocation list *)

(** X10: pyOpenSSL's [get_revoked] returns [None] for a list without
    entries, and the loop of line 92 cannot iterate over it: with such a
    list in the cache, [check_revocation_status] raises [TypeError] for
    every certificate that loads, and so does [validate] on a correctly
    signed document -- it catches [ValueError] only (line 150). *)
Theorem empty_revocation_list_raises (L : Lib) env crl_bytes op_crl :
  Laws.parse_tostring L ->
  Laws.b64_roundtrip L ->
  loaded_crl env = Some crl_bytes ->
  load_crl L crl_bytes = Some op_crl ->
  get_revoked L op_crl = None ->
  (forall data cert, load_certificate L data = Some cert ->
     fst (check_revocation_status L env data) = Raise TypeError) /\
  (forall fs x d private_key certificate decl kb (k : pkey L) cb cert,
     fromstring L x = Some d ->
     free_of reserved_tags d = true ->
     fs private_key = Some kb ->
     importKey L kb = Some k ->
     fs certificate = Some cb ->
     load_certificate L cb = Some cert ->
     exists out,
       sign L fs x private_key certificate decl = Ret out /\
       validate L env out = Raise TypeError).
Proof.
  intros Hparse Hb64 Hl Hcrl Hnone.
  assert (Hcheck : forall data cert, load_certificate L data = Some cert ->
            fst (check_revocation_status L env data) = Raise TypeError).
  { intros data cert Hcert.
    rewrite (check_revocation_status_loaded L env data crl_bytes Hl), Hcrl, Hcert, Hnone.
    reflexivity. }
  split; [exact Hcheck|].
  intros fs x d private_key certificate decl kb k cb cert Hx Hfree Hkb Hk Hcb Hcert.
  rewrite (sign_eq L Hparse), Hx, Hkb, Hk, Hcb.
  eexists. split; [reflexivity|].
  unfold signature_for.
  rewrite (validate_application L Hparse env _ d _ _ _ cb _ Hfree (Hb64 _) (Hb64 _)).
  rewrite String.eqb_refl, (Hcheck cb cert Hcert). reflexivity.
Qed.

(** A fresh cache that holds a list without entries. *)
Lemma empty_revocation_list_raises_witness :
  fst (check_revocation_status Ref.lib (Ref.fresh_crl "") "CERT:alice") = Raise TypeError /\
  exists out,
    sign Ref.lib Ref.fs (tostring Ref.lib Plain Examples.request) "key.pem" "cert.der" true
      = Ret out /\
    validate Ref.lib (Ref.fresh_crl "") out = Raise TypeError.
Proof.
  destruct (empty_revocation_list_raises Ref.lib (Ref.fresh_crl "") "CRL:" []
              ref_parse_tostring ref_b64_roundtrip eq_refl eq_refl eq_refl) as [Hcheck Hval].
  split.
  - apply (Hcheck "CERT:alice" "alice"). reflexivity.
  - apply (Hval Ref.fs (tostring Ref.lib Plain Examples.request) Examples.request
                "key.pem" "cert.der" true "KEY:alice" "alice" "CERT:alice" "alice"
                (ref_parse_tostring Plain _));
      [vm_compute; reflexivity|reflexivity|reflexivity|reflexivity|reflexivity].
Defined.

(** ** What [sending] needs *)

Lemma only_ret {A} (l : list A) a : Plugin.only l = Ret a -> l = [a].
Proof. destruct l as [|b [|? ?]]; try discriminate. intros H. injection H as ->. reflexivity. Qed.

Lemma only_raise {A} (l : list A) : length l <> 1 -> Plugin.only l = Raise ValueError.
Proof. destruct l as [|b [|? ?]]; try reflexivity. intros H. exfalso. apply H. reflexivity. Qed.

Lemma length_flat_mapi_tag t p i0 l :
  length (flat_mapi (fun i k => if has_tag t k then [child_loc p i k] else []) i0 l)
  = length (filter (has_tag t) l).
Proof.
  revert i0. induction l as [|a l IH]; intros i0; [reflexivity|].
  cbn [flat_mapi filter]. rewrite length_app, IH.
  destruct (has_tag t a); reflexivity.
Qed.

Lemma length_children_with t p :
  length (children_with t p) = length (filter (has_tag t) (children (l_node p))).
Proof. apply length_flat_mapi_tag. Qed.

Lemma filter_update_nth_length {A} (q : A -> bool) f i (l : list A) :
  (forall a, q (f a) = q a) ->
  length (filter q (update_nth i f l)) = length (filter q l).
Proof.
  intros Hf. revert i. induction l as [|a l IH]; intros i; [destruct i; reflexivity|].
  destruct i as [|i]; cbn [update_nth filter].
  - rewrite Hf. destruct (q a); reflexivity.
  - destruct (q a); cbn [length]; rewrite IH; reflexivity.
Qed.

(** Marking the body does not change how many headers the envelope has. *)
Lemma header_xpath_marked env i f :
  (forall a, tag (f a) = tag a) ->
  length (Plugin.HEADER_XPATH (update_at [i] f env)) = length (Plugin.HEADER_XPATH env).
Proof.
  intros Hf. unfold Plugin.HEADER_XPATH.
  rewrite update_at_cons.
  change (has_tag (Plugin.ns_id "Envelope" Plugin.envns) (set_children _ env))
    with (has_tag (Plugin.ns_id "Envelope" Plugin.envns) env).
  destruct (has_tag _ env); [|reflexivity].
  rewrite !length_children_with. cbn [l_node root_loc children set_children].
  apply filter_update_nth_length. intros a. rewrite update_at_nil.
  unfold has_tag. rewrite Hf. reflexivity.
Qed.

Lemma ensure_security_header_returns uuid n env queue header :
  Plugin.HEADER_XPATH env = [header] ->
  exists r, Plugin.ensure_security_header uuid n env queue = Ret r.
Proof.
  intros H. unfold Plugin.ensure_security_header. rewrite H. cbn [Plugin.only bind].
  destruct (Plugin.SECURITY_XPATH header) as [|security rest].
  - eexists. reflexivity.
  - destruct (Plugin.mark_timestamps uuid n (children (l_node security)) queue)
      as [[kids queue'] n'].
    eexists. reflexivity.
Qed.

Lemma calculate_signature_value_ret (L : Lib) fs x private_key exclusive comments sv :
  calculate_signature_value L fs x private_key exclusive comments = Ret sv ->
  exists kb k, fs private_key = Some kb /\ importKey L kb = Some k.
Proof.
  unfold calculate_signature_value.
  destruct (canonicalizate_message L x exclusive comments); [|discriminate].
  cbn [bind].
  destruct (fs private_key) as [kb|] eqn:Hkb; [|discriminate].
  destruct (importKey L kb) as [k|] eqn:Hk; [|discriminate].
  intros _. exists kb, k. split; [reflexivity|exact Hk].
Qed.

Ltac bind_inv_as H E :=
  match type of H with
  | bind ?m _ = Ret _ => destruct m eqn:E; cbn [bind] in H; [|discriminate H]
  end.

Ltac bind_inv H := let E := fresh "E" in bind_inv_as H E.

Lemma get_signature_ret (L : Lib) P fs envelope out :
  Plugin.get_signature L P fs envelope = Ret out ->
  exists kb k, fs (Plugin.keyfile P) = Some kb /\ importKey L kb = Some k.
Proof.
  unfold Plugin.get_signature. intros H.
  destruct (fromstring L envelope) as [doc|]; [|discriminate].
  repeat (cbv zeta in H; bind_inv H).
  match goal with
  | E : calculate_signature_value _ _ _ _ _ _ = Ret _ |- _ =>
      exact (calculate_signature_value_ret _ _ _ _ _ _ _ E)
  end.
Qed.

(** X11: what [sending] raises before it signs, and what it needs to
    return.  An envelope that does not parse raises [XMLSyntaxError]; one
    that has not exactly one [Body], or not exactly one [Header], raises
    [ValueError] (the tuple assignments of lines 115 and 357); with one of
    each, an unreadable certificate file raises [IOError], whatever the
    security header holds.  When [sending] returns, the envelope had one
    [Body] and one [Header], and the certificate file and the key file
    were read and the key imported. *)
Theorem sending_needs (L : Lib) P uuid fs x :
  (fromstring L x = None -> Plugin.sending L P uuid fs x = Raise XMLSyntaxError) /\
  (forall env, fromstring L x = Some env ->
     length (Plugin.BODY_XPATH env) <> 1 ->
     Plugin.sending L P uuid fs x = Raise ValueError) /\
  (forall env, fromstring L x = Some env ->
     length (Plugin.BODY_XPATH env) = 1 ->
     length (Plugin.HEADER_XPATH env) <> 1 ->
     Plugin.sending L P uuid fs x = Raise ValueError) /\
  (forall env, fromstring L x = Some env ->
     length (Plugin.BODY_XPATH env) = 1 ->
     length (Plugin.HEADER_XPATH env) = 1 ->
     fs (Plugin.certificate P) = None ->
     Plugin.sending L P uuid fs x = Raise IOError) /\
  (forall out, Plugin.sending L P uuid fs x = Ret out ->
     exists env cb kb k,
       fromstring L x = Some env /\
       length (Plugin.BODY_XPATH env) = 1 /\
       length (Plugin.HEADER_XPATH env) = 1 /\
       fs (Plugin.certificate P) = Some cb /\
       fs (Plugin.keyfile P) = Some kb /\
       importKey L kb = Some k).
Proof.
  assert (Hbody : forall env body, Plugin.BODY_XPATH env = [body] -> exists i, l_path body = [i]).
  { intros env body H. unfold Plugin.BODY_XPATH in H.
    destruct (has_tag _ env); [|discriminate].
    destruct (children_with_single_inv _ _ _ H) as (i & k & _ & _ & -> & _).
    exists i. reflexivity. }
  assert (Hmark : forall env body v,
            Plugin.BODY_XPATH env = [body] ->
            length (Plugin.HEADER_XPATH (update_at (l_path body) (set_attr Plugin.WSU_ID v) env))
            = length (Plugin.HEADER_XPATH env)).
  { intros env body v H. destruct (Hbody env body H) as [i ->].
    apply header_xpath_marked. intros a. reflexivity. }
  unfold Plugin.sending.
  split; [intros ->; reflexivity|].
  split.
  { intros env -> Hlen. rewrite (only_raise _ Hlen). reflexivity. }
  split.
  { intros env -> Hb Hh.
    destruct (Plugin.BODY_XPATH env) as [|body [|? ?]] eqn:Eb; try discriminate.
    cbn [Plugin.only bind].
    unfold Plugin.ensure_security_header.
    rewrite only_raise; [reflexivity|].
    rewrite (Hmark env body _ Eb). exact Hh. }
  split.
  { intros env -> Hb Hh Hcert.
    destruct (Plugin.BODY_XPATH env) as [|body [|? ?]] eqn:Eb; try discriminate.
    cbn [Plugin.only bind].
    rewrite <- (Hmark env body (Plugin.get_unique_id (uuid 0)) Eb) in Hh.
    destruct (Plugin.HEADER_XPATH _) as [|header [|? ?]] eqn:Eh; try discriminate.
    destruct (ensure_security_header_returns uuid 1 _ [Plugin.get_unique_id (uuid 0)] header Eh)
      as [[[[env' security] queue] n] ->].
    cbn [bind]. unfold Plugin.binary_security_token. rewrite Hcert. reflexivity. }
  intros out H.
  destruct (fromstring L x) as [env|]; [|discriminate].
  bind_inv_as H Ebody. apply only_ret in Ebody.
  bind_inv_as H Eensure.
  match type of Eensure with _ = Ret ?r => destruct r as [[[env' security] queue] n] end.
  bind_inv_as H Etoken.
  unfold Plugin.binary_security_token in Etoken.
  destruct (fs (Plugin.certificate P)) as [cb|] eqn:Hcb; [|discriminate].
  destruct (get_signature_ret L P fs _ out H) as (kb & k & Hkb & Hk).
  exists env, cb, kb, k.
  split; [reflexivity|]. split; [rewrite Ebody; reflexivity|].
  split.
  { match type of Ebody with _ = [?b] =>
      rewrite <- (Hmark env b (Plugin.get_unique_id (uuid 0)) Ebody) end.
    unfold Plugin.ensure_security_header in Eensure.
    bind_inv_as Eensure Eheader. apply only_ret in Eheader. rewrite Eheader. reflexivity. }
  split; [reflexivity|]. split; assumption.
Qed.

Import Util UtilAux.

(** * util.py *)

(** ** Digits *)

Lemma is_decimal_spec c :
  is_decimal c = true <-> 48 <= nat_of_ascii c <= 57.
Proof.
  unfold is_decimal. rewrite andb_true_iff, !Nat.leb_le. tauto.
Qed.

Lemma int_char_lt c d : int_char c = Some d -> d < 10.
Proof.
  unfold int_char. destruct (is_decimal c) eqn:E; [|discriminate].
  apply is_decimal_spec in E. intros H. injection H as <-. lia.
Qed.

Lemma int_char_inj c c' d : int_char c = Some d -> int_char c' = Some d -> c = c'.
Proof.
  unfold int_char.
  destruct (is_decimal c) eqn:E; [|discriminate].
  destruct (is_decimal c') eqn:E'; [|discriminate].
  apply is_decimal_spec in E. apply is_decimal_spec in E'.
  intros H H'. injection H as H. injection H' as H'.
  rewrite <- (ascii_nat_embedding c), <- (ascii_nat_embedding c').
  f_equal. lia.
Qed.

Lemma int_char_decimal c : is_decimal c = true <-> exists d, int_char c = Some d.
Proof.
  unfold int_char. destruct (is_decimal c); split; intros H; try discriminate.
  - eexists. reflexivity.
  - reflexivity.
  - destruct H as [d H]. discriminate.
Qed.

Lemma int_list_app a b :
  int_list (a ++ b) =
  match int_list a, int_list b with
  | Some la, Some lb => Some (la ++ lb)
  | _, _ => None
  end.
Proof.
  induction a as [|c a IH]; cbn [String.append int_list].
  - destruct (int_list b); reflexivity.
  - rewrite IH. destruct (int_char c); [|reflexivity].
    destruct (int_list a); [|reflexivity].
    destruct (int_list b); reflexivity.
Qed.

Lemma int_list_length s l : int_list s = Some l -> length l = String.length s.
Proof.
  revert l. induction s as [|c s IH]; intros l; cbn [int_list String.length].
  - intros H. injection H as <-. reflexivity.
  - destruct (int_char c); [|discriminate].
    destruct (int_list s) as [l'|]; [|discriminate].
    intros H. injection H as <-. cbn [length]. rewrite (IH l' eq_refl). reflexivity.
Qed.

Lemma int_list_decimals s : decimals s = true <-> exists l, int_list s = Some l.
Proof.
  unfold decimals. induction s as [|c s IH]; cbn [list_ascii_of_string forallb int_list].
  - split; [eexists; reflexivity|reflexivity].
  - rewrite andb_true_iff, IH, int_char_decimal. split.
    + intros [[d ->] [l ->]]. eexists. reflexivity.
    + intros [l H]. destruct (int_char c) as [d|]; [|discriminate].
      destruct (int_list s) as [l'|]; [|discriminate].
      split; eexists; reflexivity.
Qed.

(** ** The Luhn sum *)

Lemma every_other_cons {A} (x : A) l : every_other (x :: l) = x :: every_other (tl l).
Proof. destruct l; reflexivity. Qed.

Lemma luhn_sum_eq r :
  list_sum (every_other r ++ map double_digit (every_other (tl r))) = luhn_sum true r /\
  list_sum (map double_digit (every_other r) ++ every_other (tl r)) = luhn_sum false r.
Proof.
  induction r as [|x r [IH1 IH2]]; [split; reflexivity|].
  rewrite every_other_cons. cbn [tl map app luhn_sum negb].
  rewrite <- IH1, <- IH2.
  cbn [list_sum fold_right]. change (fold_right Nat.add 0) with list_sum.
  rewrite !list_sum_app. split; lia.
Qed.

Lemma check_luhn_eq key :
  check_luhn_modulo10 key =
  match int_list key with
  | None => false
  | Some numbers => (luhn_sum true (rev numbers) mod 10 =? 0)%nat
  end.
Proof.
  unfold check_luhn_modulo10. destruct (int_list key) as [numbers|]; [|reflexivity].
  cbv zeta. rewrite (proj1 (luhn_sum_eq _)). reflexivity.
Qed.

Lemma luhn_sum_app p a b :
  luhn_sum p (a ++ b) = luhn_sum p a + luhn_sum (if Nat.even (length a) then p else negb p) b.
Proof.
  revert p. induction a as [|x a IH]; intros p; [reflexivity|].
  cbn [app luhn_sum length]. rewrite IH, Nat.even_succ, <- Nat.negb_even.
  destruct (Nat.even (length a)); cbn [negb]; rewrite ?negb_involutive; lia.
Qed.

Lemma below_10 (P : nat -> bool) :
  forallb P (seq 0 10) = true -> forall d, d < 10 -> P d = true.
Proof.
  intros H d Hd. rewrite forallb_forall in H. apply H, in_seq. lia.
Qed.

Lemma double_digit_neq d d' :
  d < 10 -> d' < 10 -> d <> d' ->
  double_digit d < 10 /\ double_digit d' < 10 /\ double_digit d <> double_digit d'.
Proof.
  intros Hd Hd' Hne.
  assert (H := below_10 (fun a => forallb (fun b =>
              (double_digit a <? 10)%nat
              && ((a =? b)%nat || negb (double_digit a =? double_digit b)%nat))
              (seq 0 10)) eq_refl d Hd).
  cbv beta in H. rewrite forallb_forall in H.
  specialize (H d' (proj2 (in_seq _ _ _) (conj (Nat.le_0_l _) Hd'))).
  apply andb_true_iff in H as [H1 H2]. apply Nat.ltb_lt in H1.
  assert (H' := below_10 (fun a => (double_digit a <? 10)%nat) eq_refl d' Hd').
  apply Nat.ltb_lt in H'.
  split; [exact H1|]. split; [exact H'|].
  apply orb_true_iff in H2 as [H2|H2].
  - apply Nat.eqb_eq in H2. contradiction.
  - apply negb_true_iff, Nat.eqb_neq in H2. exact H2.
Qed.

Lemma mod10_shift a x y :
  x < 10 -> y < 10 -> x <> y -> (a + x) mod 10 = 0 -> (a + y) mod 10 <> 0.
Proof.
  intros Hx Hy Hne H H'.
  apply Nat.Lcm0.mod_divide in H, H'.
  destruct H as [u Hu], H' as [v Hv]. lia.
Qed.

(** The Luhn sum of a key around one of its digits. *)
Lemma luhn_sum_around la d lb :
  luhn_sum true (rev (la ++ d :: lb)) =
  luhn_sum true (rev lb)
  + (if Nat.even (length lb) then d else double_digit d)
  + luhn_sum (negb (Nat.even (length lb))) (rev la).
Proof.
  rewrite rev_app_distr. cbn [rev]. rewrite <- app_assoc. cbn [app].
  rewrite luhn_sum_app, length_rev. cbn [luhn_sum].
  destruct (Nat.even (length lb)); cbn [negb]; lia.
Qed.

Lemma mod10_same a u v :
  (a + u) mod 10 = 0 ->
  ((a + v) mod 10 =? 0)%nat = (u mod 10 =? v mod 10)%nat.
Proof.
  intros H.
  pose proof (Nat.div_mod_eq (a + u) 10) as E1.
  pose proof (Nat.div_mod_eq (a + v) 10) as E2.
  pose proof (Nat.div_mod_eq u 10) as E3.
  pose proof (Nat.div_mod_eq v 10) as E4.
  pose proof (Nat.mod_upper_bound (a + v) 10 ltac:(lia)) as B2.
  pose proof (Nat.mod_upper_bound u 10 ltac:(lia)) as B3.
  pose proof (Nat.mod_upper_bound v 10 ltac:(lia)) as B4.
  rewrite H in E1.
  destruct (Nat.eqb_spec ((a + v) mod 10) 0) as [Ha|Ha];
    destruct (Nat.eqb_spec (u mod 10) (v mod 10)) as [Hb|Hb]; try reflexivity; exfalso;
    generalize dependent ((a + v) mod 10); generalize dependent ((a + v) / 10);
    generalize dependent (u mod 10); generalize dependent (u / 10);
    generalize dependent (v mod 10); generalize dependent (v / 10);
    generalize dependent ((a + u) / 10); intros; lia.
Qed.

Lemma luhn_sum_around2 la d1 d2 lb :
  luhn_sum true (rev (la ++ d1 :: d2 :: lb)) =
  luhn_sum true (rev lb)
  + (if Nat.even (length lb) then d2 + double_digit d1 else double_digit d2 + d1)
  + luhn_sum (Nat.even (length lb)) (rev la).
Proof.
  change (la ++ d1 :: d2 :: lb) with (la ++ [d1] ++ d2 :: lb).
  rewrite app_assoc, luhn_sum_around, rev_app_distr. cbn [rev app luhn_sum].
  rewrite negb_involutive.
  destruct (Nat.even (length lb)); cbn [negb]; lia.
Qed.

Lemma swap_table d1 d2 :
  d1 < 10 -> d2 < 10 -> d1 <> d2 ->
  ((d2 + double_digit d1) mod 10 =? (d1 + double_digit d2) mod 10)%nat
  = ((d1 =? 0)%nat && (d2 =? 9)%nat) || ((d1 =? 9)%nat && (d2 =? 0)%nat).
Proof.
  intros H1 H2 Hne.
  assert (H := below_10 (fun a => forallb (fun b =>
              (a =? b)%nat ||
              Bool.eqb ((b + double_digit a) mod 10 =? (a + double_digit b) mod 10)%nat
                       (((a =? 0)%nat && (b =? 9)%nat) || ((a =? 9)%nat && (b =? 0)%nat)))
              (seq 0 10)) eq_refl d1 H1).
  cbv beta in H. rewrite forallb_forall in H.
  specialize (H d2 (proj2 (in_seq _ _ _) (conj (Nat.le_0_l _) H2))).
  apply orb_true_iff in H as [H|H].
  - apply Nat.eqb_eq in H. contradiction.
  - apply Bool.eqb_prop in H. exact H.
Qed.

(** ** Luhn: one wrong digit *)

(** X13: [check_luhn_modulo10] detects every single wrong digit: when a
    key passes, the key with one character replaced by a character of
    another value under [int] -- another digit, or a character that
    [int] refuses -- does not.  Among the characters below U+0100 every
    other character is of that kind ([int_char_inj]). *)
Theorem luhn_detects_single_digit_error a c c' b :
  check_luhn_modulo10 (a ++ String c b) = true ->
  int_char c' <> int_char c ->
  check_luhn_modulo10 (a ++ String c' b) = false.
Proof.
  rewrite !check_luhn_eq, !int_list_app. cbn [int_list].
  destruct (int_list a) as [la|]; [|discriminate].
  destruct (int_char c) as [d|] eqn:Hc; [|discriminate].
  destruct (int_list b) as [lb|]; [|discriminate].
  destruct (int_char c') as [d'|] eqn:Hc'; [|reflexivity].
  intros H Hne. apply Nat.eqb_eq in H. apply Nat.eqb_neq.
  assert (Hd : d' <> d) by congruence.
  pose proof (int_char_lt _ _ Hc) as Hlt. pose proof (int_char_lt _ _ Hc') as Hlt'.
  rewrite luhn_sum_around in *.
  destruct (double_digit_neq d d' Hlt Hlt' (not_eq_sym Hd)) as (Hdd & Hdd' & Hdne).
  set (A := luhn_sum true (rev lb)) in *.
  set (B := luhn_sum _ (rev la)) in *.
  destruct (Nat.even (length lb)).
  - replace (A + d' + B) with (A + B + d') by lia.
    replace (A + d + B) with (A + B + d) in H by lia.
    exact (mod10_shift _ d d' Hlt Hlt' (not_eq_sym Hd) H).
  - replace (A + double_digit d' + B) with (A + B + double_digit d') by lia.
    replace (A + double_digit d + B) with (A + B + double_digit d) in H by lia.
    exact (mod10_shift _ _ _ Hdd Hdd' Hdne H).
Qed.

(** The key 79927398713 passes; with its last digit raised by one it does
    not. *)
Lemma luhn_detects_single_digit_error_witness :
  check_luhn_modulo10 "79927398713" = true /\
  check_luhn_modulo10 "79927398714" = false.
Proof.
  split; [reflexivity|].
  apply (luhn_detects_single_digit_error "7992739871" "3" "4" "").
  - reflexivity.
  - vm_compute. discriminate.
Defined.

(** ** Luhn: two neighbours exchanged *)

(** X14: when a key passes and two neighbouring digits of different
    values are exchanged, the result passes exactly when the two values
    are 0 and 9: every other exchange of neighbours is detected, this
    one never. *)
Theorem luhn_adjacent_transposition a c1 c2 b :
  check_luhn_modulo10 (a ++ String c1 (String c2 b)) = true ->
  int_char c1 <> int_char c2 ->
  check_luhn_modulo10 (a ++ String c2 (String c1 b))
  = (value_is 0 c1 && value_is 9 c2) || (value_is 9 c1 && value_is 0 c2).
Proof.
  rewrite !check_luhn_eq, !int_list_app. unfold value_is. cbn [int_list].
  destruct (int_list a) as [la|]; [|discriminate].
  destruct (int_char c1) as [d1|] eqn:Hc1; [|discriminate].
  destruct (int_char c2) as [d2|] eqn:Hc2; [|discriminate].
  destruct (int_list b) as [lb|]; [|discriminate].
  intros H Hne. apply Nat.eqb_eq in H.
  assert (Hd : d1 <> d2) by congruence.
  pose proof (int_char_lt _ _ Hc1) as Hlt1. pose proof (int_char_lt _ _ Hc2) as Hlt2.
  rewrite luhn_sum_around2 in *.
  set (A := luhn_sum true (rev lb)) in *.
  set (B := luhn_sum _ (rev la)) in *.
  destruct (Nat.even (length lb)).
  - replace (A + (d1 + double_digit d2) + B) with (A + B + (d1 + double_digit d2)) by lia.
    replace (A + (d2 + double_digit d1) + B) with (A + B + (d2 + double_digit d1)) in H by lia.
    rewrite (mod10_same _ _ (d1 + double_digit d2) H).
    exact (swap_table d1 d2 Hlt1 Hlt2 Hd).
  - replace (A + (double_digit d1 + d2) + B) with (A + B + (d2 + double_digit d1)) by lia.
    replace (A + (double_digit d2 + d1) + B) with (A + B + (d1 + double_digit d2)) in H by lia.
    rewrite (mod10_same _ _ (d2 + double_digit d1) H).
    rewrite Nat.eqb_sym. rewrite (swap_table d1 d2 Hlt1 Hlt2 Hd). reflexivity.
Qed.

(** In 79927398713 the exchange of 7 and 1 is detected; in 091 the
    exchange of 0 and 9 is not. *)
Lemma luhn_adjacent_transposition_witness :
  check_luhn_modulo10 "79927398173" = false /\
  check_luhn_modulo10 "901" = true.
Proof.
  split.
  - apply (luhn_adjacent_transposition "79927398" "7" "1" "3");
      [reflexivity|vm_compute; discriminate].
  - apply (luhn_adjacent_transposition "" "0" "9" "1"); [reflexivity|vm_compute; discriminate].
Defined.

(** ** Luhn: zeros in front *)

(** X15: zeros in front of a key do not change the answer of
    [check_luhn_modulo10], and the empty key passes; so every key of
    zeros passes. *)
Theorem luhn_ignores_leading_zeros n key :
  check_luhn_modulo10 (string_of_list_ascii (repeat "0"%char n) ++ key)
  = check_luhn_modulo10 key /\
  check_luhn_modulo10 (string_of_list_ascii (repeat "0"%char n)) = true.
Proof.
  assert (H : forall key, check_luhn_modulo10 (String "0" key) = check_luhn_modulo10 key).
  { intros k. rewrite !check_luhn_eq. cbn [int_list].
    change (int_char "0") with (Some 0).
    destruct (int_list k) as [l|]; [|reflexivity].
    cbn [rev]. rewrite luhn_sum_app. cbn [luhn_sum].
    destruct (Nat.even (length (rev l))); cbn; rewrite !Nat.add_0_r; reflexivity. }
  assert (H' : forall k, check_luhn_modulo10 (string_of_list_ascii (repeat "0"%char n) ++ k)
                         = check_luhn_modulo10 k).
  { intros k. induction n as [|n IH]; [reflexivity|].
    cbn [repeat string_of_list_ascii String.append]. rewrite H. exact IH. }
  split; [apply H'|].
  replace (string_of_list_ascii (repeat "0"%char n))
    with (string_of_list_ascii (repeat "0"%char n) ++ "")%string;
    [rewrite H'; reflexivity|].
  clear H'. induction n as [|n IH]; [reflexivity|].
  cbn [repeat string_of_list_ascii String.append]. f_equal. exact IH.
Qed.

(** ** Decimal values *)

Lemma fold_value l acc :
  fold_left (fun a d => 10 * a + Z.of_nat d)%Z l acc
  = (acc * 10 ^ Z.of_nat (length l) + value l)%Z.
Proof.
  unfold value. revert acc. induction l as [|d l IH]; intros acc.
  - cbn. lia.
  - cbn [fold_left length]. rewrite IH, (IH (10 * 0 + Z.of_nat d)%Z).
    rewrite Nat2Z.inj_succ, Z.pow_succ_r by lia. lia.
Qed.

Lemma value_app la lb :
  value (la ++ lb) = (value la * 10 ^ Z.of_nat (length lb) + value lb)%Z.
Proof.
  unfold value at 1. rewrite fold_left_app. fold (value la). apply fold_value.
Qed.

Lemma value_nonneg l : (0 <= value l)%Z.
Proof.
  induction l as [|d l IH] using rev_ind; [cbn; lia|].
  rewrite value_app. cbn [length]. change (value [d]) with (10 * 0 + Z.of_nat d)%Z. lia.
Qed.

Lemma int_eq s : int_ s = match int_list s with
                          | Some l => Ret (value l)
                          | None => Raise ValueError
                          end.
Proof. reflexivity. Qed.

Lemma pow10_97 q x : (97 | x * 10 ^ Z.of_nat q)%Z -> (97 | x)%Z.
Proof.
  induction q as [|q IH]; intros H.
  - rewrite Z.mul_1_r in H. exact H.
  - apply IH. rewrite Nat2Z.inj_succ, Z.pow_succ_r in H by lia.
    apply (Z.gauss 97 10); [|reflexivity].
    replace (10 * (x * 10 ^ Z.of_nat q))%Z with (x * (10 * 10 ^ Z.of_nat q))%Z by lia.
    exact H.
Qed.

(** The two characters of ["{:0>2}".format(k)] for [k] below 100. *)
Lemma zfill2_str k :
  k < 100 ->
  zfill 2 (str k) = String (ascii_of_nat (48 + k / 10)) (String (ascii_of_nat (48 + k mod 10)) "").
Proof.
  intros Hk.
  assert (H : forallb (fun k => String.eqb (zfill 2 (str k))
                (String (ascii_of_nat (48 + k / 10)) (String (ascii_of_nat (48 + k mod 10)) "")))
              (seq 0 100) = true) by (vm_compute; reflexivity).
  rewrite forallb_forall in H. apply String.eqb_eq, H, in_seq. lia.
Qed.

Lemma int_char_ascii c d : int_char c = Some d -> c = ascii_of_nat (48 + d).
Proof.
  unfold int_char. destruct (is_decimal c) eqn:E; [|discriminate].
  apply is_decimal_spec in E. intros H. injection H as <-.
  replace (48 + (nat_of_ascii c - 48)) with (nat_of_ascii c) by lia.
  symmetry. apply ascii_nat_embedding.
Qed.

Lemma int_char_of_nat d : d < 10 -> int_char (ascii_of_nat (48 + d)) = Some d.
Proof.
  intros Hd. unfold int_char, is_decimal.
  rewrite nat_ascii_embedding by lia.
  replace (48 <=? 48 + d)%nat with true by (symmetry; apply Nat.leb_le; lia).
  replace (48 + d <=? 57)%nat with true by (symmetry; apply Nat.leb_le; lia).
  cbn [andb]. f_equal. lia.
Qed.

Lemma ret_inj {A} (a b : A) : Ret a = Ret b -> a = b.
Proof. intros H. injection H as ->. reflexivity. Qed.

Lemma string_cons_inv c s c' s' : String c s = String c' s' -> c = c' /\ s = s'.
Proof. intros H. injection H as -> ->. split; reflexivity. Qed.

Lemma decimals_isdigit s : decimals s = true -> s <> "" -> isdigit s = true.
Proof.
  unfold decimals, isdigit. intros H Hne.
  apply andb_true_iff. split.
  - apply negb_true_iff, String.eqb_neq. exact Hne.
  - rewrite forallb_forall in *. intros c Hc. unfold isdigit_char. rewrite (H c Hc). reflexivity.
Qed.

Lemma decimals_app a b : decimals (a ++ b) = decimals a && decimals b.
Proof.
  unfold decimals. induction a as [|c a IH]; [reflexivity|].
  cbn [String.append list_ascii_of_string forallb]. rewrite IH. apply andb_assoc.
Qed.

Lemma isdigit_app a b :
  b <> "" -> isdigit (a ++ b) = forallb isdigit_char (list_ascii_of_string a) && isdigit b.
Proof.
  intros Hb. unfold isdigit.
  replace (String.eqb (a ++ b) "") with false.
  2:{ symmetry. apply String.eqb_neq. destruct a; [exact Hb|discriminate]. }
  replace (String.eqb b "") with false by (symmetry; apply String.eqb_neq; exact Hb).
  cbn [negb andb].
  induction a as [|c a IH]; [reflexivity|].
  cbn [String.append list_ascii_of_string forallb]. rewrite IH. apply andb_assoc.
Qed.

(** ** IBAN *)

Lemma iban_shape s :
  String.length s = 18 ->
  exists a b c1 c2 r, s = String a (String b (String c1 (String c2 r))) /\ String.length r = 14.
Proof.
  destruct s as [|a [|b [|c1 [|c2 r]]]]; try discriminate.
  intros H. exists a, b, c1, c2, r. split; [reflexivity|]. cbn in H. lia.
Qed.

(** What [is_valid_iban] computes on a string of 18 characters. *)
Lemma is_valid_iban_eq a b c1 c2 r :
  String.length r = 14 ->
  is_valid_iban (String a (String b (String c1 (String c2 r)))) =
  if forallb isdigit_char (list_ascii_of_string r) then
    match int_list r with
    | Some l =>
        Ret (String.eqb (zfill 2 (str (Z.to_nat (98 - (value l * 1000000 + 151800) mod 97))))
                        (String c1 (String c2 "")))
    | None => Raise ValueError
    end
  else Ret false.
Proof.
  intros Hr. unfold is_valid_iban. cbn [String.length]. rewrite Hr. cbn [Nat.eqb negb drop take].
  rewrite isdigit_app by discriminate.
  change (isdigit "151800") with true. rewrite andb_true_r.
  destruct (forallb isdigit_char (list_ascii_of_string r)); [|reflexivity].
  cbn [negb]. rewrite int_eq, int_list_app.
  destruct (int_list r) as [l|]; [|reflexivity].
  change (int_list "151800") with (Some [1; 5; 1; 8; 0; 0]).
  cbn [bind]. rewrite value_app.
  change (value [1; 5; 1; 8; 0; 0]) with 151800%Z.
  change (10 ^ Z.of_nat (length [1; 5; 1; 8; 0; 0]))%Z with 1000000%Z.
  destruct (String.eqb _ _); reflexivity.
Qed.

Lemma int_list_forallb r l :
  int_list r = Some l -> forallb isdigit_char (list_ascii_of_string r) = true.
Proof.
  intros H. assert (Hd : decimals r = true) by (apply int_list_decimals; eexists; exact H).
  unfold decimals in Hd. rewrite forallb_forall in *. intros c Hc.
  unfold isdigit_char. rewrite (Hd c Hc). reflexivity.
Qed.

(** The check of the standard (ISO 13616): the digits of the account,
    then 1518 for [FI], then the two check digits, read as one number,
    leave the remainder 1 modulo 97. *)
Lemma is_valid_iban_mod97 s :
  is_valid_iban s = Ret true <->
  String.length s = 18 /\
  exists m c, int_ (drop 4 s ++ "1518" ++ take 2 (drop 2 s)) = Ret m /\
              int_ (take 2 (drop 2 s)) = Ret c /\
              (m mod 97 = 1)%Z /\ (2 <= c <= 98)%Z.
Proof.
  split.
  - intros H.
    assert (Hlen : String.length s = 18).
    { unfold is_valid_iban in H. destruct (Nat.eqb_spec (String.length s) 18); [assumption|].
      discriminate. }
    split; [exact Hlen|].
    destruct (iban_shape s Hlen) as (a & b & c1 & c2 & r & -> & Hr).
    rewrite (is_valid_iban_eq a b c1 c2 r Hr) in H.
    destruct (forallb _ _); [|discriminate].
    destruct (int_list r) as [l|] eqn:Hl; [|discriminate].
    match type of H with
    | Ret (String.eqb ?x ?y) = _ => destruct (String.eqb_spec x y) as [H'|]; [|discriminate]
    end.
    clear H. rename H' into H.
    pose proof (value_nonneg l) as Hv.
    remember (value l * 1000000 + 151800)%Z as n eqn:En.
    pose proof (Z.mod_pos_bound n 97 ltac:(lia)) as Hmod.
    remember (n mod 97)%Z as q eqn:Eq.
    remember (Z.to_nat (98 - q)) as k eqn:Ek.
    assert (Hk' : 2 <= k <= 98) by lia.
    rewrite zfill2_str in H by lia.
    apply string_cons_inv in H as [<- H]. apply string_cons_inv in H as [<- _].
    cbn [drop take].
    assert (Hcc : int_list (String (ascii_of_nat (48 + k / 10))
                              (String (ascii_of_nat (48 + k mod 10)) ""))
                  = Some [k / 10; k mod 10]).
    { cbn [int_list].
      rewrite !int_char_of_nat; [reflexivity| |].
      - apply Nat.mod_upper_bound. lia.
      - apply Nat.Div0.div_lt_upper_bound. lia. }
    assert (Hkv : value [k / 10; k mod 10] = Z.of_nat k).
    { unfold value. cbn [fold_left].
      pose proof (Nat.div_mod_eq k 10). lia. }
    exists (n + Z.of_nat k)%Z, (Z.of_nat k).
    split.
    { rewrite int_eq, !int_list_app, Hl, Hcc.
      change (int_list "1518") with (Some [1; 5; 1; 8]).
      cbv iota beta. f_equal. rewrite !value_app, Hkv.
      change (value [1; 5; 1; 8]) with 1518%Z. cbn [length app].
      change (10 ^ Z.of_nat 2)%Z with 100%Z.
      change (10 ^ Z.of_nat 6)%Z with 1000000%Z.
      lia. }
    split; [rewrite int_eq, Hcc, Hkv; reflexivity|].
    split; [|lia].
    rewrite Ek, Z2Nat.id by lia. rewrite Eq.
    clear. Z.div_mod_to_equations. lia.
  - intros (Hlen & m & c & Hm & Hc & Hmod & Hrange).
    destruct (iban_shape s Hlen) as (a & b & c1 & c2 & r & -> & Hr).
    cbn [drop take] in Hm, Hc.
    rewrite (is_valid_iban_eq a b c1 c2 r Hr).
    rewrite int_eq, !int_list_app in Hm.
    destruct (int_list r) as [l|] eqn:Hl; [|discriminate].
    rewrite (int_list_forallb r l Hl).
    rewrite int_eq in Hc.
    change (int_list "1518") with (Some [1; 5; 1; 8]) in Hm.
    cbn [int_list] in Hc, Hm.
    destruct (int_char c1) as [x|] eqn:H1; [|discriminate].
    destruct (int_char c2) as [y|] eqn:H2; [|discriminate].
    apply ret_inj in Hc.
    cbv iota beta in Hm. apply ret_inj in Hm.
    rewrite !value_app in Hm. cbn [length app] in Hm.
    change (value [1; 5; 1; 8]) with 1518%Z in Hm.
    change (10 ^ Z.of_nat 2)%Z with 100%Z in Hm.
    change (10 ^ Z.of_nat 6)%Z with 1000000%Z in Hm.
    rewrite Hc in Hm.
    pose proof (value_nonneg l) as Hv.
    remember (value l * 1000000 + 151800)%Z as n eqn:En.
    assert (Hn : m = (n + c)%Z) by lia.
    assert (Hk : (98 - n mod 97 = c)%Z).
    { rewrite Hn in Hmod. clear - Hmod Hrange. Z.div_mod_to_equations. lia. }
    rewrite Hk.
    assert (Hxy : c = Z.of_nat (10 * x + y)).
    { rewrite <- Hc. unfold value. cbn [fold_left]. lia. }
    pose proof (int_char_lt _ _ H1). pose proof (int_char_lt _ _ H2).
    rewrite Hxy, Nat2Z.id, zfill2_str by lia.
    replace ((10 * x + y) / 10) with x.
    2:{ apply (Nat.div_unique _ 10 x y); lia. }
    replace ((10 * x + y) mod 10) with y.
    2:{ apply (Nat.mod_unique _ 10 x y); lia. }
    rewrite <- (int_char_ascii _ _ H1), <- (int_char_ascii _ _ H2).
    rewrite String.eqb_refl. reflexivity.
Qed.

(** X16: [is_valid_iban] implements the check of the standard for a
    Finnish account: it returns [True] exactly for a string of 18
    characters whose last 16 are decimal digits, whose check digits are
    between 02 and 98, and for which the number read from the account
    digits followed by 1518 and the check digits leaves the remainder 1
    modulo 97.  The first two characters are not looked at.  The only
    exception it raises is [ValueError], for 18 characters that pass
    [isdigit] from the fifth on without all being decimal digits. *)
Theorem is_valid_iban_iso s :
  (is_valid_iban s = Ret true <->
   String.length s = 18 /\
   exists m c, int_ (drop 4 s ++ "1518" ++ take 2 (drop 2 s)) = Ret m /\
               int_ (take 2 (drop 2 s)) = Ret c /\
               (m mod 97 = 1)%Z /\ (2 <= c <= 98)%Z) /\
  (forall a b a' b', is_valid_iban (String a (String b s))
                     = is_valid_iban (String a' (String b' s))) /\
  (forall e, is_valid_iban s = Raise e <->
             e = ValueError /\ String.length s = 18 /\
             isdigit (drop 4 s) = true /\ decimals (drop 4 s) = false).
Proof.
  split; [apply is_valid_iban_mod97|]. split.
  - intros a b a' b'. unfold is_valid_iban. reflexivity.
  - intros e. split.
    + intros H.
      assert (Hlen : String.length s = 18).
      { unfold is_valid_iban in H. destruct (Nat.eqb_spec (String.length s) 18); [assumption|].
        discriminate. }
      destruct (iban_shape s Hlen) as (a & b & c1 & c2 & r & -> & Hr).
      rewrite (is_valid_iban_eq a b c1 c2 r Hr) in H. cbn [drop].
      destruct (forallb isdigit_char (list_ascii_of_string r)) eqn:Hd; [|discriminate].
      destruct (int_list r) as [l|] eqn:Hl; [discriminate|].
      injection H as <-. split; [reflexivity|]. split; [exact Hlen|]. split.
      * unfold isdigit. rewrite Hd. destruct r; [discriminate|reflexivity].
      * destruct (decimals r) eqn:E; [|reflexivity].
        apply int_list_decimals in E as [l E]. congruence.
    + intros (-> & Hlen & Hd & Hdec).
      destruct (iban_shape s Hlen) as (a & b & c1 & c2 & r & -> & Hr).
      rewrite (is_valid_iban_eq a b c1 c2 r Hr). cbn [drop] in Hd, Hdec.
      unfold isdigit in Hd. apply andb_true_iff in Hd as [_ Hd]. rewrite Hd.
      destruct (int_list r) as [l|] eqn:Hl; [|reflexivity].
      assert (decimals r = true) by (apply int_list_decimals; eexists; exact Hl).
      congruence.
Qed.

(** ** IBAN: one wrong character *)

Lemma append_assoc_s (a b c : string) : ((a ++ b) ++ c = a ++ (b ++ c))%string.
Proof. induction a as [|x a IH]; [reflexivity|]. cbn [String.append]. rewrite IH. reflexivity. Qed.

(** The number that is reduced modulo 97, around one character of the
    account or of the check digits. *)
Lemma rearranged_around a b :
  2 <= String.length a ->
  exists P Q, forall c,
    (drop 4 (a ++ String c b) ++ "1518" ++ take 2 (drop 2 (a ++ String c b))
     = P ++ String c Q)%string.
Proof.
  destruct a as [|a0 [|a1 [|z [|z' a3]]]]; cbn [String.length]; try lia; intros _.
  - exists (drop 1 b ++ "1518")%string, (take 1 b). intros c.
    cbn [String.append drop take]. rewrite append_assoc_s. reflexivity.
  - exists (b ++ "1518" ++ String z "")%string, ""%string. intros c.
    cbn [String.append drop take]. rewrite !append_assoc_s. reflexivity.
  - exists a3, (b ++ "1518" ++ String z (String z' ""))%string. intros c.
    cbn [String.append drop take]. rewrite append_assoc_s. reflexivity.
Qed.

Lemma value_around lp d lq :
  value (lp ++ d :: lq)
  = (value lp * 10 ^ Z.of_nat (S (length lq)) + Z.of_nat d * 10 ^ Z.of_nat (length lq)
     + value lq)%Z.
Proof.
  change (d :: lq) with ([d] ++ lq). rewrite !value_app.
  change (value [d]) with (10 * 0 + Z.of_nat d)%Z. cbn [length app].
  rewrite Nat2Z.inj_succ, Z.pow_succ_r by lia. lia.
Qed.

(** X17: [is_valid_iban] detects every single wrong character behind the
    country code: when a string passes, the string with one of its
    characters from the third on replaced does not (it gives [False], or
    raises [ValueError] for a superscript digit) -- a check digit
    replaced by any other character, a digit of the account replaced by
    a character of another value under [int] (another digit, or a
    character that [int] refuses), which among the characters below
    U+0100 is every other character. *)
Theorem iban_detects_single_error a c c' b :
  is_valid_iban (a ++ String c b) = Ret true ->
  2 <= String.length a ->
  c' <> c ->
  (4 <= String.length a -> int_char c' <> int_char c) ->
  is_valid_iban (a ++ String c' b) <> Ret true.
Proof.
  intros H Hlen Hne Hvalue H'.
  apply is_valid_iban_mod97 in H as (_ & m & k & Hm & _ & Hmod & _).
  apply is_valid_iban_mod97 in H' as (_ & m' & k' & Hm' & _ & Hmod' & _).
  destruct (rearranged_around a b Hlen) as (P & Q & HPQ).
  rewrite HPQ in Hm, Hm'.
  rewrite int_eq, int_list_app in Hm, Hm'. cbn [int_list] in Hm, Hm'.
  destruct (int_list P) as [lp|]; [|discriminate].
  destruct (int_char c) as [d|] eqn:Hd; [|discriminate].
  destruct (int_char c') as [d'|] eqn:Hd'; [|discriminate].
  destruct (int_list Q) as [lq|]; [|discriminate].
  apply ret_inj in Hm, Hm'.
  rewrite value_around in Hm, Hm'.
  assert (Hdiv : (97 | (Z.of_nat d - Z.of_nat d') * 10 ^ Z.of_nat (length lq))%Z).
  { exists (m / 97 - m' / 97)%Z.
    pose proof (Z.div_mod m 97 ltac:(lia)). pose proof (Z.div_mod m' 97 ltac:(lia)).
    rewrite Hmod in *. rewrite Hmod' in *. nia. }
  apply pow10_97 in Hdiv. destruct Hdiv as [z Hz].
  pose proof (int_char_lt _ _ Hd). pose proof (int_char_lt _ _ Hd').
  assert (d = d') by lia. subst d'.
  destruct (le_lt_dec 4 (String.length a)) as [H4|H4].
  - apply (Hvalue H4). reflexivity.
  - apply Hne. exact (int_char_inj _ _ _ Hd' Hd).
Qed.

(** FI21 1234 5600 0007 85 passes; with the last digit, or a check digit,
    changed it does not. *)
Lemma iban_detects_single_error_witness :
  is_valid_iban "FI2112345600000785" = Ret true /\
  is_valid_iban "FI2112345600000786" <> Ret true /\
  is_valid_iban "FI2712345600000785" <> Ret true.
Proof.
  split; [reflexivity|]. split.
  - apply (iban_detects_single_error "FI211234560000078" "5" "6" "");
      [reflexivity|cbn; lia|discriminate|intros _; vm_compute; discriminate].
  - apply (iban_detects_single_error "FI2" "1" "7" "12345600000785");
      [reflexivity|cbn; lia|discriminate|intros _; vm_compute; discriminate].
Defined.

(** ** The pattern of [parse_account_number] *)

Lemma substring_take_drop pos n s : substring pos n s = take n (drop pos s).
Proof.
  revert pos n. induction s as [|c s IH]; intros pos n.
  - destruct pos, n; reflexivity.
  - destruct pos as [|pos].
    + cbn [drop]. revert c s IH. induction n as [|n IHn]; intros c s IH; [reflexivity|].
      cbn [substring take]. f_equal.
      destruct s as [|c' s']; [destruct n; reflexivity|].
      apply IHn. intros pos' n'. apply (IH (S pos') n').
    + cbn [substring drop]. apply IH.
Qed.

Lemma drop_drop a b s : drop b (drop a s) = drop (a + b) s.
Proof.
  revert s. induction a as [|a IH]; intros s; [reflexivity|].
  destruct s as [|c s]; [destruct b; reflexivity|].
  cbn [drop Nat.add]. apply IH.
Qed.

(** A repetition with a fixed count. *)
Lemma counted_exact p n pos rest g k :
  counted p n n pos rest g k =
  if (prefix_len p n rest =? n)%nat then k (pos + n) (drop n rest) g else None.
Proof.
  revert pos rest. induction n as [|n IH]; intros pos rest.
  - cbn. rewrite Nat.add_0_r. destruct rest; reflexivity.
  - cbn [counted prefix_len Nat.pred].
    destruct rest as [|c rest]; [reflexivity|].
    destruct (p c); [|reflexivity].
    rewrite IH. cbn [drop Nat.eqb]. rewrite Nat.add_succ_r.
    destruct (prefix_len p n rest =? n)%nat; [|reflexivity].
    destruct (k _ _ _); reflexivity.
Qed.

(** A greedy repetition before something that cannot start with a
    character of the class: nothing is gained by giving a character
    back. *)
Lemma counted_greedy p lo hi pos rest g k :
  (forall pos c rest g, p c = true -> k pos (String c rest) g = None) ->
  counted p lo hi pos rest g k =
  if (lo <=? prefix_len p hi rest)%nat
  then k (pos + prefix_len p hi rest) (drop (prefix_len p hi rest) rest) g
  else None.
Proof.
  intros Hk. revert lo pos rest. induction hi as [|hi IH]; intros lo pos rest.
  - cbn [counted prefix_len drop]. rewrite Nat.add_0_r.
    destruct lo; reflexivity.
  - cbn [counted prefix_len].
    destruct rest as [|c rest].
    + cbn [drop]. rewrite Nat.add_0_r. destruct lo; reflexivity.
    + destruct (p c) eqn:Hc.
      * rewrite IH. cbn [drop]. rewrite Nat.add_succ_r.
        replace (lo <=? S (prefix_len p hi rest))%nat
          with (Nat.pred lo <=? prefix_len p hi rest)%nat.
        2:{ destruct lo as [|lo]; [destruct (prefix_len p hi rest); reflexivity|reflexivity]. }
        destruct (Nat.pred lo <=? prefix_len p hi rest)%nat.
        -- cbn [Nat.add]. destruct (k _ _ _) eqn:E; [reflexivity|].
           rewrite Hk by exact Hc. destruct (lo =? 0)%nat; reflexivity.
        -- rewrite Hk by exact Hc. destruct (lo =? 0)%nat; reflexivity.
      * cbn [drop]. rewrite Nat.add_0_r. destruct lo; reflexivity.
Qed.

Lemma eol_decimal c rest : is_decimal c = true -> eol (String c rest) = false.
Proof.
  intros Hc. unfold eol. cbn [String.eqb orb].
  destruct (Ascii.eqb_spec c LF) as [->|]; [discriminate Hc|reflexivity].
Qed.

Lemma prefix_len_0 p n c rest : p c = false -> prefix_len p n (String c rest) = 0.
Proof. intros H. destruct n; cbn [prefix_len]; [reflexivity|]. rewrite H. reflexivity. Qed.

(** [-?(\d{2,8}$)] as the [i]-th group, at the end of the pattern. *)
Lemma run_tail s i pos rest g :
  rest = drop pos s ->
  run s (Seq (Counted (one_of ["-"%char]) 0 1) (Group i (Seq (Counted is_decimal 2 8) Eol)))
      pos rest g (fun _ _ g' => Some g')
  = match tail_of rest with
    | Some t => Some ((i, t) :: g)
    | None => None
    end.
Proof.
  intros Hrest.
  assert (Hinner : forall pos rest g,
            run s (Group i (Seq (Counted is_decimal 2 8) Eol)) pos rest g
                (fun _ _ g' => Some g')
            = if (2 <=? prefix_len is_decimal 8 rest)%nat
                 && eol (drop (prefix_len is_decimal 8 rest) rest)
              then Some ((i, substring pos (prefix_len is_decimal 8 rest) s) :: g)
              else None).
  { intros pos0 rest0 g0. cbn [run].
    rewrite counted_greedy.
    - destruct (2 <=? _)%nat; [|reflexivity]. cbn [andb].
      fold (eol (drop (prefix_len is_decimal 8 rest0) rest0)).
      destruct (eol _); [|reflexivity].
      replace (pos0 + prefix_len is_decimal 8 rest0 - pos0) with (prefix_len is_decimal 8 rest0)
        by lia.
      reflexivity.
    - intros pos1 c rest1 g1 Hc.
      fold (eol (String c rest1)). rewrite (eol_decimal c rest1 Hc). reflexivity. }
  change (run s (Seq ?a ?b) pos rest g ?k)
    with (counted (one_of ["-"%char]) 0 1 pos rest g
            (fun pos' rest' g' => run s (Group i (Seq (Counted is_decimal 2 8) Eol))
                                      pos' rest' g' k)).
  rewrite counted_greedy.
  - cbn [Nat.leb]. rewrite Hinner. unfold tail_of.
    destruct (_ && _); [|reflexivity].
    rewrite substring_take_drop, Hrest, drop_drop. reflexivity.
  - intros pos1 c rest1 g1 Hc. rewrite Hinner.
    rewrite prefix_len_0; [reflexivity|].
    unfold one_of in Hc. cbn [existsb] in Hc. rewrite orb_false_r in Hc.
    apply Ascii.eqb_eq in Hc. subst c. reflexivity.
Qed.

(** The pattern, read as a function. *)
Lemma re_match_pat s : re_match pat s = pat_spec s.
Proof.
  unfold re_match, pat.
  set (tail2 := Seq (Counted (one_of ["-"%char]) 0 1)
                    (Group 2 (Seq (Counted is_decimal 2 8) Eol))).
  set (tail4 := Seq (Counted (one_of ["-"%char]) 0 1)
                    (Group 4 (Seq (Counted is_decimal 2 8) Eol))).
  assert (H1 : run s (Seq (Group 1 (Seq Bol (Seq (Class (none_of ["3"; ","; "7"; ","; "9"]%char))
                                               (Counted is_decimal 5 5)))) tail2)
                   0 s [] (fun _ _ g => Some g)
               = match first_alternative s with
                 | Some t => Some [(2, t); (1, take 6 s)]
                 | None => None
                 end).
  { cbn [run Nat.eqb]. unfold first_alternative.
    destruct s as [|c r]; [reflexivity|].
    destruct (none_of _ c); [|reflexivity]. cbn [andb].
    rewrite counted_exact.
    destruct (prefix_len is_decimal 5 r =? 5)%nat; [|reflexivity].
    change (1 + 5 - 0) with 6.
    fold (run (String c r) tail2 (1 + 5) (drop 5 r) [(1, substring 0 6 (String c r))]
              (fun _ _ g => Some g)).
    unfold tail2. rewrite run_tail by reflexivity.
    rewrite substring_take_drop. reflexivity. }
  assert (H2 : run s (Seq (Group 3 (Seq Bol (Seq (Class (one_of ["3"%char]))
                                               (Seq (Class (none_of ["2"; ","; "5"]%char))
                                                    (Counted is_decimal 4 4))))) tail4)
                   0 s [] (fun _ _ g => Some g)
               = match second_alternative s with
                 | Some t => Some [(4, t); (3, take 6 s)]
                 | None => None
                 end).
  { cbn [run Nat.eqb]. unfold second_alternative.
    destruct s as [|c [|c' r]]; [reflexivity| |].
    - destruct (one_of _ c); reflexivity.
    - destruct (one_of _ c); [|reflexivity].
      destruct (none_of _ c'); [|reflexivity]. cbn [andb].
      rewrite counted_exact.
      destruct (prefix_len is_decimal 4 r =? 4)%nat; [|reflexivity].
      change (2 + 4 - 0) with 6.
      fold (run (String c (String c' r)) tail4 (2 + 4) (drop 4 r)
                [(3, substring 0 6 (String c (String c' r)))] (fun _ _ g => Some g)).
      unfold tail4. rewrite run_tail by reflexivity.
      rewrite substring_take_drop. reflexivity. }
  change (run s (Or ?a ?b) 0 s [] ?k)
    with (match run s a 0 s [] k with Some m => Some m | None => run s b 0 s [] k end).
  rewrite H1, H2. unfold pat_spec.
  destruct (first_alternative s); reflexivity.
Qed.

(** ** Prefixes of a class *)

Lemma prefix_len_le p n s : prefix_len p n s <= n /\ prefix_len p n s <= String.length s.
Proof.
  revert s. induction n as [|n IH]; intros s; [cbn; lia|].
  destruct s as [|c s]; [cbn; lia|].
  cbn [prefix_len String.length]. destruct (p c); [|lia].
  destruct (IH s). lia.
Qed.

Lemma prefix_len_all p n s :
  forallb p (list_ascii_of_string (take (prefix_len p n s) s)) = true.
Proof.
  revert s. induction n as [|n IH]; intros s; [destruct s; reflexivity|].
  destruct s as [|c s]; [reflexivity|].
  cbn [prefix_len]. destruct (p c) eqn:E; [|reflexivity].
  cbn [take list_ascii_of_string forallb]. rewrite E, IH. reflexivity.
Qed.

Lemma length_take n s : n <= String.length s -> String.length (take n s) = n.
Proof.
  revert s. induction n as [|n IH]; intros s H; [destruct s; reflexivity|].
  destruct s as [|c s]; [cbn in H; lia|].
  cbn [take String.length] in *. rewrite IH by lia. reflexivity.
Qed.

Lemma take_drop n s : (take n s ++ drop n s)%string = s.
Proof.
  revert s. induction n as [|n IH]; intros s; [destruct s; reflexivity|].
  destruct s as [|c s]; [reflexivity|].
  cbn [take drop String.append]. rewrite IH. reflexivity.
Qed.

Lemma length_append (a b : string) :
  String.length (a ++ b) = String.length a + String.length b.
Proof. induction a as [|c a IH]; [reflexivity|]. cbn [String.append String.length]. rewrite IH. reflexivity. Qed.

Lemma drop_app a b : drop (String.length a) (a ++ b) = b.
Proof. induction a as [|c a IH]; [destruct b; reflexivity|]. exact IH. Qed.

Lemma take_app a b : take (String.length a) (a ++ b) = a.
Proof.
  induction a as [|c a IH]; [destruct b; reflexivity|].
  cbn [String.length String.append take]. rewrite IH. reflexivity.
Qed.

(** The digits of [a], when [a] holds nothing else and what follows does
    not start with one. *)
Lemma prefix_len_app p n a b :
  forallb p (list_ascii_of_string a) = true ->
  String.length a <= n ->
  prefix_len p n (a ++ b) = String.length a + prefix_len p (n - String.length a) b.
Proof.
  revert n. induction a as [|c a IH]; intros n Ha Hn.
  - cbn [String.length String.append]. rewrite Nat.sub_0_r. reflexivity.
  - cbn [list_ascii_of_string forallb] in Ha. apply andb_true_iff in Ha as [Hc Ha].
    cbn [String.length] in *. destruct n as [|n]; [lia|].
    cbn [String.append prefix_len Nat.sub]. rewrite Hc, IH by (assumption || lia). reflexivity.
Qed.

Lemma eol_spec fin : eol fin = true <-> fin = "" \/ fin = String LF "".
Proof.
  unfold eol. rewrite orb_true_iff, !String.eqb_eq. tauto.
Qed.

Lemma prefix_len_eol p n fin : p LF = false -> eol fin = true -> prefix_len p n fin = 0.
Proof.
  intros Hp H. apply eol_spec in H as [->| ->]; [destruct n; reflexivity|].
  apply prefix_len_0. exact Hp.
Qed.

Lemma one_of_dash c : one_of ["-"%char] c = Ascii.eqb c "-".
Proof. unfold one_of. cbn [existsb]. apply orb_false_r. Qed.

(** ** What the tail of the pattern matches *)

Lemma tail_of_some rest t :
  tail_of rest = Some t ->
  2 <= String.length t <= 8 /\ decimals t = true /\
  exists dash fin, rest = (dash ++ t ++ fin)%string /\
                   (dash = "" \/ dash = "-") /\ eol fin = true.
Proof.
  unfold tail_of.
  set (j0 := prefix_len (one_of ["-"%char]) 1 rest).
  set (rest' := drop j0 rest).
  set (j := prefix_len is_decimal 8 rest').
  destruct (2 <=? j)%nat eqn:Hj; [|discriminate]. apply Nat.leb_le in Hj.
  destruct (eol (drop j rest')) eqn:He; [|discriminate].
  cbn [andb]. intros H. apply (f_equal (fun o => match o with Some x => x | None => "" end)) in H.
  cbv beta iota in H. subst t.
  destruct (prefix_len_le is_decimal 8 rest') as [H8 Hlen]. fold j in H8, Hlen.
  rewrite length_take by exact Hlen.
  split; [lia|]. split; [apply prefix_len_all|].
  exists (take j0 rest), (drop j rest'). split.
  - rewrite take_drop. unfold rest'. rewrite take_drop. reflexivity.
  - split; [|exact He].
    unfold j0. destruct rest as [|c r]; [left; reflexivity|].
    cbn [prefix_len]. rewrite one_of_dash.
    destruct (Ascii.eqb_spec c "-") as [->|]; [right; destruct r; reflexivity|left; reflexivity].
Qed.

Lemma tail_of_intro dash t fin :
  dash = "" \/ dash = "-" ->
  decimals t = true -> 2 <= String.length t <= 8 -> eol fin = true ->
  tail_of (dash ++ t ++ fin) = Some t.
Proof.
  intros Hdash Ht Hlen Hfin. unfold tail_of.
  assert (Hj0 : drop (prefix_len (one_of ["-"%char]) 1 (dash ++ t ++ fin)) (dash ++ t ++ fin)
                = (t ++ fin)%string).
  { assert (Ht0 : prefix_len (one_of ["-"%char]) 1 (t ++ fin) = 0).
    { destruct t as [|c t]; [cbn in Hlen; lia|].
      unfold decimals in Ht. cbn [list_ascii_of_string forallb] in Ht.
      apply andb_true_iff in Ht as [Hc _].
      cbn [String.append]. apply prefix_len_0. rewrite one_of_dash.
      destruct (Ascii.eqb_spec c "-") as [->|]; [discriminate Hc|reflexivity]. }
    destruct Hdash as [->| ->].
    - cbn [String.append]. rewrite Ht0. reflexivity.
    - cbn [String.append prefix_len]. rewrite one_of_dash. cbn [Ascii.eqb Bool.eqb].
      destruct (t ++ fin)%string; reflexivity. }
  cbv zeta. rewrite Hj0.
  rewrite (prefix_len_app is_decimal 8 t fin Ht) by lia.
  rewrite (prefix_len_eol is_decimal _ fin eq_refl Hfin), Nat.add_0_r.
  rewrite drop_app, take_app, Hfin.
  replace (2 <=? String.length t)%nat with true by (symmetry; apply Nat.leb_le; lia).
  reflexivity.
Qed.

(** ** [parse_account_number] *)

Lemma first_alternative_some s t :
  first_alternative s = Some t ->
  exists c r, s = String c r /\
              none_of ["3"; ","; "7"; ","; "9"]%char c = true /\
              prefix_len is_decimal 5 r = 5 /\
              tail_of (drop 5 r) = Some t.
Proof.
  unfold first_alternative. destruct s as [|c r]; [discriminate|].
  destruct (none_of _ c) eqn:Hc; [|discriminate].
  destruct (Nat.eqb_spec (prefix_len is_decimal 5 r) 5) as [E|]; [|discriminate].
  cbn [andb]. intros H. exists c, r. repeat split; try reflexivity; assumption.
Qed.

Lemma parse_account_number_eq s :
  parse_account_number s =
  bban <- (if String.prefix "FI" s then
             valid <- is_valid_iban s ;;
             if negb valid then Raise ValueError else Ret (drop 4 s)
           else Ret s) ;;
  parse_bban bban.
Proof.
  unfold parse_account_number.
  destruct (if String.prefix "FI" s then _ else _) as [bban|e]; [|reflexivity].
  cbn [bind]. rewrite re_match_pat. unfold pat_spec, parse_bban.
  destruct (first_alternative bban) as [t|] eqn:E1.
  - destruct (first_alternative_some bban t E1) as (c & r & -> & _ & _ & Ht).
    destruct (tail_of_some _ _ Ht) as ((Hlen & _) & _).
    destruct t as [|a0 a1]; [cbn in Hlen; lia|].
    cbn [group Nat.eqb subscriptable bind take item0 drop].
    unfold fill. destruct (one_of ["4"; "5"]%char c); reflexivity.
  - destruct (second_alternative bban); reflexivity.
Qed.

Lemma zfill_full w s : w <= String.length s -> zfill w s = s.
Proof. intros H. unfold zfill. replace (w - String.length s) with 0 by lia. reflexivity. Qed.

Lemma length_zeros n : String.length (string_of_list_ascii (repeat "0"%char n)) = n.
Proof. induction n as [|n IH]; [reflexivity|]. cbn. rewrite IH. reflexivity. Qed.

Lemma length_zfill w s : String.length (zfill w s) = Nat.max w (String.length s).
Proof. unfold zfill. rewrite length_append, length_zeros. lia. Qed.

Lemma length_fill c t : 2 <= String.length t <= 8 -> String.length (fill c t) = 8.
Proof.
  intros H. unfold fill. destruct (one_of _ c).
  - destruct t as [|a0 a1]; [cbn in H; lia|].
    cbn [String.length] in *. rewrite length_zfill. lia.
  - rewrite length_zfill. lia.
Qed.

Lemma fill_full c t : String.length t = 8 -> fill c t = t.
Proof.
  intros H. unfold fill. destruct (one_of _ c).
  - destruct t as [|a0 a1]; [discriminate|]. cbn [String.length] in H.
    rewrite zfill_full by lia. reflexivity.
  - apply zfill_full. lia.
Qed.

Lemma append_empty_r (s : string) : (s ++ "")%string = s.
Proof. induction s as [|c s IH]; [reflexivity|]. cbn [String.append]. rewrite IH. reflexivity. Qed.

(** An account number in the national format: the branch, an optional
    ['-'], the account, an optional final newline. *)
Lemma parse_bban_intro c d5 dash t fin :
  none_of ["3"; ","; "7"; ","; "9"]%char c = true ->
  decimals d5 = true -> String.length d5 = 5 ->
  dash = "" \/ dash = "-" ->
  decimals t = true -> 2 <= String.length t <= 8 ->
  eol fin = true ->
  parse_account_number (String c (d5 ++ dash ++ t ++ fin)) =
  if check_luhn_modulo10 (String c d5 ++ fill c t)
  then Ret (String c d5, fill c t) else Raise ValueError.
Proof.
  intros Hc Hd5 Hl5 Hdash Ht Hlt Hfin.
  rewrite parse_account_number_eq.
  replace (String.prefix "FI" (String c (d5 ++ dash ++ t ++ fin))) with false.
  2:{ destruct d5 as [|x d5]; [discriminate|].
      unfold decimals in Hd5. cbn [list_ascii_of_string forallb] in Hd5.
      apply andb_true_iff in Hd5 as [Hx _].
      cbn [String.append String.prefix].
      destruct (ascii_dec "F" c); [|reflexivity].
      destruct (ascii_dec "I" x) as [<-|]; [discriminate Hx|reflexivity]. }
  cbn [bind]. unfold parse_bban, first_alternative. rewrite Hc.
  rewrite (prefix_len_app is_decimal 5 d5 _ Hd5) by lia.
  rewrite Hl5. cbn [Nat.sub]. change (prefix_len is_decimal 0 ?x) with 0.
  cbn [Nat.add Nat.eqb andb].
  replace (drop 5 (d5 ++ dash ++ t ++ fin)) with (dash ++ t ++ fin)%string
    by (rewrite <- Hl5; symmetry; apply drop_app).
  rewrite (tail_of_intro dash t fin Hdash Ht Hlt Hfin).
  change (take 6 (String c ?x)) with (String c (take 5 x)).
  replace (take 5 (d5 ++ dash ++ t ++ fin)) with d5
    by (rewrite <- Hl5; symmetry; apply take_app).
  reflexivity.
Qed.

Lemma parse_bban_three r res : parse_bban (String "3" r) <> Ret res.
Proof.
  unfold parse_bban. change (first_alternative (String "3" r)) with (@None string).
  destruct (second_alternative _); discriminate.
Qed.

(** X18: an account number that starts with ['3'] never parses.  The
    second alternative of the pattern was written for it, but only the
    groups of the first alternative are read: when the number has the
    form of the second alternative, [branch] is [None] and [branch[0]]
    raises [TypeError]; otherwise the pattern does not match and
    [ValueError] is raised.  This holds for the national format and for
    an IBAN whose account starts with ['3']. *)
Theorem account_starting_with_3_never_parses :
  (forall r res, parse_account_number (String "3" r) <> Ret res) /\
  (forall s r res, String.prefix "FI" s = true -> drop 4 s = String "3" r ->
                   parse_account_number s <> Ret res) /\
  (forall c d4 dash t fin,
     none_of ["2"; ","; "5"]%char c = true ->
     decimals d4 = true -> String.length d4 = 4 ->
     dash = "" \/ dash = "-" ->
     decimals t = true -> 2 <= String.length t <= 8 ->
     fin = "" \/ fin = String LF "" ->
     parse_account_number (String "3" (String c (d4 ++ dash ++ t ++ fin)))
     = Raise TypeError).
Proof.
  split; [|split].
  - intros r res. rewrite parse_account_number_eq.
    change (String.prefix "FI" (String "3" r)) with false. cbn [bind].
    apply parse_bban_three.
  - intros s r res Hfi Hdrop. rewrite parse_account_number_eq, Hfi.
    destruct (is_valid_iban s) as [[|]|e]; cbn [bind negb]; try discriminate.
    rewrite Hdrop. apply parse_bban_three.
  - intros c d4 dash t fin Hc Hd4 Hl4 Hdash Ht Hlt Hfin.
    rewrite parse_account_number_eq.
    change (String.prefix "FI" (String "3" ?x)) with false. cbn [bind].
    unfold parse_bban.
    change (first_alternative (String "3" ?x)) with (@None string).
    unfold second_alternative. change (one_of ["3"%char] "3") with true. rewrite Hc.
    rewrite (prefix_len_app is_decimal 4 d4 _ Hd4) by lia.
    rewrite Hl4. cbn [Nat.sub]. change (prefix_len is_decimal 0 ?x) with 0.
    cbn [Nat.add Nat.eqb andb].
    replace (drop 4 (d4 ++ dash ++ t ++ fin)) with (dash ++ t ++ fin)%string
      by (rewrite <- Hl4; symmetry; apply drop_app).
    rewrite (tail_of_intro dash t fin Hdash Ht Hlt (proj2 (eol_spec fin) Hfin)).
    reflexivity.
Qed.

(** The account 313456-781 of a bank of group 31. *)
Lemma account_starting_with_3_never_parses_witness :
  parse_account_number "313456-781" = Raise TypeError.
Proof.
  destruct account_starting_with_3_never_parses as (_ & _ & H).
  apply (H "1"%char "3456" "-" "781" ""); try reflexivity; try (cbn; lia); tauto.
Defined.

Lemma parse_bban_ret bban branch account :
  parse_bban bban = Ret (branch, account) ->
  exists c r t,
    bban = String c r /\
    none_of ["3"; ","; "7"; ","; "9"]%char c = true /\
    prefix_len is_decimal 5 r = 5 /\
    tail_of (drop 5 r) = Some t /\
    branch = String c (take 5 r) /\ account = fill c t /\
    check_luhn_modulo10 (branch ++ account) = true.
Proof.
  unfold parse_bban. destruct (first_alternative bban) as [t|] eqn:E.
  - destruct (first_alternative_some bban t E) as (c & r & -> & Hc & H5 & Ht).
    change (take 6 (String c r)) with (String c (take 5 r)).
    destruct (check_luhn_modulo10 _) eqn:Hl; [|discriminate].
    intros H. apply ret_inj in H.
    assert (Hb : branch = String c (take 5 r)) by congruence.
    assert (Ha : account = fill c t) by congruence.
    subst branch account.
    exists c, r, t. repeat split; try reflexivity; assumption.
  - destruct (second_alternative bban); discriminate.
Qed.

Lemma none_of_379 c :
  none_of ["3"; ","; "7"; ","; "9"]%char c = true ->
  c <> "3"%char /\ c <> "7"%char /\ c <> "9"%char.
Proof.
  intros H. repeat split; intros ->; discriminate H.
Qed.

(** X19: for an account number of characters below U+0100, what
    [parse_account_number] returns is in the machine format: a branch of
    6 and an account of 8 decimal digits ['0'] to ['9'] that pass the
    Luhn check together, the branch not starting with 3, 7 or 9.  The
    machine format is a fixed point: parsing the branch followed by the
    account, with or without ['-'] between them, gives the same pair. *)
Theorem parse_account_number_machine_format s branch account :
  parse_account_number s = Ret (branch, account) ->
  String.length branch = 6 /\ String.length account = 8 /\
  decimals branch = true /\ decimals account = true /\
  (exists c d5, branch = String c d5 /\ c <> "3"%char /\ c <> "7"%char /\ c <> "9"%char) /\
  check_luhn_modulo10 (branch ++ account) = true /\
  parse_account_number (branch ++ account) = Ret (branch, account) /\
  parse_account_number (branch ++ "-" ++ account) = Ret (branch, account).
Proof.
  rewrite parse_account_number_eq. intros H.
  destruct (if String.prefix "FI" s then _ else _) as [bban|e]; [|discriminate].
  cbn [bind] in H.
  destruct (parse_bban_ret bban branch account H)
    as (c & r & t & -> & Hc & H5 & Ht & -> & -> & Hluhn).
  destruct (tail_of_some _ _ Ht) as (Hlt & Hdt & _).
  destruct (prefix_len_le is_decimal 5 r) as [_ Hr]. rewrite H5 in Hr.
  assert (Hl5 : String.length (take 5 r) = 5) by (apply length_take; exact Hr).
  assert (Hd5 : decimals (take 5 r) = true).
  { unfold decimals. rewrite <- H5 at 1. apply prefix_len_all. }
  assert (Hla : String.length (fill c t) = 8) by (apply length_fill; exact Hlt).
  assert (Hdec : decimals (String c (take 5 r) ++ fill c t) = true).
  { apply int_list_decimals. rewrite check_luhn_eq in Hluhn.
    destruct (int_list _) as [l|]; [eexists; reflexivity|discriminate]. }
  rewrite decimals_app in Hdec. apply andb_true_iff in Hdec as [Hdb Hda].
  split; [cbn [String.length]; lia|]. split; [exact Hla|].
  split; [exact Hdb|]. split; [exact Hda|].
  split; [exists c, (take 5 r); split; [reflexivity|apply none_of_379; exact Hc]|].
  split; [exact Hluhn|].
  assert (Hparse : forall dash, dash = "" \/ dash = "-" ->
            parse_account_number (String c (take 5 r ++ dash ++ fill c t ++ ""))
            = Ret (String c (take 5 r), fill c t)).
  { intros dash Hdash.
    rewrite (parse_bban_intro c (take 5 r) dash (fill c t) "" Hc Hd5 Hl5 Hdash Hda)
      by (rewrite ?Hla; try reflexivity; lia).
    rewrite (fill_full c (fill c t) Hla), Hluhn. reflexivity. }
  split.
  - rewrite <- (Hparse "" (or_introl eq_refl)).
    cbn [String.append]. rewrite append_empty_r. reflexivity.
  - rewrite <- (Hparse "-" (or_intror eq_refl)).
    cbn [String.append]. rewrite append_empty_r. reflexivity.
Qed.

(** 123456-785 gives the branch 123456 and the account 00000785, and so
    do 12345600000785 and 123456-00000785. *)
Lemma parse_account_number_machine_format_witness :
  parse_account_number "12345600000785" = Ret ("123456", "00000785") /\
  parse_account_number "123456-00000785" = Ret ("123456", "00000785").
Proof.
  destruct (parse_account_number_machine_format "123456-785" "123456" "00000785")
    as (_ & _ & _ & _ & _ & _ & H1 & H2); [reflexivity|].
  split; [exact H1|exact H2].
Defined.

(** X20: what [parse_account_number] computes.  For a branch of six
    characters (the first not 3, 7, 9 or a comma, then five digits), an
    optional ['-'], an account of 2 to 8 digits and an optional final
    newline, the account is filled with zeros to 8 digits -- after its
    first digit when the branch starts with 4 or 5, in front otherwise --
    and the pair is returned when branch and filled account pass the Luhn
    check together; [ValueError] is raised when they do not.  For a
    string that starts with [FI], a valid IBAN gives what its last 14
    characters give, an invalid one raises [ValueError]. *)
Theorem parse_account_number_zero_fill :
  (forall c d5 dash t fin,
     none_of ["3"; ","; "7"; ","; "9"]%char c = true ->
     decimals d5 = true -> String.length d5 = 5 ->
     dash = "" \/ dash = "-" ->
     decimals t = true -> 2 <= String.length t <= 8 ->
     fin = "" \/ fin = String LF "" ->
     parse_account_number (String c (d5 ++ dash ++ t ++ fin)) =
     if check_luhn_modulo10 (String c d5 ++ fill c t)
     then Ret (String c d5, fill c t) else Raise ValueError) /\
  (forall b0 t, fill b0 t =
                if one_of ["4"; "5"]%char b0
                then match t with
                     | String a0 a1 => String a0 (zfill 7 a1)
                     | EmptyString => EmptyString
                     end
                else zfill 8 t) /\
  (forall s, String.prefix "FI" s = true ->
     parse_account_number s =
     match is_valid_iban s with
     | Ret true => parse_account_number (drop 4 s)
     | Ret false => Raise ValueError
     | Raise e => Raise e
     end).
Proof.
  split; [|split].
  - intros c d5 dash t fin Hc Hd5 Hl5 Hdash Ht Hlt Hfin.
    apply parse_bban_intro; try assumption. apply eol_spec. exact Hfin.
  - reflexivity.
  - intros s Hfi. rewrite (parse_account_number_eq s), Hfi.
    destruct (is_valid_iban s) as [[|]|e] eqn:Hv; cbn [bind negb]; try reflexivity.
    rewrite (parse_account_number_eq (drop 4 s)).
    replace (String.prefix "FI" (drop 4 s)) with false; [reflexivity|].
    assert (Hlen : String.length s = 18) by (apply is_valid_iban_mod97 in Hv; tauto).
    destruct (iban_shape s Hlen) as (a & b & c1 & c2 & r & -> & Hr).
    rewrite (is_valid_iban_eq a b c1 c2 r Hr) in Hv. cbn [drop].
    destruct (forallb isdigit_char _); [|discriminate].
    destruct (int_list r) as [l|] eqn:Hl; [|discriminate].
    destruct r as [|x r]; [discriminate|].
    cbn [int_list] in Hl. destruct (int_char x) eqn:Hx; [|discriminate].
    cbn [String.prefix].
    destruct (ascii_dec "F" x) as [<-|]; [discriminate Hx|reflexivity].
Qed.

(** The account 423456-781 of a bank of group 4, and the IBAN
    FI21 1234 5600 0007 85. *)
Lemma parse_account_number_zero_fill_witness :
  parse_account_number "423456-781" = Ret ("423456", "70000081") /\
  parse_account_number "FI2112345600000785" = Ret ("123456", "00000785").
Proof.
  destruct parse_account_number_zero_fill as (H1 & _ & H2).
  split.
  - change (parse_account_number (String "4" ("23456" ++ "-" ++ "781" ++ ""))
            = Ret ("423456", "70000081")).
    rewrite (H1 "4"%char "23456" "-" "781" ""); try reflexivity; try (cbn; lia); tauto.
  - rewrite (H2 "FI2112345600000785" eq_refl). reflexivity.
Defined.

(** * What the signature does not cover *)

Lemma scan_step_other st n :
  has_tag DS_DigestValue (l_node n) = false ->
  has_tag DS_SignedInfo (l_node n) = false ->
  has_tag DS_SignatureValue (l_node n) = false ->
  scan_step st n = Ret st.
Proof.
  intros H1 H2 H3. unfold scan_step. rewrite H1, H2, H3. reflexivity.
Qed.

Lemma scan_app st l1 l2 :
  scan st (l1 ++ l2) = (st' <- scan st l1 ;; scan st' l2).
Proof.
  revert st. induction l1 as [|n l1 IH]; intros st; [reflexivity|].
  cbn [app scan]. destruct (scan_step st n) as [st'|e]; [|reflexivity].
  cbn [bind]. apply IH.
Qed.

(** The scan passes over elements with other tags. *)
Lemma scan_others st l :
  forallb (fun n => negb (has_tag DS_DigestValue (l_node n))
                    && negb (has_tag DS_SignedInfo (l_node n))
                    && negb (has_tag DS_SignatureValue (l_node n))) l = true ->
  scan st l = Ret st.
Proof.
  induction l as [|n l IH]; [reflexivity|].
  cbn [forallb scan]. intros H. apply andb_true_iff in H as [Hn Hl].
  apply andb_true_iff in Hn as [Hn H3]. apply andb_true_iff in Hn as [H1 H2].
  apply negb_true_iff in H1, H2, H3.
  rewrite (scan_step_other st n H1 H2 H3). cbn [bind]. apply IH, Hl.
Qed.

Lemma forallb_flat_mapi_walk (Q : element -> bool) (p : nat -> list nat) scope parent i l :
  forallb (fun n => Q (l_node n)) (flat_mapi (fun i k => walk (p i) scope parent k) i l)
  = forallb (fun k => forallb Q (elements k)) l.
Proof.
  revert i. induction l as [|k l IH]; intros i; [reflexivity|].
  cbn [flat_mapi forallb]. rewrite forallb_app, IH. f_equal.
  rewrite <- (elements_walk (p i) scope parent k).
  generalize (walk (p i) scope parent k). intros w.
  induction w as [|n w IHw]; [reflexivity|]. cbn [map forallb]. rewrite IHw. reflexivity.
Qed.

Lemma filter_nil_forallb {A} (Q : A -> bool) l :
  forallb (fun a => negb (Q a)) l = true -> filter Q l = [].
Proof.
  induction l as [|a l IH]; [reflexivity|].
  cbn [forallb filter]. intros H. apply andb_true_iff in H as [Ha Hl].
  apply negb_true_iff in Ha. rewrite Ha. apply IH, Hl.
Qed.

Lemma free_of_forallb tags t (l : list element) :
  forallb (free_of tags) l = true -> In t tags ->
  forallb (fun k => forallb (fun x => negb (has_tag t x)) (elements k)) l = true.
Proof.
  intros H Ht. rewrite forallb_forall in *. intros k Hk.
  apply (free_of_tag tags k t (H k Hk) Ht).
Qed.

Section WithChildren.
Context (L : Lib) (Hparse : Laws.parse_tostring L).
Context (d : element) (dg sv cert : string) (extra : list element).
Context (Hfree : free_of reserved_tags d = true).
Context (Hextra : forallb (free_of scanned_tags) extra = true).

Let s := signature_element dg sv cert.
Let s' := with_children extra s.
Let tree := append d s'.
Let path := [length (children d)].

(** The elements below the signature: the ones [generate_xml_signature]
    put there, then the further ones. *)
Lemma walk_with_children :
  walk path (nsmap d) (Some tree) s' =
  (Loc path (nsmap d) (Some tree) s' ::
   flat_mapi (fun i k => walk (path ++ [i]) (ns_merge (nsmap s) (nsmap d)) (Some s') k)
             0 (children s))
  ++ flat_mapi (fun i k => walk (path ++ [i]) (ns_merge (nsmap s) (nsmap d)) (Some s') k)
               3 extra.
Proof.
  rewrite walk_eq. change (children s') with (children s ++ extra).
  change (nsmap s') with (nsmap s). rewrite flat_mapi_app. reflexivity.
Qed.

Lemma extra_without t :
  In t scanned_tags ->
  filter (fun n => has_tag t (l_node n))
         (flat_mapi (fun i k => walk (path ++ [i]) (ns_merge (nsmap s) (nsmap d)) (Some s') k)
                    3 extra) = [].
Proof.
  intros Ht. apply filter_nil_forallb.
  rewrite (forallb_flat_mapi_walk (fun x => negb (has_tag t x))).
  apply (free_of_forallb scanned_tags t extra Hextra Ht).
Qed.

Lemma scan_with_children :
  scan scan0 (walk path (nsmap d) (Some tree) s') =
  Ret {| digestvalues := [(Some "", Some dg)];
         signed_info := Some (Loc (path ++ [0]) (ns_merge [(None, DSIG)] (nsmap d)) (Some s')
                                  (signed_info_of dg));
         signaturevalue := Some sv |}.
Proof.
  rewrite walk_with_children, scan_app.
  replace (scan scan0 (Loc path (nsmap d) (Some tree) s' :: _))
    with (Ret {| digestvalues := [(Some "", Some dg)];
                 signed_info := Some (Loc (path ++ [0]) (ns_merge [(None, DSIG)] (nsmap d))
                                          (Some s') (signed_info_of dg));
                 signaturevalue := Some sv |}) by reflexivity.
  cbn [bind]. apply scan_others.
  rewrite (forallb_flat_mapi_walk
             (fun x => negb (has_tag DS_DigestValue x) && negb (has_tag DS_SignedInfo x)
                       && negb (has_tag DS_SignatureValue x))).
  rewrite forallb_forall in *. intros k Hk. rewrite forallb_forall. intros x Hx.
  pose proof (free_of_tag scanned_tags k DS_DigestValue (Hextra k Hk) ltac:(simpl; tauto)) as H1.
  pose proof (free_of_tag scanned_tags k DS_SignedInfo (Hextra k Hk) ltac:(simpl; tauto)) as H2.
  pose proof (free_of_tag scanned_tags k DS_SignatureValue (Hextra k Hk) ltac:(simpl; tauto)) as H3.
  rewrite forallb_forall in H1, H2, H3.
  rewrite (H1 x Hx), (H2 x Hx), (H3 x Hx). reflexivity.
Qed.


Lemma filter_walk_with_children t :
  filter (fun n => has_tag t (l_node n)) (walk path (nsmap d) (Some tree) s') =
  filter (fun n => has_tag t (l_node n))
         (Loc path (nsmap d) (Some tree) s' ::
          flat_mapi (fun i k => walk (path ++ [i]) (ns_merge (nsmap s) (nsmap d)) (Some s') k)
                    0 (children s))
  ++ filter (fun n => has_tag t (l_node n))
            (flat_mapi (fun i k => walk (path ++ [i]) (ns_merge (nsmap s) (nsmap d)) (Some s') k)
                       3 extra).
Proof. rewrite walk_with_children. apply filter_app. Qed.

Lemma get_certificate_with_children m :
  get_certificate L (tostring L m tree) = Ret (Some cert).
Proof.
  unfold get_certificate. rewrite Hparse. unfold tree.
  destruct (xpath_all_append_split d s' DS_KeyInfo) as [before ->].
  fold tree path. rewrite (filter_walk_with_children DS_KeyInfo).
  match goal with
  | |- context [filter ?f (Loc ?a ?b ?c ?e :: flat_mapi ?g 0 (children s))] =>
      destruct (filter f (Loc a b c e :: flat_mapi g 0 (children s))) as [|n l] eqn:E;
        [discriminate E|]
  end.
  assert (Hlist : exists n' l', before ++ (n :: l) ++
            filter (fun n => has_tag DS_KeyInfo (l_node n))
              (flat_mapi (fun i k => walk (path ++ [i]) (ns_merge (nsmap s) (nsmap d)) (Some s') k)
                         3 extra) = n' :: l').
  { destruct before; cbn [app]; eexists; eexists; reflexivity. }
  destruct Hlist as (n' & l' & ->).
  unfold tree.
  rewrite (xpath_all_append d s' WSSE_Reference)
    by (apply (free_of_tag _ _ _ Hfree); simpl; tauto).
  fold tree path. rewrite (filter_walk_with_children WSSE_Reference).
  rewrite (extra_without WSSE_Reference) by (simpl; tauto).
  replace (filter _ (Loc path (nsmap d) (Some tree) s' :: _)) with (@nil located)
    by reflexivity.
  cbn [app]. unfold tree.
  rewrite (xpath_all_append d s' DS_X509Certificate)
    by (apply (free_of_tag _ _ _ Hfree); simpl; tauto).
  fold tree path. rewrite (filter_walk_with_children DS_X509Certificate).
  reflexivity.
Qed.

Lemma read_flags_with_children : read_flags tree = Some (true, false).
Proof.
  unfold read_flags, tree.
  rewrite (xpath_all_append d s' DS_CanonicalizationMethod)
    by (apply (free_of_tag _ _ _ Hfree); simpl; tauto).
  fold tree path. rewrite (filter_walk_with_children DS_CanonicalizationMethod).
  reflexivity.
Qed.

Lemma signature_with_children :
  exists rest, xpath_all tree DS_Signature = Loc path (nsmap d) (Some tree) s' :: rest.
Proof.
  unfold tree.
  rewrite (xpath_all_append d s' DS_Signature)
    by (apply (free_of_tag _ _ _ Hfree); simpl; tauto).
  fold tree path. rewrite (filter_walk_with_children DS_Signature).
  eexists. reflexivity.
Qed.

Lemma digest_loop_with_children :
  digest_loop L tree (Loc path (nsmap d) (Some tree) s') [(Some "", Some dg)] false true
  = Ret (String.eqb (b64encode L (sha1 L (write_c14n L true false d))) dg).
Proof.
  cbn [digest_loop String.eqb]. unfold remove. cbn [l_path path].
  replace (children tree) with (children d ++ [s']) by (destruct d; reflexivity).
  rewrite remove_nth_last.
  replace (set_children (children d) tree) with d by (destruct d; reflexivity).
  cbn [bind]. rewrite (calculate_digest_tostring L Hparse). cbn [bind fst snd opt_eqb].
  destruct (String.eqb _ dg); reflexivity.
Qed.

(** What [validate] computes on a document that carries the signature
    of the application profile with further elements inside it: the
    further elements do not appear. *)
Lemma validate_with_children env m :
  validate L env (tostring L m tree) =
  cb <- b64decode_ L cert ;;
  svb <- b64decode_ L sv ;;
  if String.eqb (b64encode L (sha1 L (write_c14n L true false d))) dg then
    match fst (check_revocation_status L env cb) with
    | Ret true => Ret false
    | Ret false =>
        match load_certificate L cb with
        | None => Ret false
        | Some c =>
            if crypto_verify L c svb (write_c14n L true false (info_below d dg))
            then Ret true else Ret false
        end
    | Raise ValueError => Ret false
    | Raise e => Raise e
    end
  else Ret false.
Proof.
  unfold validate. rewrite get_certificate_with_children.
  rewrite Hparse.
  destruct signature_with_children as [rest ->].
  unfold walk_from. cbn [l_path l_scope l_parent l_node].
  rewrite scan_with_children. cbn [bind signaturevalue signed_info digestvalues].
  destruct (b64decode_ L cert) as [cb|e]; [|reflexivity]. cbn [bind].
  destruct (b64decode_ L sv) as [svb|e]; [|reflexivity]. cbn [bind].
  rewrite read_flags_with_children.
  rewrite (canonicalizate_tostring L Hparse). cbn [bind].
  rewrite digest_loop_with_children. cbn [bind].
  replace (standalone _) with (info_below d dg).
  2:{ unfold info_below, standalone. cbn [l_node l_scope nsmap signed_info_of E].
      rewrite ns_merge_twice. reflexivity. }
  destruct (String.eqb _ dg); reflexivity.
Qed.

End WithChildren.

(** X21: [validate] does not look at what else is inside the
    [Signature] element.  For a document that uses none of the tags the
    validator looks up ([reserved_tags]) and carries the signature of the
    application profile, further elements put behind [KeyInfo] inside the
    [Signature] -- any elements without a [DigestValue], [SignedInfo],
    [SignatureValue] or [wsse:Reference] -- leave the answer of [validate]
    as it is: they are removed with the signature before the digest is
    taken, and they are not part of [SignedInfo]. *)
Theorem validate_ignores_signature_children (L : Lib) env m d dg sv cert extra :
  Laws.parse_tostring L ->
  free_of reserved_tags d = true ->
  forallb (free_of scanned_tags) extra = true ->
  validate L env (tostring L m (append d (with_children extra (signature_element dg sv cert))))
  = validate L env (tostring L m (append d (signature_element dg sv cert))).
Proof.
  intros Hparse Hfree Hextra.
  rewrite (validate_with_children L Hparse d dg sv cert extra Hfree Hextra env m).
  change (signature_element dg sv cert) with (with_children [] (signature_element dg sv cert)).
  rewrite (validate_with_children L Hparse d dg sv cert [] Hfree eq_refl env m).
  reflexivity.
Qed.

(** * The application response *)

Section ApplicationResponse.
Context (L : Lib).

Import AppResponse.

Lemma fold_statement_raise e x l : fold_left (statement e) l (Raise x) = Raise x.
Proof. induction l as [|s l IH]; [reflexivity|]. exact IH. Qed.

Lemma fold_statement_none e l acc :
  (forall s, In s l -> has_tag (ns (fst s)) e = false) ->
  fold_left (statement e) l acc = acc.
Proof.
  revert acc. induction l as [|s l IH]; intros acc H; [reflexivity|].
  cbn [fold_left]. rewrite IH by (intros s' Hs'; apply H; right; exact Hs').
  unfold statement. destruct acc as [st|x]; [|reflexivity].
  cbn [bind]. rewrite (H s (or_introl eq_refl)). reflexivity.
Qed.

Lemma ns_eqb a b : String.eqb (ns a) (ns b) = String.eqb a b.
Proof.
  destruct (String.eqb_spec a b) as [->|Hne]; [apply String.eqb_refl|].
  apply String.eqb_neq. intros H. apply Hne.
  unfold ns in H. cbn [String.append] in H.
  repeat (apply string_cons_inv in H as [_ H]). exact H.
Qed.

(** The tags of the [if] statements differ, so at most one of them
    applies to an element. *)
Lemma fold_statement_find e l st :
  NoDup (map fst l) ->
  fold_left (statement e) l (Ret st) =
  match find (fun s => has_tag (ns (fst s)) e) l with
  | Some s => snd s e st
  | None => Ret st
  end.
Proof.
  induction l as [|s l IH]; intros Hnd; [reflexivity|].
  cbn [map] in Hnd. apply NoDup_cons_iff in Hnd as [Hs Hnd].
  cbn [fold_left find]. unfold statement at 2. cbn [bind].
  destruct (has_tag (ns (fst s)) e) eqn:Ht.
  - apply fold_statement_none. intros s' Hs'.
    unfold has_tag in *. apply String.eqb_eq in Ht. rewrite Ht, ns_eqb.
    apply String.eqb_neq. intros Heq. apply Hs. rewrite Heq. apply in_map, Hs'.
  - apply IH, Hnd.
Qed.

Lemma statements_nodup : NoDup (map fst (statements L)).
Proof.
  cbn [map fst statements].
  repeat (apply NoDup_cons; [cbn [In]; intuition discriminate|]).
  apply NoDup_nil.
Qed.

Lemma read_find st e :
  read L st e =
  match find (fun s => has_tag (ns (fst s)) e) (statements L) with
  | Some s => snd s e st
  | None => Ret st
  end.
Proof. apply fold_statement_find, statements_nodup. Qed.

Ltac each_statement Hin :=
  cbn [statements In] in Hin;
  repeat (destruct Hin as [<-|Hin]); [..|contradiction].

(** What a statement does to the response code and to [_accepted]. *)
Lemma statement_code s e st st' :
  In s (statements L) -> snd s e st = Ret st' ->
  _accepted (fst st') = _accepted (fst st) /\
  _responsecode (fst st') = if String.eqb (fst s) "ResponseCode"
                            then Some (text e) else _responsecode (fst st).
Proof.
  intros Hin H. each_statement Hin; cbn [fst snd] in H |- *; unfold store in H;
    try (apply ret_inj in H; subst st'; split; reflexivity).
  - destruct (text_lower (text e)); [|discriminate]. cbn [bind] in H.
    apply ret_inj in H. subst st'. split; reflexivity.
  - destruct (text_lower (text e)); [|discriminate]. cbn [bind] in H.
    apply ret_inj in H. subst st'. split; reflexivity.
  - destruct (text e); [|discriminate].
    destruct (b64decode_ L s); [|discriminate]. cbn [bind] in H.
    apply ret_inj in H. subst st'. split; reflexivity.
Qed.

Lemma read_code st e st' :
  read L st e = Ret st' ->
  _accepted (fst st') = _accepted (fst st) /\
  _responsecode (fst st') = if has_tag (ns "ResponseCode") e
                            then Some (text e) else _responsecode (fst st).
Proof.
  rewrite read_find.
  destruct (find _ (statements L)) as [s|] eqn:Hfind.
  - apply find_some in Hfind as [Hin Ht]. intros H.
    destruct (statement_code s e st st' Hin H) as [Ha Hc].
    split; [exact Ha|]. rewrite Hc.
    unfold has_tag in *. apply String.eqb_eq in Ht. rewrite Ht, ns_eqb. reflexivity.
  - intros H. apply ret_inj in H. subst st'. split; [reflexivity|].
    assert (Hin : In ("ResponseCode", fun element => store (ResponseCode (text element)))
                     (statements L)) by (cbn [statements In]; tauto).
    pose proof (find_none _ _ Hfind _ Hin) as Hf. cbn [fst] in Hf.
    rewrite Hf. reflexivity.
Qed.

Lemma loop_app st l1 l2 :
  loop L st (l1 ++ l2) = (st' <- loop L st l1 ;; loop L st' l2).
Proof.
  revert st. induction l1 as [|e l1 IH]; intros st; [reflexivity|].
  cbn [app loop]. destruct (read L st e) as [st'|x]; [|reflexivity].
  cbn [bind]. apply IH.
Qed.

Lemma last_of_app {A} (l : list A) a : last_of (l ++ [a]) = Some a.
Proof. unfold last_of. rewrite rev_app_distr. reflexivity. Qed.

(** After the loop the response code is the text of the last
    [ResponseCode] element in document order. *)
Lemma loop_code l : forall st st',
  loop L st l = Ret st' ->
  _accepted (fst st') = _accepted (fst st) /\
  _responsecode (fst st') =
    match last_of (filter (has_tag (ns "ResponseCode")) l) with
    | Some e => Some (text e)
    | None => _responsecode (fst st)
    end.
Proof.
  induction l as [|e l IH] using rev_ind; intros st st' H.
  - apply ret_inj in H. subst st'. split; reflexivity.
  - rewrite loop_app in H.
    destruct (loop L st l) as [st1|x] eqn:H1; [|discriminate]. cbn [bind loop] in H.
    destruct (read L st1 e) as [st2|x] eqn:H2; [|discriminate]. cbn [bind] in H.
    apply ret_inj in H. subst st2.
    destruct (IH st st1 H1) as [Ha Hc].
    destruct (read_code st1 e st' H2) as [Ha' Hc'].
    split; [congruence|].
    rewrite Hc', filter_app. cbn [filter].
    destruct (has_tag (ns "ResponseCode") e).
    + rewrite last_of_app. reflexivity.
    + rewrite app_nil_r. exact Hc.
Qed.

(** Whether a statement returns depends on the tag and the text of the
    element only. *)
Lemma statement_returns s e e' st st' r :
  In s (statements L) -> text e = text e' ->
  snd s e st = Ret r -> exists r', snd s e' st' = Ret r'.
Proof.
  intros Hin Ht H. each_statement Hin; cbn [fst snd] in H |- *; unfold store in *;
    try (eexists; reflexivity); rewrite <- Ht.
  - destruct (text_lower (text e)); [|discriminate]. eexists. reflexivity.
  - destruct (text_lower (text e)); [|discriminate]. eexists. reflexivity.
  - destruct (text e); [|discriminate].
    destruct (b64decode_ L s); [|discriminate]. eexists. reflexivity.
Qed.

Lemma read_returns e e' st st' r :
  tag e = tag e' -> text e = text e' ->
  read L st e = Ret r -> exists r', read L st' e' = Ret r'.
Proof.
  intros Htag Htext. rewrite !read_find.
  replace (find (fun s => has_tag (ns (fst s)) e') (statements L))
    with (find (fun s => has_tag (ns (fst s)) e) (statements L))
    by (unfold has_tag; rewrite Htag; reflexivity).
  destruct (find _ (statements L)) as [s|] eqn:Hfind.
  - apply find_some in Hfind as [Hin _]. apply (statement_returns s e e' st st' r Hin Htext).
  - intros _. eexists. reflexivity.
Qed.

Lemma loop_returns l l' :
  Forall2 (fun e e' => tag e = tag e' /\ text e = text e') l l' ->
  forall st st' r, loop L st l = Ret r -> exists r', loop L st' l' = Ret r'.
Proof.
  induction 1 as [|e e' l l' [Htag Htext] _ IH]; intros st st' r H.
  - eexists. reflexivity.
  - cbn [loop] in *.
    destruct (read L st e) as [st1|x] eqn:H1; [|discriminate]. cbn [bind] in H.
    destruct (read_returns e e' st st' st1 Htag Htext H1) as [st1' ->]. cbn [bind].
    apply (IH st1 st1' r H).
Qed.

End ApplicationResponse.

Lemma elements_append d s :
  elements (append d s) = append d s :: flat_map elements (children d) ++ elements s.
Proof.
  rewrite (elements_eq (append d s)).
  replace (children (append d s)) with (children d ++ [s]) by (destruct d; reflexivity).
  rewrite flat_map_app. cbn [flat_map]. rewrite app_nil_r. reflexivity.
Qed.

Lemma Forall2_same {A} (R : A -> A -> Prop) l : (forall a, R a a) -> Forall2 R l l.
Proof. intros H. induction l; constructor; auto. Qed.

(** X22: what an [ApplicationResponse] object stands for.  When the
    constructor returns, [validate] returned [True] on the message;
    [_accepted] is the answer of the schema; the response code of the
    object is the text of the last [ResponseCode] element of the message
    in document order, wherever it is; and [is_accepted] answers [True]
    exactly when the schema accepted the message and that text is
    ['00']. *)
Theorem application_response_accepted (L : Lib) xsd env message self :
  AppResponse.init L xsd env message = Ret self ->
  validate L env message = Ret true /\
  exists tree xml_schema,
    fromstring L message = Some tree /\
    xsd = Some xml_schema /\
    AppResponse._accepted self = xml_schema tree /\
    AppResponse._responsecode self =
      option_map text
        (AppResponse.last_of
           (filter (has_tag (AppResponse.ns "ResponseCode")) (elements tree))) /\
    AppResponse.is_accepted self =
      xml_schema tree &&
      match AppResponse.last_of
              (filter (has_tag (AppResponse.ns "ResponseCode")) (elements tree)) with
      | Some e => opt_eqb (text e) (Some "00")
      | None => false
      end.
Proof.
  unfold AppResponse.init, AppResponse._validate_with_schema. intros H.
  destruct xsd as [xml_schema|]; [|discriminate].
  destruct (fromstring L message) as [tree|] eqn:Htree.
  2:{ cbn [bind] in H. destruct (validate L env message) as [[|]|]; discriminate. }
  cbn [bind] in H.
  destruct (validate L env message) as [[|]|]; try discriminate.
  cbn [bind negb] in H.
  destruct (AppResponse.loop L _ (elements tree)) as [st|] eqn:Hloop; [|discriminate].
  cbn [bind] in H.
  destruct (loop_code L _ _ _ Hloop) as [Ha Hc]. cbn [fst AppResponse.fresh] in Ha, Hc.
  assert (Hself : AppResponse._accepted self = xml_schema tree /\
                  AppResponse._responsecode self = AppResponse._responsecode (fst st)).
  { destruct (snd st); apply ret_inj in H; subst self; split; assumption || reflexivity. }
  destruct Hself as [Hsa Hsc].
  split; [reflexivity|]. exists tree, xml_schema.
  split; [reflexivity|]. split; [reflexivity|]. split; [exact Hsa|].
  split.
  - rewrite Hsc, Hc. destruct (AppResponse.last_of _); reflexivity.
  - unfold AppResponse.is_accepted. rewrite Hsc, Hc, Hsa.
    destruct (AppResponse.last_of _) as [e|]; [|rewrite andb_false_r; reflexivity].
    destruct (opt_eqb (text e) (Some "00")), (xml_schema tree); reflexivity.
Qed.

(** A signed response with the code 00, and one with the code 12. *)
Lemma application_response_accepted_witness :
  (exists self,
     AppResponse.init Ref.lib AppResponse.example_xsd (Ref.fresh_crl "bob")
       (tostring Ref.lib (Utf8 true)
          (append (AppResponse.response "00" "OK")
                  (signature_for Ref.lib (AppResponse.response "00" "OK") "alice" "CERT:alice")))
     = Ret self /\ AppResponse.is_accepted self = true) /\
  (exists self,
     AppResponse.init Ref.lib AppResponse.example_xsd (Ref.fresh_crl "bob")
       (tostring Ref.lib (Utf8 true)
          (append (AppResponse.response "12" "Schema validation failed")
                  (signature_for Ref.lib (AppResponse.response "12" "Schema validation failed")
                                 "alice" "CERT:alice")))
     = Ret self /\ AppResponse.is_accepted self = false).
Proof.
  split.
  - destruct (AppResponse.init _ _ _ _) as [self|e] eqn:E; [|vm_compute in E; discriminate].
    exists self. split; [reflexivity|].
    destruct (application_response_accepted _ _ _ _ _ E)
      as (_ & tree & xml_schema & Htree & Hxsd & _ & _ & ->).
    rewrite ref_parse_tostring in Htree. apply (f_equal (fun o => match o with Some x => x | None => tree end)) in Htree.
    cbv beta iota in Htree. subst tree.
    unfold AppResponse.example_xsd in Hxsd. injection Hxsd as <-.
    vm_compute. reflexivity.
  - destruct (AppResponse.init _ _ _ _) as [self|e] eqn:E; [|vm_compute in E; discriminate].
    exists self. split; [reflexivity|].
    destruct (application_response_accepted _ _ _ _ _ E)
      as (_ & tree & xml_schema & Htree & Hxsd & _ & _ & ->).
    rewrite ref_parse_tostring in Htree. apply (f_equal (fun o => match o with Some x => x | None => tree end)) in Htree.
    cbv beta iota in Htree. subst tree.
    unfold AppResponse.example_xsd in Hxsd. injection Hxsd as <-.
    vm_compute. reflexivity.
Defined.

(** X23: the signature does not protect the response code.  Take a
    message that carries the signature of the application profile and
    from which the constructor builds an object.  With one more
    [ResponseCode] element put inside its [Signature] element, the message
    still validates, the constructor still returns an object, and the
    response code of that object is the text of the added element,
    whatever the signed part of the message says: [is_accepted] then
    answers [True] exactly when the schema accepts the new message and the
    added text is ['00']. *)
Theorem response_code_rides_in_signature (L : Lib) xml_schema env m d dg sv cert self code :
  Laws.parse_tostring L ->
  free_of reserved_tags d = true ->
  AppResponse.init L (Some xml_schema) env
    (tostring L m (append d (signature_element dg sv cert))) = Ret self ->
  exists self',
    AppResponse.init L (Some xml_schema) env
      (tostring L m (append d (with_children [AppResponse.response_code code]
                                             (signature_element dg sv cert)))) = Ret self' /\
    AppResponse._responsecode self' = Some (Some code) /\
    AppResponse.is_accepted self' =
      xml_schema (append d (with_children [AppResponse.response_code code]
                                          (signature_element dg sv cert)))
      && String.eqb code "00".
Proof.
  intros Hparse Hfree H.
  assert (Hx : forallb (free_of scanned_tags) [AppResponse.response_code code] = true)
    by reflexivity.
  assert (Hv : validate L env
                 (tostring L m (append d (with_children [AppResponse.response_code code]
                                                        (signature_element dg sv cert))))
               = validate L env (tostring L m (append d (signature_element dg sv cert)))).
  { rewrite (validate_with_children L Hparse d dg sv cert _ Hfree Hx env m).
    change (signature_element dg sv cert)
      with (with_children [] (signature_element dg sv cert)).
    rewrite (validate_with_children L Hparse d dg sv cert [] Hfree eq_refl env m).
    reflexivity. }
  unfold AppResponse.init, AppResponse._validate_with_schema in H |- *.
  rewrite Hparse in H. rewrite Hparse, Hv. cbn [bind] in H |- *.
  set (x := AppResponse.response_code code) in *.
  set (s := signature_element dg sv cert) in *.
  set (s' := with_children [x] s).
  destruct (validate L env (tostring L m (append d s))) as [[|]|]; try discriminate H.
  cbn [bind negb] in H |- *.
  destruct (AppResponse.loop L _ (elements (append d s))) as [st|] eqn:Hloop; [|discriminate].
  clear H.
  assert (Hel : elements (append d s') =
                (append d s' :: flat_map elements (children d)
                 ++ s' :: flat_map elements (children s)) ++ [x]).
  { rewrite elements_append, (elements_eq s').
    change (children s') with (children s ++ [x]).
    rewrite flat_map_app. cbn [flat_map]. change (elements x) with [x].
    cbn [app]. rewrite <- !app_assoc. reflexivity. }
  assert (Hsim : Forall2 (fun e e' => tag e = tag e' /\ text e = text e')
                   (elements (append d s))
                   (append d s' :: flat_map elements (children d)
                    ++ s' :: flat_map elements (children s))).
  { rewrite elements_append, (elements_eq s).
    constructor; [destruct d; split; reflexivity|].
    apply Forall2_app; [apply Forall2_same; split; reflexivity|].
    constructor; [split; reflexivity|]. apply Forall2_same; split; reflexivity. }
  destruct (loop_returns L _ _ Hsim _ (AppResponse.fresh (xml_schema (append d s')), None)
                         _ Hloop) as [st1 Hloop1].
  assert (Hloop' : AppResponse.loop L (AppResponse.fresh (xml_schema (append d s')), None)
                                    (elements (append d s'))
                   = Ret (AppResponse.assign (AppResponse.ResponseCode (Some code)) (fst st1),
                          snd st1)).
  { rewrite Hel, loop_app, Hloop1. reflexivity. }
  rewrite Hloop'. cbn [bind snd fst].
  destruct (loop_code L _ _ _ Hloop1) as [Ha _].
  cbn [fst AppResponse.fresh AppResponse._accepted] in Ha.
  destruct (snd st1); eexists; (split; [reflexivity|]); (split; [reflexivity|]);
    unfold AppResponse.is_accepted;
    cbn [AppResponse._responsecode AppResponse._accepted AppResponse.assign opt_eqb];
    rewrite Ha; destruct (String.eqb code "00"), (xml_schema (append d s')); reflexivity.
Qed.

(** The signed response with the code 12, with the code 00 put inside
    its signature. *)
Lemma response_code_rides_in_signature_witness :
  exists self',
    AppResponse.init Ref.lib AppResponse.example_xsd (Ref.fresh_crl "bob")
      (tostring Ref.lib (Utf8 true)
         (append (AppResponse.response "12" "Schema validation failed")
                 (with_children [AppResponse.response_code "00"]
                    (signature_for Ref.lib (AppResponse.response "12" "Schema validation failed")
                                   "alice" "CERT:alice")))) = Ret self' /\
    AppResponse._responsecode self' = Some (Some "00") /\
    AppResponse.is_accepted self' = true.
Proof.
  destruct (AppResponse.init Ref.lib AppResponse.example_xsd (Ref.fresh_crl "bob")
              (tostring Ref.lib (Utf8 true)
                 (append (AppResponse.response "12" "Schema validation failed")
                    (signature_for Ref.lib (AppResponse.response "12" "Schema validation failed")
                                   "alice" "CERT:alice"))))
    as [self|e] eqn:E; [|vm_compute in E; discriminate].
  assert (Hfree : free_of reserved_tags (AppResponse.response "12" "Schema validation failed")
                  = true) by (vm_compute; reflexivity).
  destruct (response_code_rides_in_signature Ref.lib _ _ _ _ _ _ _ self "00"
              ref_parse_tostring Hfree E)
    as (self' & Hinit & Hcode & Hacc).
  exists self'. split; [exact Hinit|]. split; [exact Hcode|].
  rewrite Hacc. reflexivity.
Defined.

(** The same message validates: what [validate_ignores_signature_children]
    says of the signed request of the examples. *)
Lemma validate_ignores_signature_children_witness :
  validate Ref.lib (Ref.fresh_crl "bob")
    (tostring Ref.lib (Utf8 true)
       (append Examples.request
          (with_children [AppResponse.response_code "00"]
             (signature_for Ref.lib Examples.request "alice" "CERT:alice")))) = Ret true.
Proof.
  unfold signature_for.
  assert (Hfree : free_of reserved_tags Examples.request = true) by (vm_compute; reflexivity).
  rewrite (validate_ignores_signature_children Ref.lib (Ref.fresh_crl "bob") (Utf8 true)
             Examples.request _ _ _ [AppResponse.response_code "00"]
             ref_parse_tostring Hfree eq_refl).
  vm_compute. reflexivity.
Defined.

(** * The response of the bank *)

Lemma init_validated (L : Lib) xsd env message :
  (forall self, AppResponse.init L xsd env message = Ret self ->
                validate L env message = Ret true) /\
  (xsd <> None -> validate L env message = Ret false ->
   AppResponse.init L xsd env message = Raise ValueError).
Proof.
  unfold AppResponse.init, AppResponse._validate_with_schema. split.
  - intros self H. destruct xsd as [xml_schema|]; [|discriminate].
    destruct (fromstring L message); cbn [bind] in H;
      destruct (validate L env message) as [[|]|]; try discriminate; reflexivity.
  - intros Hx Hv. destruct xsd as [xml_schema|]; [|contradiction].
    rewrite Hv. destruct (fromstring L message); reflexivity.
Qed.

(** X24: what [_parse_response] hands to its caller.  It returns an
    object exactly when the header carries the code ['00'], the
    application response decodes from base64, the constructor returns the
    object for the decoded message and [is_accepted] holds; the message
    then passed [validate].  With any other header code it raises. *)
Theorem parse_response_returns_accepted_only (L : Lib) decompress decode xsd env
        header_code header_text application_response ar :
  WebService._parse_response L decompress decode xsd env
    header_code header_text application_response = WebService.Returned ar <->
  header_code = Some "00" /\
  exists text message,
    application_response = Some text /\
    b64decode L text = Some message /\
    AppResponse.init L xsd env message = Ret ar /\
    AppResponse.is_accepted ar = true /\
    validate L env message = Ret true.
Proof.
  unfold WebService._parse_response. split.
  - intros H.
    destruct application_response as [text|]; [|discriminate].
    destruct (b64decode L text) as [message|] eqn:Hb; [|discriminate].
    destruct (opt_eqb header_code (Some "00")) eqn:Hc; cbn [negb] in H.
    + apply opt_eqb_eq in Hc.
      destruct (AppResponse.init L xsd env message) as [ar'|e] eqn:Hi.
      * destruct (AppResponse.is_accepted ar') eqn:Ha; [|discriminate].
        assert (ar' = ar) by congruence. subst ar'.
        split; [exact Hc|]. exists text, message.
        repeat split; try assumption.
        apply (proj1 (init_validated L xsd env message) ar Hi).
      * destruct (WebService.is_value_error e); discriminate.
    + destruct (opt_eqb header_code (Some "12")); [|discriminate].
      destruct (AppResponse.init L xsd env message) as [ar'|e].
      * destruct (WebService._get_content decompress decode ar'); discriminate.
      * destruct (WebService.is_value_error e); discriminate.
  - intros (-> & text & message & -> & Hb & Hi & Ha & _).
    rewrite Hb. cbn [opt_eqb String.eqb Ascii.eqb Bool.eqb negb]. rewrite Hi, Ha. reflexivity.
Qed.

(** X25: the header code ['12'] (schema failure in the uploaded data).
    [_parse_response] never returns then.  When the signature of the
    application response does not validate, the constructor raises
    [ValueError], which is caught and logged, and the next line reads
    [ar.content] although [ar] was never bound: [UnboundLocalError] is
    raised instead of the [RuntimeError] of the documentation.  When the
    constructor returns, [RuntimeError] is raised only if the content can
    be computed: for a response that is not compressed and has no
    [Content], [str(None, 'utf-8')] raises [TypeError]. *)
Theorem parse_response_schema_failure (L : Lib) decompress decode xml_schema env
        header_text text message :
  b64decode L text = Some message ->
  (forall ar, WebService._parse_response L decompress decode (Some xml_schema) env
                (Some "12") header_text (Some text) <> WebService.Returned ar) /\
  (validate L env message = Ret false ->
   WebService._parse_response L decompress decode (Some xml_schema) env
     (Some "12") header_text (Some text)
   = WebService.Raised (WebService.Exn UnboundLocalError)) /\
  (forall ar, AppResponse.init L (Some xml_schema) env message = Ret ar ->
     AppResponse._compressed ar = Some false ->
     AppResponse._content ar = None ->
     WebService._parse_response L decompress decode (Some xml_schema) env
       (Some "12") header_text (Some text)
     = WebService.Raised (WebService.Exn TypeError)) /\
  (forall ar, AppResponse.init L (Some xml_schema) env message = Ret ar ->
     AppResponse._compressed ar = None ->
     WebService._parse_response L decompress decode (Some xml_schema) env
       (Some "12") header_text (Some text)
     = WebService.Raised (WebService.Exn RuntimeError)).
Proof.
  intros Hb. unfold WebService._parse_response. rewrite Hb.
  cbn [opt_eqb String.eqb Ascii.eqb Bool.eqb negb].
  split; [|split; [|split]].
  - intros ar.
    destruct (AppResponse.init L (Some xml_schema) env message) as [ar'|e].
    + destruct (WebService._get_content decompress decode ar'); discriminate.
    + destruct (WebService.is_value_error e); discriminate.
  - intros Hv.
    rewrite (proj2 (init_validated L (Some xml_schema) env message) ltac:(discriminate) Hv).
    reflexivity.
  - intros ar -> Hc Hn. unfold WebService._get_content. rewrite Hc, Hn. reflexivity.
  - intros ar -> Hc. unfold WebService._get_content. rewrite Hc. reflexivity.
Qed.

(** The signed response with the code 00 is handed to the caller. *)
Lemma parse_response_returns_accepted_only_witness :
  exists ar,
    WebService._parse_response Ref.lib (fun _ => WebService.Raised WebService.ZlibError) Some
      AppResponse.example_xsd (Ref.fresh_crl "bob") (Some "00") (Some "OK")
      (Some (b64encode Ref.lib
         (tostring Ref.lib (Utf8 true)
            (append (AppResponse.response "00" "OK")
                    (signature_for Ref.lib (AppResponse.response "00" "OK")
                                   "alice" "CERT:alice")))))
    = WebService.Returned ar.
Proof.
  destruct (AppResponse.init Ref.lib AppResponse.example_xsd (Ref.fresh_crl "bob")
              (tostring Ref.lib (Utf8 true)
                 (append (AppResponse.response "00" "OK")
                    (signature_for Ref.lib (AppResponse.response "00" "OK")
                                   "alice" "CERT:alice"))))
    as [ar|e] eqn:E; [|vm_compute in E; discriminate].
  exists ar.
  apply (proj2 (parse_response_returns_accepted_only Ref.lib _ _ _ _ _ _ _ ar)).
  split; [reflexivity|].
  eexists _, _. split; [reflexivity|]. split; [apply ref_b64_roundtrip|].
  split; [exact E|].
  split.
  - revert E. vm_compute. intros E. injection E as <-. reflexivity.
  - vm_compute. reflexivity.
Defined.

(** The response with the code 12: signed with the key of [alice] beside
    the certificate of [bob], and signed as it should be. *)
Lemma parse_response_schema_failure_witness :
  WebService._parse_response Ref.lib (fun _ => WebService.Raised WebService.ZlibError) Some
    AppResponse.example_xsd (Ref.fresh_crl "carol") (Some "12")
    (Some "Schema validation failed")
    (Some (b64encode Ref.lib
       (tostring Ref.lib (Utf8 true)
          (append (AppResponse.response "12" "Schema validation failed")
                  (signature_for Ref.lib (AppResponse.response "12" "Schema validation failed")
                                 "alice" "CERT:bob")))))
  = WebService.Raised (WebService.Exn UnboundLocalError) /\
  WebService._parse_response Ref.lib (fun _ => WebService.Raised WebService.ZlibError) Some
    AppResponse.example_xsd (Ref.fresh_crl "bob") (Some "12")
    (Some "Schema validation failed")
    (Some (b64encode Ref.lib
       (tostring Ref.lib (Utf8 true)
          (append (AppResponse.response "12" "Schema validation failed")
                  (signature_for Ref.lib (AppResponse.response "12" "Schema validation failed")
                                 "alice" "CERT:alice")))))
  = WebService.Raised (WebService.Exn TypeError).
Proof.
  unfold AppResponse.example_xsd. split.
  - refine (proj1 (proj2 (parse_response_schema_failure Ref.lib _ _ _ _ _ _ _
                            (ref_b64_roundtrip _))) _).
    vm_compute. reflexivity.
  - destruct (AppResponse.init Ref.lib (Some (has_tag (AppResponse.ns "ApplicationResponse")))
                (Ref.fresh_crl "bob")
                (tostring Ref.lib (Utf8 true)
                   (append (AppResponse.response "12" "Schema validation failed")
                      (signature_for Ref.lib
                         (AppResponse.response "12" "Schema validation failed")
                         "alice" "CERT:alice"))))
      as [ar|e] eqn:E; [|vm_compute in E; discriminate].
    refine (proj1 (proj2 (proj2 (parse_response_schema_failure Ref.lib _ _ _ _ _ _ _
                                   (ref_b64_roundtrip _)))) ar E _ _);
      revert E; vm_compute; intros E; injection E as <-; reflexivity.
Defined.
